(** * Podcast generator backend (app.py): model and verified properties

    The backend chains research, script generation, voice synthesis,
    jingle generation and audio assembly.  This development embeds the
    functions of [app.py] over an explicit world (file system, request
    log, elapsed sleep) and an environment of external collaborators
    (configuration, remote services, codecs), and proves the behaviour
    the design document states for them.

    Conventions.
    - A Python [str] is a list of Unicode code points ([N]); literals
      are written with [lit "..."], which decodes the UTF-8 source text.
    - Exceptions are values of [exn]; a computation is a function from
      the world to an outcome and the world it leaves behind, so that
      effects performed before an exception is raised survive it.
    - Logging has no influence on results and is left out.
    - Interpreter resource limits (recursion depth, the integer digit
      limit) and task cancellation are not modelled. *)

From Stdlib Require Import String Ascii ZArith NArith Lia Sorted.
From Stdlib.Strings Require Import Byte.
From stdpp Require Import base option list numbers gmap.

#[local] Set Warnings "-register-all".
#[local] Open Scope N_scope.
#[local] Open Scope list_scope.

(** ** Python strings *)

Module PyStr.

(** A character is a code point, a string a list of them. *)
Abbreviation char := N (only parsing).
Abbreviation str := (list N) (only parsing).

(** UTF-8 decoding, used for the literals of the source text. *)
Fixpoint utf8_decode (bs : list N) : str :=
  match bs with
  | [] => []
  | b0 :: r0 =>
    if b0 <? 128 then b0 :: utf8_decode r0
    else match r0 with
    | [] => [b0]
    | b1 :: r1 =>
      if b0 <? 224 then ((b0 - 192) * 64 + (b1 - 128)) :: utf8_decode r1
      else match r1 with
      | [] => [b0; b1]
      | b2 :: r2 =>
        if b0 <? 240
        then ((b0 - 224) * 4096 + (b1 - 128) * 64 + (b2 - 128)) :: utf8_decode r2
        else match r2 with
        | [] => [b0; b1; b2]
        | b3 :: r3 =>
          ((b0 - 240) * 262144 + (b1 - 128) * 4096 + (b2 - 128) * 64 + (b3 - 128))
            :: utf8_decode r3
        end
      end
    end
  end.

Fixpoint bytes_of_string (s : string) : list N :=
  match s with
  | EmptyString => []
  | String a r => N_of_ascii a :: bytes_of_string r
  end.

Definition lit (s : string) : str := utf8_decode (bytes_of_string s).

(** The same, for text that holds double quotes: they are written as
    apostrophes in the literal. *)
Definition jlit (s : string) : str :=
  map (fun c => if c =? 39 then 34 else c) (lit s).

Definition str_eqb (a b : str) : bool := bool_decide (a = b).

(** [str.isspace] for one character: the characters [str.strip] removes
    and the regular expression class [\s] matches. *)
Definition isspace (c : char) : bool :=
  ((9 <=? c) && (c <=? 13)) || ((28 <=? c) && (c <=? 32))
  || (c =? 133) || (c =? 160) || (c =? 5760)
  || ((8192 <=? c) && (c <=? 8202))
  || (c =? 8232) || (c =? 8233) || (c =? 8239) || (c =? 8287) || (c =? 12288).

Fixpoint lstrip (s : str) : str :=
  match s with
  | c :: r => if isspace c then lstrip r else s
  | [] => []
  end.

Definition rstrip (s : str) : str := rev (lstrip (rev s)).

(** [s.strip()] *)
Definition strip (s : str) : str := rstrip (lstrip s).

(** [s.startswith(p)] *)
Fixpoint startswith (p s : str) : bool :=
  match p, s with
  | [], _ => true
  | a :: p', b :: s' => (a =? b) && startswith p' s'
  | _ :: _, [] => false
  end.

(** [p in s] for strings: substring test. *)
Fixpoint contains (p s : str) : bool :=
  startswith p s || match s with [] => false | _ :: r => contains p r end.

(** [sep.join(parts)] *)
Fixpoint join (sep : str) (parts : list str) : str :=
  match parts with
  | [] => []
  | [p] => p
  | p :: r => p ++ sep ++ join sep r
  end.

(** Line boundaries of [str.splitlines]. *)
Definition islinebreak (c : char) : bool :=
  ((10 <=? c) && (c <=? 13)) || ((28 <=? c) && (c <=? 30))
  || (c =? 133) || (c =? 8232) || (c =? 8233).

(** [s.splitlines()]: [cur] is the line being read, reversed. *)
Fixpoint splitlines_aux (s : str) (cur : str) : list str :=
  match s with
  | [] => match cur with [] => [] | _ => [rev cur] end
  | c :: r =>
    if islinebreak c then
      match r with
      | d :: r' =>
        if (c =? 13) && (d =? 10) then rev cur :: splitlines_aux r' []
        else rev cur :: splitlines_aux r []
      | [] => [rev cur]
      end
    else splitlines_aux r (c :: cur)
  end.

Definition splitlines (s : str) : list str := splitlines_aux s [].

(** Lexicographic order on code points: [a < b] for strings. *)
Fixpoint str_ltb (a b : str) : bool :=
  match a, b with
  | [], [] => false
  | [], _ :: _ => true
  | _ :: _, [] => false
  | x :: a', y :: b' => (x <? y) || ((x =? y) && str_ltb a' b')
  end.

(** Decimal digits of a natural number, most significant first. *)
Fixpoint digits_aux (fuel : nat) (n : N) (acc : str) : str :=
  match fuel with
  | O => acc
  | S k =>
    let acc' := (48 + n mod 10) :: acc in
    if n <? 10 then acc' else digits_aux k (n / 10) acc'
  end.

Definition digits (n : N) : str := digits_aux (S (N.to_nat (N.log2 n))) n [].

(** [f"{i:03d}"] for a non-negative [i]: zero padded to width 3, wider
    numbers are printed in full. *)
Definition fmt_03d (i : nat) : str :=
  let d := digits (N.of_nat i) in
  repeat 48 (3 - length d)%nat ++ d.

End PyStr.
Export PyStr.

(** ** JSON values and [json.loads] *)

Module Json.

(** A float is kept as the decimal numeral it was read from, the value
    [mant * 10 ^ exp10] before rounding to a double. *)
Inductive pyfloat : Type :=
| FNaN
| FInf (neg : bool)
| FDec (neg : bool) (mant : N) (exp10 : Z).

Inductive json : Type :=
| JNull
| JBool (b : bool)
| JInt (z : Z)
| JFloat (f : pyfloat)
| JString (s : str)
| JArray (items : list json)
| JObject (fields : list (str * json)).

(** A dict is an association list with unique keys in insertion order. *)
Fixpoint dict_set (k : str) (v : json) (d : list (str * json)) : list (str * json) :=
  match d with
  | [] => [(k, v)]
  | (k', v') :: r => if str_eqb k k' then (k, v) :: r else (k', v') :: dict_set k v r
  end.

Fixpoint dict_get (k : str) (d : list (str * json)) : option json :=
  match d with
  | [] => None
  | (k', v) :: r => if str_eqb k k' then Some v else dict_get k r
  end.

(** A double correctly rounded from [mant * 10 ^ exp10] is zero when the
    value is at most half the least subnormal, [2 ^ -1075]. *)
Definition float_is_zero (mant : N) (exp10 : Z) : bool :=
  (mant =? 0) ||
  ((exp10 <? 0)%Z && (Z.of_N mant * 2 ^ 1075 <=? 10 ^ (- exp10))%Z).

(** It is infinite when the value is at least [2 ^ 1024 - 2 ^ 970], half
    a unit in the last place above the largest double. *)
Definition float_is_inf (mant : N) (exp10 : Z) : bool :=
  if (0 <=? exp10)%Z
  then (2 ^ 1024 - 2 ^ 970 <=? Z.of_N mant * 10 ^ exp10)%Z
  else ((2 ^ 1024 - 2 ^ 970) * 10 ^ (- exp10) <=? Z.of_N mant)%Z.

(** The float is [nan], [inf] or [-inf]. *)
Definition float_nonfinite (f : pyfloat) : bool :=
  match f with
  | FNaN => true
  | FInf _ => true
  | FDec _ mant exp10 => float_is_inf mant exp10
  end.

(** Truth value of a JSON value as Python tests it ([if v], [not v]). *)
Definition truthy (v : json) : bool :=
  match v with
  | JNull => false
  | JBool b => b
  | JInt z => negb (z =? 0)%Z
  | JFloat (FDec _ m e) => negb (float_is_zero m e)
  | JFloat _ => true
  | JString s => match s with [] => false | _ => true end
  | JArray l => match l with [] => false | _ => true end
  | JObject d => match d with [] => false | _ => true end
  end.

Definition is_json_ws (c : char) : bool :=
  (c =? 32) || (c =? 9) || (c =? 10) || (c =? 13).

Fixpoint skip_ws (s : str) : str :=
  match s with
  | c :: r => if is_json_ws c then skip_ws r else s
  | [] => []
  end.

Definition is_digit (c : char) : bool := (48 <=? c) && (c <=? 57).

Definition hexval (c : char) : option N :=
  if is_digit c then Some (c - 48)
  else if (97 <=? c) && (c <=? 102) then Some (c - 87)
  else if (65 <=? c) && (c <=? 70) then Some (c - 55)
  else None.

(** Four hexadecimal digits of a [\uXXXX] escape. *)
Definition hex4 (s : str) : option (N * str) :=
  match s with
  | a :: b :: c :: d :: r =>
    match hexval a, hexval b, hexval c, hexval d with
    | Some x, Some y, Some z, Some w => Some (x * 4096 + y * 256 + z * 16 + w, r)
    | _, _, _, _ => None
    end
  | _ => None
  end.

Definition is_high_surrogate (c : N) : bool := (55296 <=? c) && (c <=? 56319).
Definition is_low_surrogate (c : N) : bool := (56320 <=? c) && (c <=? 57343).

(** The string holds a surrogate code point, U+D800 to U+DFFF: it has no
    UTF-8 encoding. *)
Definition has_surrogate (s : str) : bool :=
  existsb (fun c => is_high_surrogate c || is_low_surrogate c) s.

(** Some float of the value satisfies [pf], or some string of it (the
    keys of objects included) satisfies [ps]. *)
Fixpoint json_exists (pf : pyfloat -> bool) (ps : str -> bool) (v : json) : bool :=
  match v with
  | JFloat f => pf f
  | JString s => ps s
  | JArray items => existsb (json_exists pf ps) items
  | JObject fields => existsb (fun '(k, x) => ps k || json_exists pf ps x) fields
  | _ => false
  end.

(** The value holds a float that is not finite. *)
Definition json_nonfinite (v : json) : bool :=
  json_exists float_nonfinite (fun _ => false) v.

(** The value holds a string with a surrogate code point. *)
Definition json_surrogate (v : json) : bool :=
  json_exists (fun _ => false) has_surrogate v.
Definition join_surrogates (hi lo : N) : N :=
  65536 + (hi - 55296) * 1024 + (lo - 56320).

Definition simple_escape (e : char) : option char :=
  if e =? 34 then Some 34         (* quote *)
  else if e =? 92 then Some 92    (* backslash *)
  else if e =? 47 then Some 47    (* slash *)
  else if e =? 98 then Some 8     (* b: backspace *)
  else if e =? 102 then Some 12   (* f: form feed *)
  else if e =? 110 then Some 10   (* n: line feed *)
  else if e =? 114 then Some 13   (* r: carriage return *)
  else if e =? 116 then Some 9    (* t: tab *)
  else None.

(** The body of a string literal after its opening quote (strict mode:
    raw control characters are refused).  [acc] is the text read so far,
    reversed; the result is the text and what follows the closing quote. *)
Fixpoint scan_string (fuel : nat) (s : str) (acc : str) : option (str * str) :=
  match fuel with
  | O => None
  | S k =>
    match s with
    | [] => None
    | c :: r =>
      if c =? 34 then Some (rev acc, r)
      else if c =? 92 then
        match r with
        | [] => None
        | e :: r1 =>
          if e =? 117 then
            match hex4 r1 with
            | None => None
            | Some (u, r2) =>
              if is_high_surrogate u && (6 <? length r2)%nat
                 && startswith [92; 117] r2
              then
                match hex4 (drop 2 r2) with
                | None => None
                | Some (u2, r3) =>
                  if is_low_surrogate u2
                  then scan_string k r3 (join_surrogates u u2 :: acc)
                  else scan_string k r2 (u :: acc)
                end
              else scan_string k r2 (u :: acc)
            end
          else
            match simple_escape e with
            | Some x => scan_string k r1 (x :: acc)
            | None => None
            end
        end
      else if c <? 32 then None
      else scan_string k r (c :: acc)
    end
  end.

Fixpoint span_digits (s : str) : str * str :=
  match s with
  | c :: r => if is_digit c then let (ds, r') := span_digits r in (c :: ds, r') else ([], s)
  | [] => ([], [])
  end.

Definition digits_value (ds : str) : N :=
  fold_left (fun acc d => acc * 10 + (d - 48)) ds 0.

(** Optional fraction [(\.[0-9]+)?] and exponent [([eE][-+]?[0-9]+)?]. *)
Definition scan_fraction (s : str) : option str * str :=
  match s with
  | dot :: r =>
    if dot =? 46 then
      match span_digits r with
      | ([], _) => (None, s)
      | (ds, r') => (Some ds, r')
      end
    else (None, s)
  | [] => (None, s)
  end.

Definition scan_exponent (s : str) : option Z * str :=
  match s with
  | e :: r =>
    if (e =? 101) || (e =? 69) then
      let (eneg, r1) := match r with
                        | sg :: t => if sg =? 45 then (true, t)
                                     else if sg =? 43 then (false, t)
                                     else (false, r)
                        | [] => (false, r)
                        end in
      match span_digits r1 with
      | ([], _) => (None, s)
      | (ds, r2) =>
        (Some (if eneg then (- Z.of_N (digits_value ds))%Z
               else Z.of_N (digits_value ds)), r2)
      end
    else (None, s)
  | [] => (None, s)
  end.

(** A numeral: an optional minus sign, then 0 or a digit string without
    leading zero, then the optional fraction and exponent.  A numeral
    without fraction and exponent is an [int]. *)
Definition scan_number (s : str) : option (json * str) :=
  let (neg, s1) := match s with
                   | c :: r => if c =? 45 then (true, r) else (false, s)
                   | [] => (false, s)
                   end in
  match s1 with
  | [] => None
  | d :: r =>
    if negb (is_digit d) then None else
    let (ip, r1) := if d =? 48 then ([d], r) else span_digits s1 in
    let (fp, r2) := scan_fraction r1 in
    let (ep, r3) := scan_exponent r2 in
    match fp, ep with
    | None, None =>
      Some (JInt (if neg then (- Z.of_N (digits_value ip))%Z
                  else Z.of_N (digits_value ip)), r3)
    | _, _ =>
      let fd := default [] fp in
      Some (JFloat (FDec neg (digits_value (ip ++ fd))
                         (default 0%Z ep - Z.of_nat (length fd))%Z), r3)
    end
  end.

(** The scanner: one value at the head of [s] (no leading white space),
    and what follows it.  [parse_array] and [parse_object] are entered
    at the first element, after the opening bracket and white space. *)
Fixpoint parse_value (fuel : nat) (s : str) : option (json * str) :=
  match fuel with
  | O => None
  | S k =>
    match s with
    | [] => None
    | c :: r =>
      if c =? 34 then
        match scan_string (S (length r)) r [] with
        | Some (t, r') => Some (JString t, r')
        | None => None
        end
      else if c =? 123 then
        match skip_ws r with
        | c' :: r' => if c' =? 125 then Some (JObject [], r')
                      else parse_object k (c' :: r') []
        | [] => None
        end
      else if c =? 91 then
        match skip_ws r with
        | c' :: r' => if c' =? 93 then Some (JArray [], r')
                      else parse_array k (c' :: r') []
        | [] => None
        end
      else if startswith (lit "null") s then Some (JNull, drop 4 s)
      else if startswith (lit "true") s then Some (JBool true, drop 4 s)
      else if startswith (lit "false") s then Some (JBool false, drop 5 s)
      else if startswith (lit "NaN") s then Some (JFloat FNaN, drop 3 s)
      else if startswith (lit "Infinity") s then Some (JFloat (FInf false), drop 8 s)
      else if startswith (lit "-Infinity") s then Some (JFloat (FInf true), drop 9 s)
      else scan_number s
    end
  end
with parse_array (fuel : nat) (s : str) (acc : list json) : option (json * str) :=
  match fuel with
  | O => None
  | S k =>
    match parse_value k s with
    | None => None
    | Some (v, r) =>
      match skip_ws r with
      | c :: r' =>
        if c =? 93 then Some (JArray (rev (v :: acc)), r')
        else if c =? 44 then parse_array k (skip_ws r') (v :: acc)
        else None
      | [] => None
      end
    end
  end
with parse_object (fuel : nat) (s : str) (acc : list (str * json)) : option (json * str) :=
  match fuel with
  | O => None
  | S k =>
    match s with
    | [] => None
    | q :: r0 =>
      if negb (q =? 34) then None else
      match scan_string (S (length r0)) r0 [] with
      | None => None
      | Some (key, r1) =>
        match skip_ws r1 with
        | [] => None
        | colon :: r2 =>
          if negb (colon =? 58) then None else
          match parse_value k (skip_ws r2) with
          | None => None
          | Some (v, r3) =>
            match skip_ws r3 with
            | c :: r' =>
              if c =? 125 then Some (JObject (dict_set key v acc), r')
              else if c =? 44 then parse_object k (skip_ws r') (dict_set key v acc)
              else None
            | [] => None
            end
          end
        end
      end
    end
  end.

(** [json.loads(s)]; [None] stands for [json.JSONDecodeError].  Every
    step of the scanner consumes a character, so twice the length of the
    text is fuel enough ([json_loads_fuel_enough] below). *)
Definition json_loads (s : str) : option json :=
  if startswith [65279] s then None else
  match parse_value (2 * length s + 2) (skip_ws s) with
  | Some (v, r) => match skip_ws r with [] => Some v | _ :: _ => None end
  | None => None
  end.

End Json.
Export Json.

(** ** Paths ([pathlib.PurePosixPath]) *)

Module PyPath.

(** A path is the tuple of its parts; an absolute path starts with the
    part ["/"]. *)
Abbreviation Path := (list (list N)) (only parsing).

(** [s.split("/")]: [cur] is the component being read, reversed. *)
Fixpoint split_slash (s : str) (cur : str) : list str :=
  match s with
  | [] => [rev cur]
  | c :: r => if c =? 47 then rev cur :: split_slash r [] else split_slash r (c :: cur)
  end.

Definition keep_part (p : str) : bool :=
  negb (str_eqb p []) && negb (str_eqb p [46]).

(** The parts of a path string: empty components and ["."] are dropped. *)
Definition parse_parts (s : str) : list str := filter (fun p => keep_part p = true) (split_slash s []).

Definition is_absolute (s : str) : bool := startswith [47] s.

Definition root_of (s : str) : str :=
  if startswith [47; 47] s && negb (startswith [47; 47; 47] s) then [47; 47] else [47].

(** [Path(s)] *)
Definition path_of (s : str) : Path :=
  if is_absolute s then root_of s :: parse_parts s else parse_parts s.

(** [p / s]: an absolute right operand replaces the left one. *)
Definition path_div (p : Path) (s : str) : Path :=
  if is_absolute s then path_of s else p ++ parse_parts s.

(** [p.parent] *)
Definition parent (p : Path) : Path := removelast p.

(** [a < b]: the tuples of parts compared lexicographically. *)
Fixpoint path_ltb (a b : Path) : bool :=
  match a, b with
  | [], [] => false
  | [], _ :: _ => true
  | _ :: _, [] => false
  | x :: a', y :: b' => str_ltb x y || (str_eqb x y && path_ltb a' b')
  end.

Fixpoint insert_sorted (x : Path) (l : list Path) : list Path :=
  match l with
  | [] => [x]
  | y :: r => if path_ltb y x then y :: insert_sorted x r else x :: y :: r
  end.

(** [sorted(paths)]: the stable ascending sort, here by insertion from
    the right. *)
Definition sorted (l : list Path) : list Path := foldr insert_sorted [] l.

End PyPath.
Export PyPath.

(** ** Audio segments ([pydub]) *)

Module Audio.

Abbreviation bytes := (list byte) (only parsing).

(** An audio segment is the term of [pydub] operations that built it.
    Lengths are in milliseconds, the unit of [len(segment)]; sample rate
    conversion and rounding below one millisecond are not represented. *)
Inductive AudioSegment : Type :=
| Empty                                      (* AudioSegment.empty() *)
| Silent (ms : N)                            (* AudioSegment.silent(duration=ms) *)
| SineTone (freq : N) (ms : N)               (* Sine(freq).to_audio_segment(duration=ms) *)
| Mp3 (data : bytes) (ms : N)                (* AudioSegment.from_mp3: the decoded data *)
| Append (a b : AudioSegment)                (* a + b: b played after a *)
| Overlay (a b : AudioSegment)               (* a.overlay(b): b mixed onto a *)
| ApplyGain (db : Z) (a : AudioSegment)      (* a.apply_gain(db) *)
| FadeIn (ms : N) (a : AudioSegment)         (* a.fade_in(ms) *)
| FadeOut (ms : N) (a : AudioSegment)        (* a.fade_out(ms) *)
| SliceTo (ms : N) (a : AudioSegment)        (* a[:ms] *)
| Normalize (a : AudioSegment).              (* a.normalize() *)

(** [len(a)], for fades that are not longer than the segment. *)
Fixpoint len (a : AudioSegment) : N :=
  match a with
  | Empty => 0
  | Silent ms => ms
  | SineTone _ ms => ms
  | Mp3 _ ms => ms
  | Append a b => len a + len b
  | Overlay a _ => len a
  | ApplyGain _ a => len a
  | FadeIn _ a => len a
  | FadeOut _ a => len a
  | SliceTo ms a => N.min ms (len a)
  | Normalize a => len a
  end.

(** Whether two segments are mixed somewhere in the term, rather than
    played one after the other. *)
Fixpoint has_overlay (a : AudioSegment) : bool :=
  match a with
  | Overlay _ _ => true
  | Append a b => has_overlay a || has_overlay b
  | ApplyGain _ a | FadeIn _ a | FadeOut _ a | SliceTo _ a | Normalize a => has_overlay a
  | _ => false
  end.

End Audio.
Export Audio.

(** ** Parsed HTML ([bs4]) *)

Module Soup.

Inductive node : Type :=
| NText (s : str)                        (* NavigableString *)
| NOther (s : str)                       (* comment, doctype, declaration *)
| NTag (name : str) (children : list node).

(** [for tag in soup(names): tag.decompose()]: every element with one of
    the names is removed, at any depth. *)
Fixpoint decompose_all (names : list str) (n : node) : list node :=
  match n with
  | NTag name cs =>
    if bool_decide (name ∈ names) then []
    else [NTag name (concat (map (decompose_all names) cs))]
  | _ => [n]
  end.

Definition decompose_forest (names : list str) (ns : list node) : list node :=
  concat (map (decompose_all names) ns).

(** [find(name)] below a node itself included: the first element of that
    name in document order. *)
Fixpoint find_in (name : str) (n : node) : option (list node) :=
  match n with
  | NTag nm cs =>
    if str_eqb nm name then Some cs
    else (fix go (l : list node) : option (list node) :=
            match l with
            | [] => None
            | c :: r => match find_in name c with Some x => Some x | None => go r end
            end) cs
  | _ => None
  end.

(** [soup.find(name)]: the children of the element found. *)
Fixpoint find (name : str) (ns : list node) : option (list node) :=
  match ns with
  | [] => None
  | n :: r => match find_in name n with Some x => Some x | None => find name r end
  end.

(** The text nodes below a node in document order. *)
Fixpoint strings_of (n : node) : list str :=
  match n with
  | NText s => [s]
  | NOther _ => []
  | NTag _ cs => concat (map strings_of cs)
  end.

(** [get_text(separator="\n", strip=True)] over a list of nodes: every
    string stripped, the empty ones dropped, joined by line feeds. *)
Definition get_text (ns : list node) : str :=
  join [10] (filter (fun s => s ≠ []) (map strip (concat (map strings_of ns)))).

End Soup.
Export Soup.

(** ** Exceptions, the world and the environment *)

Module Runtime.

Inductive exn : Type :=
| HTTPException (status_code : nat) (detail : str)   (* fastapi.HTTPException *)
| TransportError                                     (* raised by the HTTP client *)
| HTTPStatusError                                    (* raise_for_status() *)
| JSONDecodeError
| ValueError (msg : str)
| KeyError
| IndexError
| TypeError
| AttributeError
| StopIteration
| UnicodeEncodeError
| OSError
| CouldntDecodeError
| CouldntEncodeError.

Inductive result (A : Type) : Type :=
| Ok (a : A)
| Raise (e : exn).
Arguments Ok {A} a.
Arguments Raise {A} e.

Inductive Method : Type := GET | POST.

Record Request : Type := mkRequest {
  req_method : Method;
  req_url : str;
  req_params : list (str * json);
  req_headers : list (str * str);
  req_json : option json;
  req_follow_redirects : bool
}.

Record Response : Type := mkResponse {
  status_ok : bool;          (* whether raise_for_status() passes *)
  text : str;                (* resp.text *)
  content : bytes;           (* resp.content *)
  body_json : option json    (* resp.json(); None when it raises *)
}.

Inductive HttpOutcome : Type :=
| HttpFails                  (* the client raises: no connection, timeout, bad argument *)
| HttpReturns (r : Response).

(** What lies outside the program: configuration read at start-up, the
    remote services, the operating system, the codecs and the library
    functions that are taken as given. *)
Record Env : Type := mkEnv {
  MINIMAX_API_KEY : str;
  MINIMAX_GROUP_ID : str;
  ELEVENLABS_API_KEY : str;
  ELEVENLABS_VOICE_ALEX : str;
  ELEVENLABS_VOICE_SAM : str;
  (** the answer to a request, given the requests sent before it *)
  http : list Request -> Request -> HttpOutcome;
  (** the operating system refuses to create or write this path *)
  os_fault : Path -> bool;
  (** the length in ms of MP3 data, when it can be decoded *)
  mp3_length : bytes -> option N;
  (** the MP3 encoding of a segment, when the encoder succeeds *)
  mp3_encode : AudioSegment -> option bytes;
  (** [BeautifulSoup(text, "html.parser")] *)
  html_parser : str -> list node;
  (** [s.lower()] *)
  str_lower : str -> str;
  (** how an f-string renders a value that is not a [str] *)
  py_format : json -> str;
  (** [str(uuid.uuid4())] for the request at hand *)
  uuid4 : str
}.

Record World : Type := mkWorld {
  files : gmap Path bytes;     (* regular files and their content *)
  dirs : gset Path;            (* directories *)
  sent : list Request;         (* HTTP requests, oldest first *)
  slept : nat                  (* seconds spent in asyncio.sleep *)
}.

(** A computation: the outcome and the world it leaves. *)
Definition M (A : Type) : Type := World -> result A * World.

Definition ret {A} (a : A) : M A := fun w => (Ok a, w).
Definition raise {A} (e : exn) : M A := fun w => (Raise e, w).
Definition bind {A B} (c : M A) (k : A -> M B) : M B :=
  fun w => match c w with
           | (Ok a, w') => k a w'
           | (Raise e, w') => (Raise e, w')
           end.
Definition lift {A} (r : result A) : M A := fun w => (r, w).

(** [try: body except Exception: handler]; every exception of [exn] is
    an [Exception]. *)
Definition try_except {A} (body : M A) (handler : exn -> M A) : M A :=
  fun w => match body w with
           | (Ok a, w') => (Ok a, w')
           | (Raise e, w') => handler e w'
           end.

End Runtime.
Export Runtime.

Declare Scope py_scope.
Delimit Scope py_scope with py.
Notation "'let*' x ':=' c 'in' k" := (bind c (fun x => k))
  (at level 10, x pattern, c at level 100, k at level 200) : py_scope.
Notation "c ';;' k" := (bind c (fun _ => k))
  (at level 100, k at level 200, right associativity) : py_scope.
#[local] Open Scope py_scope.

(** ** Dynamically typed operations on JSON values *)

Module PyOps.

(** [v.get(k, d)] *)
Definition py_get (v : json) (k : str) (d : json) : result json :=
  match v with
  | JObject fs => Ok (default d (dict_get k fs))
  | _ => Raise AttributeError
  end.

(** [v[k]] for a string key *)
Definition py_getitem_str (v : json) (k : str) : result json :=
  match v with
  | JObject fs => match dict_get k fs with Some x => Ok x | None => Raise KeyError end
  | _ => Raise TypeError
  end.

(** [v[i]] for a non-negative integer index *)
Definition py_getitem_int (v : json) (i : nat) : result json :=
  match v with
  | JArray l => match l !! i with Some x => Ok x | None => Raise IndexError end
  | JString s => match s !! i with Some c => Ok (JString [c]) | None => Raise IndexError end
  | JObject _ => Raise KeyError
  | _ => Raise TypeError
  end.

(** [k in v] for a string [k] *)
Definition py_contains_str (k : str) (v : json) : result bool :=
  match v with
  | JObject fs => Ok (bool_decide (is_Some (dict_get k fs)))
  | JArray l => Ok (existsb (fun x => match x with JString s => str_eqb s k | _ => false end) l)
  | JString s => Ok (contains k s)
  | _ => Raise TypeError
  end.

(** [v.strip()] *)
Definition py_strip (v : json) : result str :=
  match v with
  | JString s => Ok (strip s)
  | _ => Raise AttributeError
  end.

(** [v == s] for a string literal [s] *)
Definition py_eq_str (v : json) (s : str) : bool :=
  match v with
  | JString t => str_eqb t s
  | _ => false
  end.

(** [v.lower()] is a method of [str] only; the case mapping itself is
    taken from the environment. *)
Definition py_lower (lower : str -> str) (v : json) : result str :=
  match v with
  | JString s => Ok (lower s)
  | _ => Raise AttributeError
  end.

(** The items [for x in v] goes through. *)
Definition py_iter (v : json) : result (list json) :=
  match v with
  | JArray l => Ok l
  | JString s => Ok (map (fun c => JString [c]) s)
  | JObject fs => Ok (map (fun kv => JString (fst kv)) fs)
  | _ => Raise TypeError
  end.

(** [len(v)] *)
Definition py_len (v : json) : result nat :=
  match v with
  | JArray l => Ok (length l)
  | JString s => Ok (length s)
  | JObject fs => Ok (length fs)
  | _ => Raise TypeError
  end.

(** [next(iter(v.values()))] *)
Definition py_first_value (v : json) : result json :=
  match v with
  | JObject [] => Raise StopIteration
  | JObject ((_, x) :: _) => Ok x
  | _ => Raise AttributeError
  end.

End PyOps.
Export PyOps.

(** ** The application *)

Section App.

Variable E : Env.

(** *** Primitive effects *)

Definition set_files (w : World) (f : gmap Path bytes) : World :=
  mkWorld f (dirs w) (sent w) (slept w).

(** [await http_client.get(...)], [await http_client.post(...)] *)
Definition http_send (req : Request) : M Response :=
  fun w =>
    let w' := mkWorld (files w) (dirs w) (sent w ++ [req]) (slept w) in
    match http E (sent w) req with
    | HttpFails => (Raise TransportError, w')
    | HttpReturns r => (Ok r, w')
    end.

Definition raise_for_status (r : Response) : M unit :=
  if status_ok r then ret tt else raise HTTPStatusError.

(** [resp.json()]: the client decodes the bytes of the body itself (it
    accepts a byte order mark, which [json.loads] refuses in a [str])
    and parses them; what comes out is part of the answer.  When the
    body cannot be decoded or parsed the call raises a [ValueError], of
    which [JSONDecodeError] is the usual case. *)
Definition resp_json (r : Response) : M json :=
  match body_json r with
  | Some v => ret v
  | None => raise JSONDecodeError
  end.

(** [await asyncio.sleep(n)] *)
Definition sleep (n : nat) : M unit :=
  fun w => (Ok tt, mkWorld (files w) (dirs w) (sent w) (slept w + n)).

(** The current directory is the empty path. *)
Definition is_dir (w : World) (p : Path) : bool :=
  match p with
  | [] => true
  | _ => bool_decide (p ∈ dirs w)
  end.

Definition is_file (w : World) (p : Path) : bool :=
  bool_decide (is_Some (files w !! p)).

(** [p.exists()] *)
Definition path_exists (w : World) (p : Path) : bool := is_file w p || is_dir w p.

Definition prefixes (p : Path) : list Path :=
  map (fun n => take n p) (seq 1 (length p)).

(** [p.mkdir(parents=True, exist_ok=True)] *)
Definition mkdir_p (p : Path) : M unit :=
  fun w =>
    if os_fault E p then (Raise OSError, w)
    else if existsb (is_file w) (prefixes p) then (Raise OSError, w)
    else (Ok tt, mkWorld (files w) (dirs w ∪ list_to_set (prefixes p)) (sent w) (slept w)).

(** [p.write_bytes(data)]: the parent must be a directory and [p] must
    not be one. *)
Definition write_bytes (p : Path) (data : bytes) : M unit :=
  fun w =>
    if os_fault E p || negb (is_dir w (parent p)) || is_dir w p
    then (Raise OSError, w)
    else (Ok tt, set_files w (<[p := data]> (files w))).

(** [AudioSegment.from_mp3(str(p))] *)
Definition from_mp3 (p : Path) : M AudioSegment :=
  fun w =>
    match files w !! p with
    | None => (Raise OSError, w)
    | Some d =>
      match mp3_length E d with
      | None => (Raise CouldntDecodeError, w)
      | Some ms => (Ok (Mp3 d ms), w)
      end
    end.

(** [a.export(str(p), format="mp3")]: the output file is opened for
    writing first, then the encoder runs. *)
Definition export (a : AudioSegment) (p : Path) : M unit :=
  write_bytes p [];;
  match mp3_encode E a with
  | None => raise CouldntEncodeError
  | Some b => write_bytes p b
  end.

(** A value inside an f-string. *)
Definition fmt (v : json) : str :=
  match v with
  | JString s => s
  | _ => py_format E v
  end.

Definition OUTPUT_DIR : Path := path_of (lit "output").

Definition nl : str := [10].

(** *** Research *)

Definition wiki_headers : list (str * str) :=
  [(lit "User-Agent",
    lit "PodcastGenerator/1.0 (https://github.com/local/podcastgen; contact@example.com) python-httpx")].

Definition wiki_api : str := lit "https://en.wikipedia.org/w/api.php".

Definition search_request (topic : str) : Request :=
  mkRequest GET wiki_api
    [(lit "action", JString (lit "opensearch"));
     (lit "search", JString topic);
     (lit "limit", JInt 1);
     (lit "format", JString (lit "json"))]
    wiki_headers None false.

Definition extract_request (article_title : json) : Request :=
  mkRequest GET wiki_api
    [(lit "action", JString (lit "query"));
     (lit "titles", article_title);
     (lit "prop", JString (lit "extracts"));
     (lit "exintro", JBool false);
     (lit "explaintext", JBool true);
     (lit "exsectionformat", JString (lit "plain"));
     (lit "exchars", JInt 3000);
     (lit "format", JString (lit "json"))]
    wiki_headers None false.

Definition no_article_brief (topic : str) : str :=
  lit "Topic: " ++ topic ++ lit ". (No Wikipedia article found — generate from general knowledge.)".

Definition empty_extract_brief (topic : str) : str :=
  lit "Topic: " ++ topic ++ lit ". (Wikipedia extract was empty — generate from general knowledge.)".

Definition lookup_failed_brief (topic : str) : str :=
  lit "Topic: " ++ topic ++ lit ". (Wikipedia lookup failed — generate from general knowledge.)".

Definition research_topic (topic : str) : M str :=
  try_except
    (let* search_resp := http_send (search_request topic) in
     raise_for_status search_resp;;
     let* search_data := resp_json search_resp in
     let* titles := lift (py_getitem_int search_data 1) in
     if negb (truthy titles) then ret (no_article_brief topic)
     else
       let* article_title := lift (py_getitem_int titles 0) in
       let* extract_resp := http_send (extract_request article_title) in
       raise_for_status extract_resp;;
       let* extract_data := resp_json extract_resp in
       let* query := lift (py_get extract_data (lit "query") (JObject [])) in
       let* pages := lift (py_get query (lit "pages") (JObject [])) in
       let* page := lift (py_first_value pages) in
       let* raw := lift (py_get page (lit "extract") (JString [])) in
       let* extract := lift (py_strip raw) in
       match extract with
       | _ :: _ => ret (lit "Wikipedia — " ++ fmt article_title ++ nl ++ nl ++ extract)
       | [] => ret (empty_extract_brief topic)
       end)
    (fun _ => ret (lookup_failed_brief topic)).

Definition noise_tags : list str :=
  [lit "script"; lit "style"; lit "nav"; lit "footer"; lit "header"; lit "aside"; lit "form"].

Definition scrape_request (url : str) : Request :=
  mkRequest GET url []
    [(lit "User-Agent", lit "Mozilla/5.0 (compatible; PodcastGenerator/1.0)")]
    None true.

(** The excerpt of a fetched page: noise removed, the article, main or
    body region (else the whole document) flattened to text, and the
    first 120 non-blank lines kept. *)
Definition page_excerpt (page_text : str) : str :=
  let soup := decompose_forest noise_tags (html_parser E page_text) in
  let body := match find (lit "article") soup with
              | Some b => Some b
              | None => match find (lit "main") soup with
                        | Some b => Some b
                        | None => find (lit "body") soup
                        end
              end in
  let text := match body with
              | Some b => get_text b
              | None => get_text soup
              end in
  let lines := filter (fun l => l ≠ []) (map strip (splitlines text)) in
  join nl (take 120 lines).

Definition empty_page_brief (url : str) : str :=
  lit "Article URL: " ++ url ++ lit ". (Page content was empty — generate from general knowledge.)".

Definition scrape_failed_brief (url : str) : str :=
  lit "Article URL: " ++ url ++ lit ". (Scraping failed — generate from general knowledge.)".

Definition research_url (url : str) : M str :=
  try_except
    (let* resp := http_send (scrape_request url) in
     raise_for_status resp;;
     match page_excerpt (text resp) with
     | [] => ret (empty_page_brief url)
     | excerpt => ret (lit "Source: " ++ url ++ nl ++ nl ++ excerpt)
     end)
    (fun _ => ret (scrape_failed_brief url)).

(** *** Script generation *)

Definition SCRIPT_SYSTEM_PROMPT : str :=
  jlit "You are a podcast script writer. Write a 3-5 minute conversational
podcast between two hosts:
- Alex: curious, asks good questions, uses analogies
- Sam: the expert, explains things clearly, occasionally funny

Rules:
- Make it feel natural, not like a lecture
- Include a short intro and sign-off
- Keep it to 8-12 exchanges total
- Format output as a JSON array:
  [{'speaker': 'Alex', 'text': '...'}, {'speaker': 'Sam', 'text': '...'}, ...]
- Return ONLY the JSON array, no other text.".

Definition dialogue (speaker text : str) : json :=
  JObject [(lit "speaker", JString speaker); (lit "text", JString text)].

Definition _placeholder_script (topic : str) : json :=
  JArray [
    dialogue (lit "Alex") (lit "Hey Sam, today we're diving into " ++ topic ++ lit ". I've been really curious about this!");
    dialogue (lit "Sam") (lit "Yeah, " ++ topic ++ lit " is fascinating. Let me break it down for you.");
    dialogue (lit "Alex") (lit "So what's the most surprising thing people don't know about this?");
    dialogue (lit "Sam") (lit "Well, the thing about " ++ topic ++ lit " that most people miss is how interconnected it is with everyday life. It's not just some abstract concept.");
    dialogue (lit "Alex") (lit "That's a great point. Can you give me an example?");
    dialogue (lit "Sam") (lit "Sure! Think of it this way — it's like how you don't notice gravity until you trip. The effects are everywhere once you start looking.");
    dialogue (lit "Alex") (lit "Ha! I love that analogy. What should our listeners take away from this?");
    dialogue (lit "Sam") (lit "I'd say the key takeaway is that " ++ topic ++ lit " matters more than most people realize. Start paying attention and you'll see it everywhere.");
    dialogue (lit "Alex") (lit "Awesome. Thanks for breaking that down, Sam. Until next time, folks!");
    dialogue (lit "Sam") (lit "See you next episode!")
  ].

Definition fence : str := [96; 96; 96].

(** [re.sub(r"^```(?:json)?\s*\n?", "", text)]: the opening fence, the
    word json when it follows, and the white space after them. *)
Definition sub_open_fence (t : str) : str :=
  if startswith fence t then
    let r := drop 3 t in
    lstrip (if startswith (lit "json") r then drop 4 r else r)
  else t.

(** Whether [\n?```\s*$] matches at the head of [s]. *)
Definition close_fence_here (s : str) : bool :=
  let s' := match s with
            | c :: r => if c =? 10 then r else s
            | [] => s
            end in
  startswith fence s' && forallb isspace (drop 3 s').

(** [re.sub(r"\n?```\s*$", "", text)]: the leftmost match runs to the end
    of the text and is removed. *)
Fixpoint sub_close_fence (t : str) : str :=
  if close_fence_here t then []
  else match t with
       | [] => []
       | c :: r => c :: sub_close_fence r
       end.

(** The longest prefix of [r] that ends with a closing bracket. *)
Fixpoint upto_last_close (r : str) : option str :=
  match r with
  | [] => None
  | c :: r' =>
    match upto_last_close r' with
    | Some m => Some (c :: m)
    | None => if c =? 93 then Some [c] else None
    end
  end.

(** [re.search(r"\[.*\]", text, re.DOTALL)]: from the first opening
    bracket to the last closing bracket after it. *)
Fixpoint search_brackets (t : str) : option str :=
  match t with
  | [] => None
  | c :: r =>
    if c =? 91 then
      match upto_last_close r with
      | Some m => Some (c :: m)
      | None => None
      end
    else search_brackets r
  end.

Definition parse_error : exn :=
  ValueError (lit "Could not parse script JSON from LLM response").

Definition _parse_script_json (text : str) : result json :=
  let text := strip text in
  let text := if startswith fence text
              then sub_close_fence (sub_open_fence text)
              else text in
  match json_loads text with
  | Some (JArray l) => Ok (JArray l)
  | _ =>
    match search_brackets text with
    | Some m =>
      match json_loads m with
      | Some v => Ok v
      | None => Raise parse_error
      end
    | None => Raise parse_error
    end
  end.

Definition user_prompt (topic research_brief tone : str) : str :=
  lit "Topic: " ++ topic ++ nl ++
  lit "Tone: " ++ tone ++ nl ++
  lit "Research Brief:" ++ nl ++
  research_brief ++ nl ++ nl ++
  lit "Generate the podcast script now as a JSON array.".

Definition script_request (topic research_brief tone : str) : Request :=
  mkRequest POST (lit "https://api.minimaxi.chat/v1/text/chatcompletion_v2") []
    [(lit "Authorization", lit "Bearer " ++ MINIMAX_API_KEY E);
     (lit "Content-Type", lit "application/json")]
    (Some (JObject [
       (lit "model", JString (lit "MiniMax-Text-01"));
       (lit "messages", JArray [
          JObject [(lit "role", JString (lit "system"));
                   (lit "content", JString SCRIPT_SYSTEM_PROMPT)];
          JObject [(lit "role", JString (lit "user"));
                   (lit "content", JString (user_prompt topic research_brief tone))]]);
       (lit "temperature", JFloat (FDec false 85 (-2)));
       (lit "max_tokens", JInt 4096)]))
    false.

(** [data["choices"][0]["message"]["content"]] *)
Definition completion_content (data : json) : result json :=
  match py_getitem_str data (lit "choices") with
  | Raise e => Raise e
  | Ok choices =>
    match py_getitem_int choices 0 with
    | Raise e => Raise e
    | Ok choice =>
      match py_getitem_str choice (lit "message") with
      | Raise e => Raise e
      | Ok message => py_getitem_str message (lit "content")
      end
    end
  end.

Definition generate_script (topic research_brief tone : str) : M json :=
  match MINIMAX_API_KEY E with
  | [] => ret (_placeholder_script topic)
  | _ :: _ =>
    try_except
      (let* resp := http_send (script_request topic research_brief tone) in
       raise_for_status resp;;
       let* data := resp_json resp in
       let* content := lift (completion_content data) in
       let* script := match content with
                      | JString text => lift (_parse_script_json text)
                      | _ => raise AttributeError   (* text.strip() *)
                      end in
       let* _ := lift (py_len script) in
       ret script)
      (fun _ => ret (_placeholder_script topic))
  end.

(** *** Voice synthesis *)

Definition tts_request (voice_id : str) (text : json) : Request :=
  mkRequest POST (lit "https://api.elevenlabs.io/v1/text-to-speech/" ++ voice_id) []
    [(lit "xi-api-key", ELEVENLABS_API_KEY E);
     (lit "Content-Type", lit "application/json");
     (lit "Accept", lit "audio/mpeg")]
    (Some (JObject [
       (lit "text", text);
       (lit "model_id", JString (lit "eleven_turbo_v2"));
       (lit "voice_settings", JObject [
          (lit "stability", JFloat (FDec false 5 (-1)));
          (lit "similarity_boost", JFloat (FDec false 75 (-2)))])]))
    false.

(** [ELEVENLABS_VOICE_ALEX if speaker == "Alex" else ELEVENLABS_VOICE_SAM] *)
Definition select_voice (speaker : json) : str :=
  if py_eq_str speaker (lit "Alex") then ELEVENLABS_VOICE_ALEX E
  else ELEVENLABS_VOICE_SAM E.

(** [f"{i:03d}_{speaker.lower()}.mp3"] *)
Definition clip_name (i : nat) (lowered : str) : str :=
  fmt_03d i ++ lit "_" ++ lowered ++ lit ".mp3".

(** The body of [for i, line in enumerate(script)], from position [i]. *)
Fixpoint voice_loop (clips_dir : Path) (lines : list json) (i : nat)
    (clip_paths : list Path) : M (list Path) :=
  match lines with
  | [] => ret clip_paths
  | line :: rest =>
    let* speaker := lift (py_getitem_str line (lit "speaker")) in
    let* text := lift (py_getitem_str line (lit "text")) in
    let voice_id := select_voice speaker in
    let* clip_paths' :=
      try_except
        (let* resp := http_send (tts_request voice_id text) in
         raise_for_status resp;;
         let* lowered := lift (py_lower (str_lower E) speaker) in
         let clip_path := path_div clips_dir (clip_name i lowered) in
         write_bytes clip_path (content resp);;
         ret (clip_paths ++ [clip_path]))
        (fun _ => ret clip_paths) in
    voice_loop clips_dir rest (S i) clip_paths'
  end.

Definition clips_dir_of (job_id : str) : Path :=
  path_div (path_div OUTPUT_DIR job_id) (lit "clips").

Definition generate_voice_clips (script : json) (job_id : str) : M (list Path) :=
  let clips_dir := clips_dir_of job_id in
  mkdir_p clips_dir;;
  match ELEVENLABS_API_KEY E with
  | [] => ret []
  | _ :: _ =>
    let* lines := lift (py_iter script) in
    voice_loop clips_dir lines 0 []
  end.

(** *** Jingle generation *)

Definition jingle_prompt : str :=
  lit "Upbeat 15-second podcast intro jingle, light acoustic guitar, soft percussion, professional friendly tone".

Definition bearer : list (str * str) :=
  [(lit "Authorization", lit "Bearer " ++ MINIMAX_API_KEY E)].

Definition submit_request : Request :=
  mkRequest POST
    (lit "https://api.minimaxi.chat/v1/music_generation?GroupId=" ++ MINIMAX_GROUP_ID E) []
    (bearer ++ [(lit "Content-Type", lit "application/json")])
    (Some (JObject [(lit "model", JString (lit "music-01"));
                    (lit "prompt", JString jingle_prompt)]))
    false.

Definition query_request (task_id : json) : Request :=
  mkRequest GET
    (lit "https://api.minimaxi.chat/v1/query/music_generation?task_id=" ++ fmt task_id
       ++ lit "&GroupId=" ++ MINIMAX_GROUP_ID E) []
    bearer None false.

Definition download_request (audio_url : str) : Request :=
  mkRequest GET audio_url [] [] None false.

Definition jingle_path_of (job_id : str) : Path :=
  path_div (path_div OUTPUT_DIR job_id) (lit "jingle.mp3").

(** The polling loop [for attempt in range(30)], with [attempts] rounds
    left. *)
Fixpoint poll_jingle (attempts : nat) (task_id : json) (job_id : str) : M (option Path) :=
  match attempts with
  | O => ret None                       (* timeout *)
  | S remaining =>
    sleep 2;;
    let* query_resp := http_send (query_request task_id) in
    raise_for_status query_resp;;
    let* status_data := resp_json query_resp in
    let* status := lift (py_get status_data (lit "status") JNull) in
    if py_eq_str status (lit "Success") then
      let* file := lift (py_get status_data (lit "file") (JObject [])) in
      let* audio_url := lift (py_get file (lit "download_url") JNull) in
      if negb (truthy audio_url) then ret None
      else
        let* audio_resp := match audio_url with
                           | JString u => http_send (download_request u)
                           | _ => raise TypeError
                           end in
        raise_for_status audio_resp;;
        let jingle_path := jingle_path_of job_id in
        write_bytes jingle_path (content audio_resp);;
        ret (Some jingle_path)
    else if py_eq_str status (lit "Failed") then ret None
    else poll_jingle remaining task_id job_id
  end.

Definition generate_jingle (topic : str) (job_id : str) : M (option Path) :=
  match MINIMAX_API_KEY E, MINIMAX_GROUP_ID E with
  | _ :: _, _ :: _ =>
    try_except
      (let* submit_resp := http_send submit_request in
       raise_for_status submit_resp;;
       let* task_data := resp_json submit_resp in
       let* has_task := lift (py_contains_str (lit "task_id") task_data) in
       if negb has_task then ret None
       else
         let* task_id := lift (py_getitem_str task_data (lit "task_id")) in
         poll_jingle 30 task_id job_id)
      (fun _ => ret None)
  | _, _ => ret None
  end.

(** *** Assembly *)

Definition final_path_of (job_id : str) : Path :=
  path_div (path_div OUTPUT_DIR job_id) (lit "podcast.mp3").

Definition bell_file : Path := path_of (lit "static/bell.mp3").

(** The synthetic bell of [create_bell_chime]. *)
Definition synthetic_bell : AudioSegment :=
  let duration := 800 in
  let bell := ApplyGain (-6) (SineTone 659 duration) in
  let bell := Append bell (ApplyGain (-12) (SineTone (659 * 2) duration)) in
  let bell := Append bell (ApplyGain (-15) (SineTone (659 * 3) duration)) in
  FadeOut 600 bell.

Definition create_bell_chime : M AudioSegment :=
  fun w =>
    let synthetic := (Ok synthetic_bell, w) in
    match files w !! bell_file with
    | Some d =>
      if (100 <? length d)%nat then
        try_except (from_mp3 bell_file) (fun _ => ret synthetic_bell) w
      else synthetic
    | None => synthetic
    end.

(** [for clip_path in sorted(clip_paths): podcast += clip + silence] *)
Fixpoint conversation_loop (paths : list Path) (silence podcast : AudioSegment)
    : M AudioSegment :=
  match paths with
  | [] => ret podcast
  | clip_path :: rest =>
    let* clip := from_mp3 clip_path in
    conversation_loop rest silence (Append podcast (Append clip silence))
  end.

Definition stitch_podcast (clip_paths : list Path) (jingle_path : option Path)
    (job_id : str) : M Path :=
  let final_path := final_path_of job_id in
  match clip_paths with
  | [] =>
    let silence := Silent 1000 in
    export silence final_path;;
    ret final_path
  | _ :: _ =>
    let silence := Silent 400 in
    let* podcast := conversation_loop (sorted clip_paths) silence Empty in
    let* bell := create_bell_chime in
    let* sections :=
      (fun w =>
         match jingle_path with
         | Some jp =>
           if path_exists w jp then
             (let* jingle := from_mp3 jp in
              let intro_jingle := FadeOut 2000 (SliceTo 12000 (FadeIn 2000 jingle)) in
              let intro_section :=
                Append (Append (Append intro_jingle (Silent 300)) bell) (Silent 800) in
              let outro_jingle := FadeOut 3000 (SliceTo 8000 (FadeIn 1000 jingle)) in
              let outro_section :=
                Append (Append (Append (Silent 500) bell) (Silent 300)) outro_jingle in
              ret (intro_section, outro_section)) w
           else (Ok (Append bell (Silent 1000), Append (Silent 800) bell), w)
         | None => (Ok (Append bell (Silent 1000), Append (Silent 800) bell), w)
         end) in
    let podcast := Append (Append (fst sections) podcast) (snd sections) in
    let podcast := Normalize podcast in
    export podcast final_path;;
    ret final_path
  end.

(** *** The /generate route *)

Record Payload : Type := mkPayload {
  job_id : str;
  topic : str;
  tone : str;
  script : json;
  research_brief : str;
  audio_url : option str;
  has_audio : bool;
  clip_count : nat
}.

Definition rejection : exn := HTTPException 400 (lit "Provide a 'topic' or 'url'.").

Definition brief_preview (research_brief : str) : str :=
  if (500 <? length research_brief)%nat then take 500 research_brief ++ lit "..."
  else research_brief.

(** [body.get(key, default).strip()] *)
Definition field (body : json) (key : str) (d : str) : M str :=
  let* v := lift (py_get body key (JString d)) in
  lift (py_strip v).

(** The dict handed to [JSONResponse]. *)
Definition payload_content (p : Payload) : json :=
  JObject [
    (lit "job_id", JString (job_id p));
    (lit "topic", JString (topic p));
    (lit "tone", JString (tone p));
    (lit "script", script p);
    (lit "research_brief", JString (research_brief p));
    (lit "audio_url", match audio_url p with Some u => JString u | None => JNull end);
    (lit "has_audio", JBool (has_audio p));
    (lit "clip_count", JInt (Z.of_nat (clip_count p)))].

Definition out_of_range : exn :=
  ValueError (lit "Out of range float values are not JSON compliant").

(** [JSONResponse(content)]: the body is rendered when the response is
    built, by [json.dumps(content, ensure_ascii=False, allow_nan=False,
    ...)], which refuses a float that is not finite (recent interpreters
    add the value to the message), and then by [.encode("utf-8")], which
    refuses a surrogate code point. *)
Definition JSONResponse (p : Payload) : M Payload :=
  let content := payload_content p in
  if json_nonfinite content then raise out_of_range
  else if json_surrogate content then raise UnicodeEncodeError
  else ret p.

Definition generate_podcast (body : json) : M Payload :=
  let* topic := field body (lit "topic") [] in
  let* url := field body (lit "url") [] in
  let* tone := field body (lit "tone") (lit "casual") in
  match topic, url with
  | [], [] => raise rejection
  | _, _ =>
    let job_id := take 8 (uuid4 E) in
    mkdir_p (path_div OUTPUT_DIR job_id);;
    let* (research_brief, topic) :=
      match url with
      | _ :: _ =>
        let* research_brief := research_url url in
        ret (research_brief,
             match topic with [] => lit "Article from " ++ url | _ => topic end)
      | [] =>
        let* research_brief := research_topic topic in
        ret (research_brief, topic)
      end in
    let* script := generate_script topic research_brief tone in
    let* clip_paths := generate_voice_clips script job_id in
    let* jingle_path := generate_jingle topic job_id in
    let* final_path := stitch_podcast clip_paths jingle_path job_id in
    let* audio_url :=
      (fun w => (Ok (if path_exists w final_path
                     then Some (lit "/output/" ++ job_id ++ lit "/podcast.mp3")
                     else None), w)) in
    JSONResponse
      (mkPayload job_id topic tone script (brief_preview research_brief) audio_url
         (match clip_paths with [] => false | _ => true end)
         (length clip_paths))
  end.

End App.

(** ** Concrete environments used to exercise the model *)

Module Fixtures.

Definition ascii_lower (s : str) : str :=
  map (fun c => if (65 <=? c) && (c <=? 90) then c + 32 else c) s.

(** An answer whose body is the JSON text [s], written with apostrophes
    for its double quotes. *)
Definition json_answer (s : string) : Response :=
  mkResponse true (jlit s) [] (json_loads (jlit s)).

(** An answer whose body is the page [s], which is no JSON. *)
Definition page_answer (s : string) : Response :=
  mkResponse true (lit s) [] None.

(** An empty world: no file, no directory, nothing sent. *)
Definition w0 : World := mkWorld ∅ ∅ [] 0.

Definition id3 : bytes := ["I"%byte; "D"%byte; "3"%byte].

(** Every service is unreachable and no credential is configured; the
    operating system and the encoder work. *)
Definition env_offline : Env :=
  mkEnv [] [] [] (lit "21m00Tcm4TlvDq8ikWAM") (lit "AZnzlk1XvdvUeBnXmlld")
    (fun _ _ => HttpFails) (fun _ => false) (fun _ => None) (fun _ => Some id3)
    (fun _ => []) ascii_lower (fun _ => []) (lit "1b4e28ba-2fa1-11d2-883f-0016d3cca427").

Definition body_black_holes : json :=
  JObject [(lit "topic", JString (lit "black holes"))].

Definition body_blank_topic : json :=
  JObject [(lit "topic", JString (lit " "))].

Definition body_null_url : json :=
  JObject [(lit "topic", JString (lit "black holes")); (lit "url", JNull)].

(** A topic that holds a high surrogate, U+D83D, without its low one, as
    a JSON escape of that code point alone is read. *)
Definition body_surrogate_topic : json :=
  JObject [(lit "topic", JString [55357])].

(** The same as [env_offline], but the operating system refuses every
    path. *)
Definition env_read_only : Env :=
  mkEnv [] [] [] (lit "21m00Tcm4TlvDq8ikWAM") (lit "AZnzlk1XvdvUeBnXmlld")
    (fun _ _ => HttpFails) (fun _ => true) (fun _ => None) (fun _ => Some id3)
    (fun _ => []) ascii_lower (fun _ => []) (lit "1b4e28ba-2fa1-11d2-883f-0016d3cca427").

(** The title search answers with no match, and every page fetched is
    made of a script element only. *)
Definition env_no_match : Env :=
  mkEnv [] [] [] (lit "21m00Tcm4TlvDq8ikWAM") (lit "AZnzlk1XvdvUeBnXmlld")
    (fun _ req =>
       if str_eqb (req_url req) wiki_api
       then HttpReturns (json_answer "['black holes', [], [], []]")
       else HttpReturns (page_answer "<script>var x = 1;</script>"))
    (fun _ => false) (fun _ => None) (fun _ => Some id3)
    (fun _ => [NTag (lit "script") [NText (lit "var x = 1;")]])
    ascii_lower (fun _ => []) (lit "1b4e28ba-2fa1-11d2-883f-0016d3cca427").

Definition job0 : str := lit "1b4e28ba".

Definition audio_response : Response := mkResponse true [] id3 None.

(** Speech synthesis is configured and answers every request. *)
Definition env_voice : Env :=
  mkEnv [] [] (lit "xi-key") (lit "21m00Tcm4TlvDq8ikWAM") (lit "AZnzlk1XvdvUeBnXmlld")
    (fun _ _ => HttpReturns audio_response)
    (fun _ => false) (fun _ => Some 1500) (fun _ => Some id3)
    (fun _ => []) ascii_lower (fun _ => []) (lit "1b4e28ba-2fa1-11d2-883f-0016d3cca427").

(** The same, but the third request (after two were sent) fails. *)
Definition env_voice_third_fails : Env :=
  mkEnv [] [] (lit "xi-key") (lit "21m00Tcm4TlvDq8ikWAM") (lit "AZnzlk1XvdvUeBnXmlld")
    (fun hist _ => if (length hist =? 2)%nat then HttpFails else HttpReturns audio_response)
    (fun _ => false) (fun _ => Some 1500) (fun _ => Some id3)
    (fun _ => []) ascii_lower (fun _ => []) (lit "1b4e28ba-2fa1-11d2-883f-0016d3cca427").

Definition five_lines : list json :=
  [dialogue (lit "Alex") (lit "Hello!");
   dialogue (lit "Sam") (lit "Hi Alex.");
   dialogue (lit "Alex") (lit "What is new?");
   dialogue (lit "Sam") (lit "Plenty.");
   dialogue (lit "Alex") (lit "Bye!")].

Definition narrator_line : json := dialogue (lit "Narrator") (lit "Meanwhile...").

(** A script of 1001 lines, every one of them synthesized. *)
Definition long_script : list json := repeat (dialogue (lit "Sam") (lit "Hi.")) 1001.

(** Its clips: one per position, 0 to 1000. *)
Definition long_clips : list Path :=
  map (fun i => path_div (clips_dir_of job0) (clip_name i (lit "sam"))) (seq 0 1001).

(** The world once the clips directory of [job0] exists. *)
Definition w_clips : World := snd (mkdir_p env_voice (clips_dir_of job0) w0).

(** The music service accepts the task and reports it as running for
    ever. *)
Definition env_jingle_pending : Env :=
  mkEnv (lit "mm-key") (lit "group-1") [] (lit "21m00Tcm4TlvDq8ikWAM") (lit "AZnzlk1XvdvUeBnXmlld")
    (fun _ req =>
       match req_method req with
       | POST => HttpReturns (json_answer "{'task_id': 't-1'}")
       | GET => HttpReturns (json_answer "{'status': 'Processing'}")
       end)
    (fun _ => false) (fun _ => Some 1500) (fun _ => Some id3)
    (fun _ => []) ascii_lower (fun _ => []) (lit "1b4e28ba-2fa1-11d2-883f-0016d3cca427").

Definition jingle_url : str := lit "https://cdn.example.com/jingle.mp3".

(** The music service reports success at the first poll and serves the
    audio. *)
Definition env_jingle_success : Env :=
  mkEnv (lit "mm-key") (lit "group-1") [] (lit "21m00Tcm4TlvDq8ikWAM") (lit "AZnzlk1XvdvUeBnXmlld")
    (fun _ req =>
       match req_method req with
       | POST => HttpReturns (json_answer "{'task_id': 't-1'}")
       | GET =>
         if str_eqb (req_url req) jingle_url then HttpReturns audio_response
         else HttpReturns (json_answer
                "{'status': 'Success', 'file': {'download_url': 'https://cdn.example.com/jingle.mp3'}}")
       end)
    (fun _ => false) (fun _ => Some 1500) (fun _ => Some id3)
    (fun _ => []) ascii_lower (fun _ => []) (lit "1b4e28ba-2fa1-11d2-883f-0016d3cca427").

(** The world once the directory of [job0] exists. *)
Definition w_job : World := snd (mkdir_p env_offline (path_div OUTPUT_DIR job0) w0).

Definition two_lines : list json :=
  [dialogue (lit "Alex") (lit "Hello!"); dialogue (lit "Sam") (lit "Hi Alex.")].

(** Two clips of 1500 ms each, and the world that holds them. *)
Definition two_clips : list Path :=
  [path_div (clips_dir_of job0) (lit "000_alex.mp3");
   path_div (clips_dir_of job0) (lit "001_sam.mp3")].

Definition w_two_clips : World :=
  snd (generate_voice_clips env_voice (JArray two_lines) job0 w0).

(** The data of the clips of a segment, in the order they are played. *)
Fixpoint played (a : AudioSegment) : bytes :=
  match a with
  | Mp3 data _ => data
  | Append a b | Overlay a b => played a ++ played b
  | ApplyGain _ a | FadeIn _ a | FadeOut _ a | SliceTo _ a | Normalize a => played a
  | _ => []
  end.

(** No service is configured; every byte string decodes, to one second
    per byte, and the encoder keeps the data of the clips in playing
    order. *)
Definition env_keep_order : Env :=
  mkEnv [] [] [] (lit "21m00Tcm4TlvDq8ikWAM") (lit "AZnzlk1XvdvUeBnXmlld")
    (fun _ _ => HttpFails) (fun _ => false)
    (fun d => Some (1000 * N.of_nat (length d))) (fun a => Some (played a))
    (fun _ => []) ascii_lower (fun _ => []) (lit "1b4e28ba-2fa1-11d2-883f-0016d3cca427").

(** The clips of the positions 999 and 1000, and a world that holds
    them. *)
Definition clip_999 : Path := path_div (clips_dir_of job0) (clip_name 999 (lit "sam")).
Definition clip_1000 : Path := path_div (clips_dir_of job0) (clip_name 1000 (lit "sam")).

Definition w_late_clips : World :=
  mkWorld (<[clip_999 := ["a"%byte]]> (<[clip_1000 := ["b"%byte]]> ∅))
          (dirs w_clips) [] 0.

(** The text-generation service answers with a script whose only line
    has no speaker; speech synthesis is configured. *)
Definition env_line_without_speaker : Env :=
  mkEnv (lit "mm-key") [] (lit "xi-key") (lit "21m00Tcm4TlvDq8ikWAM") (lit "AZnzlk1XvdvUeBnXmlld")
    (fun _ req =>
       match req_method req with
       | POST => HttpReturns (json_answer
                   "{'choices': [{'message': {'content': '[{\'text\': \'Hello\'}]'}}]}")
       | GET => HttpFails
       end)
    (fun _ => false) (fun _ => Some 1500) (fun _ => Some id3)
    (fun _ => []) ascii_lower (fun _ => []) (lit "1b4e28ba-2fa1-11d2-883f-0016d3cca427").

(** The answer of the text-generation service that carries the
    completion [c]. *)
Definition completion_data (c : string) : json :=
  JObject [(lit "choices",
            JArray [JObject [(lit "message",
                              JObject [(lit "content", JString (jlit c))])]])].

Definition completion_answer (c : string) : Response :=
  mkResponse true [] [] (Some (completion_data c)).

(** The text-generation service answers with the completion [c]; no
    other service is configured. *)
Definition env_completion (c : string) : Env :=
  mkEnv (lit "mm-key") [] [] (lit "21m00Tcm4TlvDq8ikWAM") (lit "AZnzlk1XvdvUeBnXmlld")
    (fun _ req =>
       match req_method req with
       | POST => HttpReturns (completion_answer c)
       | GET => HttpFails
       end)
    (fun _ => false) (fun _ => Some 1500) (fun _ => Some id3)
    (fun _ => []) ascii_lower (fun _ => []) (lit "1b4e28ba-2fa1-11d2-883f-0016d3cca427").

(** Speech synthesis answers every request, with data that is no MP3. *)
Definition env_voice_not_mp3 : Env :=
  mkEnv [] [] (lit "xi-key") (lit "21m00Tcm4TlvDq8ikWAM") (lit "AZnzlk1XvdvUeBnXmlld")
    (fun _ _ => HttpReturns audio_response)
    (fun _ => false) (fun _ => None) (fun _ => Some id3)
    (fun _ => []) ascii_lower (fun _ => []) (lit "1b4e28ba-2fa1-11d2-883f-0016d3cca427").

End Fixtures.

(** ** Predicates used in the statements *)

(** The four shapes a topic brief can take. *)
Definition topic_brief_shape (E : Env) (topic brief : str) : Prop :=
  brief = no_article_brief topic \/
  brief = empty_extract_brief topic \/
  brief = lookup_failed_brief topic \/
  exists title extract, extract <> [] /\
    brief = lit "Wikipedia — " ++ fmt E title ++ nl ++ nl ++ extract.

(** The text-generation service answered and its answer was parsed into
    the script [s]. *)
Definition script_service_answer (E : Env) (w : World)
    (topic research_brief tone : str) (s : json) : Prop :=
  MINIMAX_API_KEY E <> [] /\
  exists resp data content,
    http E (sent w) (script_request E topic research_brief tone) = HttpReturns resp /\
    status_ok resp = true /\
    body_json resp = Some data /\
    completion_content data = Ok (JString content) /\
    _parse_script_json content = Ok s.

(** The completion as the parser reads it: stripped, and without its
    fences when it opens with one. *)
Definition unfenced (text : str) : str :=
  let t := strip text in
  if startswith fence t then sub_close_fence (sub_open_fence t) else t.

(** A line of the two documented roles with something to say. *)
Definition role_line (line : json) : Prop :=
  exists speaker said,
    line = dialogue speaker said /\ said <> [] /\
    (speaker = lit "Alex" \/ speaker = lit "Sam").

(** The speaker and the text a dialogue line carries. *)
Definition line_fields (line speaker said : json) : Prop :=
  py_getitem_str line (lit "speaker") = Ok speaker /\
  py_getitem_str line (lit "text") = Ok said.

Definition well_formed_line (line : json) : Prop :=
  exists speaker said, line_fields line speaker said.

(** The synthesis request made for a line. *)
Definition line_request (E : Env) (line : json) : option Request :=
  match py_getitem_str line (lit "speaker"), py_getitem_str line (lit "text") with
  | Ok speaker, Ok said => Some (tts_request E (select_voice E speaker) said)
  | _, _ => None
  end.

(** The file a line at position [i] is saved to. *)
Definition line_clip_path (E : Env) (clips_dir : Path) (i : nat) (line : json)
    : option Path :=
  match py_getitem_str line (lit "speaker") with
  | Ok (JString s) => Some (path_div clips_dir (clip_name i (str_lower E s)))
  | _ => None
  end.

(** The operating system lets [p] be written in world [w]. *)
Definition writable (E : Env) (w : World) (p : Path) : Prop :=
  os_fault E p = false /\ is_dir w (parent p) = true /\ is_dir w p = false.

(** The same, as a test. *)
Definition can_write (E : Env) (w : World) (p : Path) : bool :=
  negb (os_fault E p) && is_dir w (parent p) && negb (is_dir w p).

(** A clip on disk: the position of its line, its file and its data. *)
Record Clip : Type := mkClip {
  position : nat;
  clip_file : Path;
  clip_data : bytes
}.

(** What the line at position [i] leaves behind when the requests of
    [history] were sent before its own: its clip, named after [i], when
    its request is answered without error status and the file can be
    written; nothing otherwise.  No other line has a say in it. *)
Definition saved_clip (E : Env) (w : World) (clips_dir : Path)
    (history : list Request) (i : nat) (line : json) : option Clip :=
  match py_getitem_str line (lit "speaker"), py_getitem_str line (lit "text") with
  | Ok (JString s), Ok said =>
    match http E history (tts_request E (select_voice E (JString s)) said) with
    | HttpReturns resp =>
      let p := path_div clips_dir (clip_name i (str_lower E s)) in
      if status_ok resp && can_write E w p then Some (mkClip i p (content resp))
      else None
    | HttpFails => None
    end
  | _, _ => None
  end.

(** The clips of a script, position by position: the request of a line
    comes after those of the lines before it, whatever became of them. *)
Definition saved_clips (E : Env) (w : World) (clips_dir : Path) (lines : list json)
    : list Clip :=
  omap (fun i =>
          match lines !! i with
          | Some line =>
            saved_clip E w clips_dir
              (sent w ++ omap (line_request E) (take i lines)) i line
          | None => None
          end)
       (seq 0 (length lines)).

(** The files once the clips are written, in order. *)
Definition with_clips (f : gmap Path bytes) (clips : list Clip) : gmap Path bytes :=
  fold_left (fun f c => <[clip_file c := clip_data c]> f) clips f.

(** The clips that survive a run of the loop, each with the position of
    its line. *)
Definition survivors_of (E : Env) (clips_dir : Path) (lines : list json) (i : nat)
    (survivors : list (nat * Path)) : Prop :=
  StronglySorted lt (map fst survivors) /\
  Forall (fun jp => (i <= fst jp)%nat /\
            exists line, lines !! (fst jp - i)%nat = Some line /\
                         line_clip_path E clips_dir (fst jp) line = Some (snd jp))
         survivors.

(** A clip path carries the three digits of its position at the head of
    its file name. *)
Definition indexed (clips_dir : Path) (i : nat) (p : Path) : Prop :=
  exists x rest, p = clips_dir ++ (fmt_03d i ++ 95 :: x) :: rest.

(** Every string of the list is below the ones after it. *)
Fixpoint ascending (l : list str) : bool :=
  match l with
  | [] => true
  | x :: r => forallb (str_ltb x) r && ascending r
  end.

(** The status a poll is answered with, when the answer is well-formed. *)
Definition poll_status (resp : Response) (status_data status : json) : Prop :=
  status_ok resp = true /\
  body_json resp = Some status_data /\
  py_get status_data (lit "status") JNull = Ok status.

(** The task is still running: neither success nor failure is reported. *)
Definition pending_answer (resp : Response) : Prop :=
  exists status_data status,
    poll_status resp status_data status /\
    py_eq_str status (lit "Success") = false /\
    py_eq_str status (lit "Failed") = false.

Definition failed_answer (resp : Response) : Prop :=
  exists status_data status,
    poll_status resp status_data status /\
    py_eq_str status (lit "Success") = false /\
    py_eq_str status (lit "Failed") = true.

(** Success, with the reference [u] to download the audio from. *)
Definition success_answer (resp : Response) (u : str) : Prop :=
  exists status_data status file,
    poll_status resp status_data status /\
    py_eq_str status (lit "Success") = true /\
    py_get status_data (lit "file") (JObject []) = Ok file /\
    py_get file (lit "download_url") JNull = Ok (JString u) /\
    u <> [].

(** The submission was accepted and answered with the task handle. *)
Definition task_submitted (E : Env) (w : World) (task_id : json) : Prop :=
  MINIMAX_API_KEY E <> [] /\ MINIMAX_GROUP_ID E <> [] /\
  exists resp task_data,
    http E (sent w) (submit_request E) = HttpReturns resp /\
    status_ok resp = true /\
    body_json resp = Some task_data /\
    py_contains_str (lit "task_id") task_data = Ok true /\
    py_getitem_str task_data (lit "task_id") = Ok task_id.

(** The world after one more wait of two seconds and one more poll. *)
Definition polled (E : Env) (task_id : json) (w : World) : World :=
  mkWorld (files w) (dirs w) (sent w ++ [query_request E task_id]) (slept w + 2).

(** The requests sent once the task is submitted and [i] polls are made. *)
Definition poll_history (E : Env) (w : World) (task_id : json) (i : nat)
    : list Request :=
  sent w ++ submit_request E :: repeat (query_request E task_id) i.

(** The clip decoded from the file at [p]. *)
Definition decode_clip (E : Env) (w : World) (p : Path) : option AudioSegment :=
  match files w !! p with
  | Some d => match mp3_length E d with
              | Some ms => Some (Mp3 d ms)
              | None => None
              end
  | None => None
  end.

(** Its length in milliseconds. *)
Definition duration (E : Env) (w : World) (p : Path) : N :=
  match decode_clip E w p with
  | Some clip => len clip
  | None => 0
  end.

(** The conversation track: each clip followed by 400 ms of silence. *)
Definition conversation (clips : list AudioSegment) : AudioSegment :=
  fold_left (fun podcast clip => Append podcast (Append clip (Silent 400))) clips Empty.

(** Intro, conversation and outro when there is no jingle. *)
Definition master_without_jingle (chime : AudioSegment) (clips : list AudioSegment)
    : AudioSegment :=
  Normalize (Append (Append (Append chime (Silent 1000)) (conversation clips))
                    (Append (Silent 800) chime)).

Definition sum_N (l : list N) : N := foldr N.add 0 l.

(** The bell as the design document words it: the three tones mixed into
    one, then faded out. *)
Definition mixed_bell : AudioSegment :=
  FadeOut 600
    (Overlay (Overlay (ApplyGain (-6) (SineTone 659 800))
                      (ApplyGain (-12) (SineTone 1318 800)))
             (ApplyGain (-15) (SineTone 1977 800))).

(** The fields of a submission, stripped: topic, url and tone. *)
Definition submitted (body : json) (t u n : str) : Prop :=
  exists t0 u0 n0,
    py_get body (lit "topic") (JString []) = Ok (JString t0) /\
    py_get body (lit "url") (JString []) = Ok (JString u0) /\
    py_get body (lit "tone") (JString (lit "casual")) = Ok (JString n0) /\
    t = strip t0 /\ u = strip u0 /\ n = strip n0.

(** The topic the job runs with. *)
Definition resolved_topic (t u : str) : str :=
  match u, t with
  | _ :: _, [] => lit "Article from " ++ u
  | _, _ => t
  end.

(** The research stage: the url takes precedence over the topic. *)
Definition research (E : Env) (t u : str) : M str :=
  match u with
  | _ :: _ => research_url E u
  | [] => research_topic E t
  end.

Definition audio_reference (job : str) : str :=
  lit "/output/" ++ job ++ lit "/podcast.mp3".

Definition job_of (E : Env) : str := take 8 (uuid4 E).

(** The stages in sequence, for a submission that is not rejected. *)
Definition pipeline (E : Env) (t u n : str) : M Payload :=
  let job := job_of E in
  let topic := resolved_topic t u in
  mkdir_p E (path_div OUTPUT_DIR job);;
  let* brief := research E t u in
  let* script := generate_script E topic brief n in
  let* clip_paths := generate_voice_clips E script job in
  let* jingle_path := generate_jingle E topic job in
  let* final_path := stitch_podcast E clip_paths jingle_path job in
  let* audio_url :=
    (fun w => (Ok (if path_exists w final_path then Some (audio_reference job)
                   else None), w)) in
  JSONResponse
    (mkPayload job topic n script (brief_preview brief) audio_url
       (match clip_paths with [] => false | _ => true end)
       (length clip_paths)).

(** Some string of the payload holds a surrogate code point. *)
Definition payload_surrogate (p : Payload) : bool :=
  has_surrogate (job_id p) || has_surrogate (topic p) || has_surrogate (tone p)
  || json_surrogate (script p) || has_surrogate (research_brief p)
  || match audio_url p with Some u => has_surrogate u | None => false end.

(** The computation raises no [HTTPException]. *)
Definition no_http {A} (c : M A) : Prop :=
  forall w e w', c w = (Raise e, w') -> forall status detail, e <> HTTPException status detail.

(** * Verified properties *)

(** ** The monad *)

Lemma try_except_ok {A} (body : M A) (handler : exn -> M A) (w : World) :
  (forall e w1, exists a w2, handler e w1 = (Ok a, w2)) ->
  exists a w', try_except body handler w = (Ok a, w').
Proof.
  intros Hh. unfold try_except.
  destruct (body w) as [[a|e] w1]; eauto.
Qed.

Lemma try_except_post {A} (P : A -> Prop) (body : M A) (handler : exn -> M A) w a w' :
  try_except body handler w = (Ok a, w') ->
  (forall w1, body w = (Ok a, w1) -> P a) ->
  (forall e w1, handler e w1 = (Ok a, w') -> P a) ->
  P a.
Proof.
  unfold try_except. intros H Hb Hh.
  destruct (body w) as [[b|e] w1] eqn:Eb.
  - inversion H; subst. eauto.
  - eauto.
Qed.

Lemma bind_ok_inv {A B} (c : M A) (k : A -> M B) w b w' :
  bind c k w = (Ok b, w') ->
  exists a w1, c w = (Ok a, w1) /\ k a w1 = (Ok b, w').
Proof.
  unfold bind. destruct (c w) as [[a|e] w1]; intros H; [eauto | discriminate].
Qed.

Lemma lit_cons_app (c : N) (p x : str) : (c :: p) ++ x <> [].
Proof. discriminate. Qed.


(** Literals are not empty. *)
Ltac lit_nonempty :=
  match goal with
  | |- lit ?s ++ _ <> [] =>
    let H := fresh in
    destruct (lit s) eqn:H; [vm_compute in H; discriminate | discriminate]
  | |- lit ?s <> [] =>
    let H := fresh in
    destruct (lit s) eqn:H; [vm_compute in H; discriminate | discriminate]
  end.

(** ** Writing files *)

Lemma write_bytes_ok E w p data :
  writable E w p ->
  write_bytes E p data w = (Ok tt, set_files w (<[p := data]> (files w))).
Proof.
  intros (Hf & Hp & Hd). unfold write_bytes. rewrite Hf, Hp, Hd. reflexivity.
Qed.

Lemma write_bytes_inv E w p data r w' :
  write_bytes E p data w = (r, w') ->
  sent w' = sent w /\ dirs w' = dirs w /\ slept w' = slept w /\
  (r = Raise OSError /\ w' = w \/
   r = Ok tt /\ writable E w p /\ files w' = <[p := data]> (files w)).
Proof.
  unfold write_bytes, writable.
  destruct (os_fault E p); cbn [orb].
  { intros [= <- <-]. repeat (split; [reflexivity|]). left. split; reflexivity. }
  destruct (is_dir w (parent p)); cbn [negb orb].
  2:{ intros [= <- <-]. repeat (split; [reflexivity|]). left. split; reflexivity. }
  destruct (is_dir w p).
  { intros [= <- <-]. repeat (split; [reflexivity|]). left. split; reflexivity. }
  intros [= <- <-]. repeat (split; [reflexivity|]). right.
  repeat split; reflexivity.
Qed.


Lemma omap_cons_Some {A B} (f : A -> option B) x y l :
  f x = Some y -> omap f (x :: l) = y :: omap f l.
Proof. intros H. cbn. rewrite H. reflexivity. Qed.

(** ** Research (C9) *)

Lemma no_article_brief_nonempty topic : no_article_brief topic <> [].
Proof. unfold no_article_brief. lit_nonempty. Qed.

Lemma empty_extract_brief_nonempty topic : empty_extract_brief topic <> [].
Proof. unfold empty_extract_brief. lit_nonempty. Qed.

Lemma lookup_failed_brief_nonempty topic : lookup_failed_brief topic <> [].
Proof. unfold lookup_failed_brief. lit_nonempty. Qed.

Lemma empty_page_brief_nonempty url : empty_page_brief url <> [].
Proof. unfold empty_page_brief. lit_nonempty. Qed.

Lemma scrape_failed_brief_nonempty url : scrape_failed_brief url <> [].
Proof. unfold scrape_failed_brief. lit_nonempty. Qed.

Lemma research_topic_shape E topic w :
  exists brief w', research_topic E topic w = (Ok brief, w') /\
                   topic_brief_shape E topic brief.
Proof.
  unfold research_topic, try_except, topic_brief_shape.
  match goal with |- context [match ?b w with _ => _ end] => destruct (b w) as [[a|e] w1] eqn:Hb end.
  2:{ unfold ret. eexists _, _. split; [reflexivity|]. right; right; left. reflexivity. }
  exists a, w1. split; [reflexivity|].
  revert Hb. unfold bind.
  destruct (http_send E (search_request topic) w) as [[r|?] wa]; [|discriminate].
  destruct (raise_for_status r wa) as [[?|?] wb]; [|discriminate].
  destruct (resp_json r wb) as [[data|?] wc]; [|discriminate].
  unfold lift at 1.
  destruct (py_getitem_int data 1) as [titles|?]; [|discriminate].
  destruct (truthy titles); cbn [negb].
  2:{ unfold ret. intros H. injection H as <- _. left. reflexivity. }
  unfold lift at 1.
  destruct (py_getitem_int titles 0) as [title|?]; [|discriminate].
  destruct (http_send E (extract_request title) wc) as [[r2|?] wd]; [|discriminate].
  destruct (raise_for_status r2 wd) as [[?|?] we]; [|discriminate].
  destruct (resp_json r2 we) as [[data2|?] wf]; [|discriminate].
  unfold lift.
  destruct (py_get data2 _ _) as [q|?]; [|discriminate].
  destruct (py_get q _ _) as [pages|?]; [|discriminate].
  destruct (py_first_value pages) as [page|?]; [|discriminate].
  destruct (py_get page _ _) as [raw|?]; [|discriminate].
  destruct (py_strip raw) as [[|c ex]|?]; [| |discriminate].
  - unfold ret. intros H. injection H as <- _. right; left. reflexivity.
  - unfold ret. intros H. injection H as <- _. right; right; right.
    exists title, (c :: ex). split; [discriminate | reflexivity].
Qed.

Lemma research_url_shape E url w :
  exists brief w', research_url E url w = (Ok brief, w') /\
    (brief = empty_page_brief url \/ brief = scrape_failed_brief url \/
     exists excerpt, excerpt <> [] /\ brief = lit "Source: " ++ url ++ nl ++ nl ++ excerpt).
Proof.
  unfold research_url, try_except.
  match goal with |- context [match ?b w with _ => _ end] => destruct (b w) as [[a|e] w1] eqn:Hb end.
  2:{ unfold ret. eexists _, _. split; [reflexivity|]. right; left. reflexivity. }
  exists a, w1. split; [reflexivity|].
  revert Hb. unfold bind.
  destruct (http_send E (scrape_request url) w) as [[r|?] wa]; [|discriminate].
  destruct (raise_for_status r wa) as [[?|?] wb]; [|discriminate].
  destruct (page_excerpt E (text r)) as [|c ex] eqn:Hx.
  - unfold ret. intros H. injection H as <- _. left. reflexivity.
  - unfold ret. intros H. injection H as <- _. right; right. exists (c :: ex).
    split; [discriminate | reflexivity].
Qed.

Lemma decompose_forest_noise names ns :
  (forall n, n ∈ ns -> exists name cs, n = NTag name cs /\ name ∈ names) ->
  decompose_forest names ns = [].
Proof.
  unfold decompose_forest. induction ns as [|n ns IH]; intros H; [reflexivity|].
  destruct (H n) as (name & cs & -> & Hin); [left|].
  cbn [map concat decompose_all].
  rewrite bool_decide_eq_true_2 by exact Hin.
  cbn. apply IH. intros m Hm. apply H. right. exact Hm.
Qed.

Lemma page_excerpt_noise E page_text :
  (forall n, n ∈ html_parser E page_text ->
     exists name cs, n = NTag name cs /\ name ∈ noise_tags) ->
  page_excerpt E page_text = [].
Proof.
  intros H. unfold page_excerpt. rewrite decompose_forest_noise by exact H.
  reflexivity.
Qed.

(** C9.  The research stage always returns a non-empty brief.  A topic
    the title search finds nothing for yields the brief made of the
    literal topic and the no-article marker; a page whose excerpt is
    empty after noise stripping (in particular a page made of script and
    style elements only) yields the empty-content marker; a failed
    request yields the fixed lookup-failed or scraping-failed brief, and
    every brief is one of these placeholders or carries the material
    found. *)
Theorem research_never_raises (E : Env) (w : World) :
  (forall topic, exists brief w',
      research_topic E topic w = (Ok brief, w') /\ brief <> [] /\
      topic_brief_shape E topic brief)
  /\ (forall url, exists brief w',
      research_url E url w = (Ok brief, w') /\ brief <> [] /\
      (brief = empty_page_brief url \/ brief = scrape_failed_brief url \/
       exists excerpt, excerpt <> [] /\ brief = lit "Source: " ++ url ++ nl ++ nl ++ excerpt))
  /\ (forall topic resp data titles,
      http E (sent w) (search_request topic) = HttpReturns resp ->
      status_ok resp = true ->
      body_json resp = Some data ->
      py_getitem_int data 1 = Ok titles ->
      truthy titles = false ->
      fst (research_topic E topic w) =
        Ok (lit "Topic: " ++ topic ++
            lit ". (No Wikipedia article found — generate from general knowledge.)"))
  /\ (forall url resp,
      http E (sent w) (scrape_request url) = HttpReturns resp ->
      status_ok resp = true ->
      page_excerpt E (text resp) = [] ->
      fst (research_url E url w) =
        Ok (lit "Article URL: " ++ url ++
            lit ". (Page content was empty — generate from general knowledge.)"))
  /\ (forall page_text,
      (forall n, n ∈ html_parser E page_text ->
         exists name cs, n = NTag name cs /\ name ∈ noise_tags) ->
      page_excerpt E page_text = [])
  /\ (forall topic,
      http E (sent w) (search_request topic) = HttpFails ->
      fst (research_topic E topic w) =
        Ok (lit "Topic: " ++ topic ++
            lit ". (Wikipedia lookup failed — generate from general knowledge.)"))
  /\ (forall url,
      http E (sent w) (scrape_request url) = HttpFails ->
      fst (research_url E url w) =
        Ok (lit "Article URL: " ++ url ++
            lit ". (Scraping failed — generate from general knowledge.)")).
Proof.
  repeat split.
  - intros topic. destruct (research_topic_shape E topic w) as (b & w' & Hr & Hs).
    exists b, w'. repeat split; [exact Hr | | exact Hs].
    destruct Hs as [->|[->|[->|(t & ex & Hne & ->)]]].
    + apply no_article_brief_nonempty.
    + apply empty_extract_brief_nonempty.
    + apply lookup_failed_brief_nonempty.
    + lit_nonempty.
  - intros url. destruct (research_url_shape E url w) as (b & w' & Hr & Hs).
    exists b, w'. repeat split; [exact Hr | | exact Hs].
    destruct Hs as [->|[->|(ex & Hne & ->)]].
    + apply empty_page_brief_nonempty.
    + apply scrape_failed_brief_nonempty.
    + lit_nonempty.
  - intros topic resp data titles Hh Hok Hj Ht Hf.
    unfold research_topic, try_except, bind, http_send. rewrite Hh.
    unfold raise_for_status. rewrite Hok. unfold ret at 1.
    unfold resp_json. rewrite Hj. unfold ret at 1.
    unfold lift at 1. rewrite Ht, Hf. reflexivity.
  - intros url resp Hh Hok Hx.
    unfold research_url, try_except, bind, http_send. rewrite Hh.
    unfold raise_for_status. rewrite Hok. unfold ret at 1.
    rewrite Hx. reflexivity.
  - apply page_excerpt_noise.
  - intros topic Hh. unfold research_topic, try_except, bind, http_send. rewrite Hh.
    reflexivity.
  - intros url Hh. unfold research_url, try_except, bind, http_send. rewrite Hh.
    reflexivity.
Qed.

Lemma research_never_raises_witness :
  fst (research_topic Fixtures.env_no_match (lit "black holes") Fixtures.w0) =
    Ok (lit "Topic: black holes. (No Wikipedia article found — generate from general knowledge.)")
  /\ fst (research_url Fixtures.env_no_match (lit "https://example.com/a") Fixtures.w0) =
    Ok (lit "Article URL: https://example.com/a. (Page content was empty — generate from general knowledge.)")
  /\ fst (research_topic Fixtures.env_offline (lit "black holes") Fixtures.w0) =
    Ok (lit "Topic: black holes. (Wikipedia lookup failed — generate from general knowledge.)").
Proof.
  pose proof (research_never_raises Fixtures.env_no_match Fixtures.w0)
    as (_ & _ & H3 & H4 & _).
  pose proof (research_never_raises Fixtures.env_offline Fixtures.w0)
    as (_ & _ & _ & _ & _ & H6 & _).
  split; [|split].
  - rewrite (H3 (lit "black holes") (Fixtures.json_answer "['black holes', [], [], []]")
               (JArray [JString (lit "black holes"); JArray []; JArray []; JArray []])
               (JArray [])); vm_compute; reflexivity.
  - rewrite (H4 (lit "https://example.com/a")
               (Fixtures.page_answer "<script>var x = 1;</script>"));
      vm_compute; reflexivity.
  - rewrite (H6 (lit "black holes")); vm_compute; reflexivity.
Defined.

(** ** Parsing the completion (C8) *)

(** *** The scanner *)

Lemma parse_array_is_array f : forall s acc v r,
  parse_array f s acc = Some (v, r) -> exists l, v = JArray l.
Proof.
  induction f as [|k IH]; intros s acc v r H; [discriminate|].
  cbn [parse_array] in H.
  destruct (parse_value k s) as [[v1 r1]|]; [|discriminate].
  destruct (skip_ws r1) as [|c r']; [discriminate|].
  destruct (c =? 93); [injection H as <- _; eauto|].
  destruct (c =? 44); [eauto | discriminate].
Qed.

Lemma parse_object_is_object f : forall s acc v r,
  parse_object f s acc = Some (v, r) -> exists d, v = JObject d.
Proof.
  induction f as [|k IH]; intros s acc v r H; [discriminate|].
  cbn [parse_object] in H.
  destruct s as [|q r0]; [discriminate|].
  destruct (negb (q =? 34)); [discriminate|].
  destruct (scan_string _ r0 []) as [[key r1]|]; [|discriminate].
  destruct (skip_ws r1) as [|colon r2]; [discriminate|].
  destruct (negb (colon =? 58)); [discriminate|].
  destruct (parse_value k (skip_ws r2)) as [[v1 r3]|]; [|discriminate].
  destruct (skip_ws r3) as [|c r']; [discriminate|].
  destruct (c =? 125); [injection H as <- _; eauto|].
  destruct (c =? 44); [eauto | discriminate].
Qed.

Lemma scan_number_not_array s l r : scan_number s <> Some (JArray l, r).
Proof.
  unfold scan_number.
  destruct (match s with
            | [] => (false, s)
            | c :: r0 => if c =? 45 then (true, r0) else (false, s)
            end) as [neg s1].
  destruct s1 as [|d r1]; [discriminate|].
  destruct (negb (is_digit d)); [discriminate|].
  destruct (if d =? 48 then ([d], r1) else span_digits (d :: r1)) as [ip r2].
  destruct (scan_fraction r2) as [fp r3].
  destruct (scan_exponent r3) as [ep r4].
  destruct fp, ep; discriminate.
Qed.

(** Only a text that starts with an opening bracket is read as an array. *)
Lemma parse_value_array_head f s l r :
  parse_value f s = Some (JArray l, r) -> exists s', s = 91 :: s'.
Proof.
  destruct f as [|k]; [discriminate|]. cbn [parse_value].
  destruct s as [|c s']; [discriminate|].
  destruct (c =? 34).
  { destruct (scan_string _ s' []) as [[t r']|]; discriminate. }
  destruct (c =? 123).
  { destruct (skip_ws s') as [|c' r']; [discriminate|].
    destruct (c' =? 125); [discriminate|].
    intros H. apply parse_object_is_object in H as [d Hd]. discriminate. }
  destruct (N.eqb_spec c 91) as [->|_]; [eauto|].
  repeat match goal with
         | |- (if ?b then _ else _) = _ -> _ => destruct b; [discriminate|]
         end.
  intros H. exfalso. eapply scan_number_not_array. exact H.
Qed.

(** More fuel does not change an answer. *)
Lemma parse_fuel_mono f :
  (forall s x f', parse_value f s = Some x -> (f <= f')%nat -> parse_value f' s = Some x)
  /\ (forall s acc x f', parse_array f s acc = Some x -> (f <= f')%nat ->
        parse_array f' s acc = Some x)
  /\ (forall s acc x f', parse_object f s acc = Some x -> (f <= f')%nat ->
        parse_object f' s acc = Some x).
Proof.
  induction f as [|k (IHv & IHa & IHo)].
  { repeat split; intros; discriminate. }
  repeat split.
  - intros s x f' H Hle. destruct f' as [|k']; [lia|].
    cbn [parse_value] in H |- *.
    destruct s as [|c r]; [discriminate|].
    destruct (c =? 34); [exact H|].
    destruct (c =? 123).
    { destruct (skip_ws r) as [|c' r']; [discriminate|].
      destruct (c' =? 125); [exact H|]. apply (IHo _ _ _ _ H). lia. }
    destruct (c =? 91); [|exact H].
    destruct (skip_ws r) as [|c' r']; [discriminate|].
    destruct (c' =? 93); [exact H|]. apply (IHa _ _ _ _ H). lia.
  - intros s acc x f' H Hle. destruct f' as [|k']; [lia|].
    cbn [parse_array] in H |- *.
    destruct (parse_value k s) as [[v r]|] eqn:Hv; [|discriminate].
    rewrite (IHv _ _ k' Hv) by lia.
    destruct (skip_ws r) as [|c r']; [discriminate|].
    destruct (c =? 93); [exact H|].
    destruct (c =? 44); [|discriminate]. apply (IHa _ _ _ _ H). lia.
  - intros s acc x f' H Hle. destruct f' as [|k']; [lia|].
    cbn [parse_object] in H |- *.
    destruct s as [|q r0]; [discriminate|].
    destruct (negb (q =? 34)); [discriminate|].
    destruct (scan_string _ r0 []) as [[key r1]|]; [|discriminate].
    destruct (skip_ws r1) as [|colon r2]; [discriminate|].
    destruct (negb (colon =? 58)); [discriminate|].
    destruct (parse_value k (skip_ws r2)) as [[v r3]|] eqn:Hv; [|discriminate].
    rewrite (IHv _ _ k' Hv) by lia.
    destruct (skip_ws r3) as [|c r']; [discriminate|].
    destruct (c =? 125); [exact H|].
    destruct (c =? 44); [|discriminate]. apply (IHo _ _ _ _ H). lia.
Qed.

(** *** Fuel *)

Lemma skip_ws_length s : (length (skip_ws s) <= length s)%nat.
Proof.
  induction s as [|c s IH]; cbn [skip_ws]; [reflexivity|].
  destruct (is_json_ws c); cbn [length]; lia.
Qed.

Lemma hex4_length s u r : hex4 s = Some (u, r) -> length s = (4 + length r)%nat.
Proof.
  unfold hex4. destruct s as [|a [|b [|c [|d r']]]]; try discriminate.
  destruct (hexval a), (hexval b), (hexval c), (hexval d); try discriminate.
  intros [= _ <-]. reflexivity.
Qed.

(** A string literal ends after its opening position. *)
Lemma scan_string_length f : forall s acc t r,
  scan_string f s acc = Some (t, r) -> (length r < length s)%nat.
Proof.
  induction f as [|k IH]; intros s acc t r H; [discriminate|].
  cbn [scan_string] in H.
  destruct s as [|c s']; [discriminate|]. cbn [length].
  destruct (c =? 34); [injection H as _ <-; lia|].
  destruct (c =? 92).
  - destruct s' as [|e r1]; [discriminate|]. cbn [length].
    destruct (e =? 117).
    + destruct (hex4 r1) as [[u r2]|] eqn:Hu; [|discriminate].
      apply hex4_length in Hu.
      destruct (is_high_surrogate u && (6 <? length r2)%nat && startswith [92; 117] r2).
      * destruct (hex4 (drop 2 r2)) as [[u2 r3]|] eqn:Hu2; [|discriminate].
        apply hex4_length in Hu2. rewrite length_drop in Hu2.
        destruct (is_low_surrogate u2); apply IH in H; lia.
      * apply IH in H. lia.
    + destruct (simple_escape e); [|discriminate]. apply IH in H. lia.
  - destruct (c <? 32); [discriminate|]. apply IH in H. lia.
Qed.

Lemma span_digits_length s : forall ds r,
  span_digits s = (ds, r) -> length s = (length ds + length r)%nat.
Proof.
  induction s as [|c s IH]; intros ds r; cbn [span_digits].
  - intros [= <- <-]. reflexivity.
  - destruct (is_digit c).
    + destruct (span_digits s) as [ds' r'].
      intros [= <- <-]. cbn [length]. rewrite (IH ds' r' eq_refl). reflexivity.
    + intros [= <- <-]. reflexivity.
Qed.

Lemma scan_fraction_length s fp r :
  scan_fraction s = (fp, r) -> (length r <= length s)%nat.
Proof.
  unfold scan_fraction. destruct s as [|dot s']; [intros [= _ <-]; reflexivity|].
  destruct (dot =? 46); [|intros [= _ <-]; reflexivity].
  destruct (span_digits s') as [ds r'] eqn:Hs. apply span_digits_length in Hs.
  destruct ds; intros [= _ <-]; cbn [length] in *; lia.
Qed.

Lemma scan_exponent_length s ep r :
  scan_exponent s = (ep, r) -> (length r <= length s)%nat.
Proof.
  unfold scan_exponent. destruct s as [|e s']; [intros [= _ <-]; reflexivity|].
  destruct ((e =? 101) || (e =? 69)); [|intros [= _ <-]; reflexivity].
  destruct (match s' with
            | [] => (false, s')
            | sg :: t => if sg =? 45 then (true, t)
                         else if sg =? 43 then (false, t) else (false, s')
            end) as [eneg r1] eqn:Hsg.
  assert (Hr1 : (length r1 <= length s')%nat).
  { destruct s' as [|sg t]; [injection Hsg as _ <-; reflexivity|].
    destruct (sg =? 45); [injection Hsg as _ <-; cbn [length]; lia|].
    destruct (sg =? 43); injection Hsg as _ <-; cbn [length]; lia. }
  destruct (span_digits r1) as [ds r2] eqn:Hs. apply span_digits_length in Hs.
  destruct ds; intros [= _ <-]; cbn [length] in *; lia.
Qed.

Lemma scan_number_length s v r :
  scan_number s = Some (v, r) -> (length r < length s)%nat.
Proof.
  unfold scan_number.
  destruct (match s with
            | [] => (false, s)
            | c :: r0 => if c =? 45 then (true, r0) else (false, s)
            end) as [neg s1] eqn:Hsg.
  assert (Hs1 : (length s1 <= length s)%nat).
  { destruct s as [|c r0]; [injection Hsg as _ <-; reflexivity|].
    destruct (c =? 45); injection Hsg as _ <-; cbn [length]; lia. }
  destruct s1 as [|d r1]; [discriminate|].
  destruct (negb (is_digit d)) eqn:Hd; [discriminate|].
  destruct (if d =? 48 then ([d], r1) else span_digits (d :: r1)) as [ip r2] eqn:Hip.
  assert (Hr2 : (length r2 < length (d :: r1))%nat).
  { destruct (d =? 48); [injection Hip as _ <-; cbn [length]; lia|].
    cbn [span_digits] in Hip. apply negb_false_iff in Hd. rewrite Hd in Hip.
    destruct (span_digits r1) as [ds r'] eqn:Hs. apply span_digits_length in Hs.
    injection Hip as _ <-. cbn [length]. lia. }
  destruct (scan_fraction r2) as [fp r3] eqn:Hf. apply scan_fraction_length in Hf.
  destruct (scan_exponent r3) as [ep r4] eqn:He. apply scan_exponent_length in He.
  destruct fp, ep; intros [= _ <-]; lia.
Qed.

(** Every answer of the scanner leaves less text than it was given, and
    is found with fuel twice the length of the text (one more for a
    value, two more for the elements of an array or an object). *)
Lemma parse_fuel_bound f :
  (forall s v r, parse_value f s = Some (v, r) ->
     (length r < length s)%nat /\ parse_value (2 * length s + 1) s = Some (v, r))
  /\ (forall s acc v r, parse_array f s acc = Some (v, r) ->
     (length r < length s)%nat /\ parse_array (2 * length s + 2) s acc = Some (v, r))
  /\ (forall s acc v r, parse_object f s acc = Some (v, r) ->
     (length r < length s)%nat /\ parse_object (2 * length s + 2) s acc = Some (v, r)).
Proof.
  induction f as [|k (IHv & IHa & IHo)].
  { repeat split; intros; discriminate. }
  split; [|split].
  - intros s v r H. replace (2 * length s + 1)%nat with (S (2 * length s)) by lia.
    cbn [parse_value] in H |- *.
    destruct s as [|c s']; [discriminate|].
    destruct (c =? 34).
    { split; [|exact H].
      destruct (scan_string _ s' []) as [[t r']|] eqn:Hs; [|discriminate].
      injection H as _ <-. apply scan_string_length in Hs. cbn [length]. lia. }
    destruct (c =? 123).
    { pose proof (skip_ws_length s') as Hws.
      destruct (skip_ws s') as [|c' r']; [discriminate|].
      destruct (c' =? 125).
      - split; [|exact H]. injection H as _ <-. cbn [length] in *. lia.
      - apply IHo in H as [Hlen H]. split; [cbn [length] in *; lia|].
        apply (proj2 (proj2 (parse_fuel_mono _)) _ _ _ _ H).
        cbn [length] in *. lia. }
    destruct (c =? 91).
    { pose proof (skip_ws_length s') as Hws.
      destruct (skip_ws s') as [|c' r']; [discriminate|].
      destruct (c' =? 93).
      - split; [|exact H]. injection H as _ <-. cbn [length] in *. lia.
      - apply IHa in H as [Hlen H]. split; [cbn [length] in *; lia|].
        apply (proj1 (proj2 (parse_fuel_mono _)) _ _ _ _ H).
        cbn [length] in *. lia. }
    split; [|exact H].
    repeat match type of H with
           | (if ?b then _ else _) = _ =>
             destruct b;
             [injection H as _ <-; cbn [length]; rewrite length_drop; cbn [length]; lia|]
           end.
    apply scan_number_length in H. exact H.
  - intros s acc v r H. replace (2 * length s + 2)%nat with (S (2 * length s + 1)) by lia.
    cbn [parse_array] in H |- *.
    destruct (parse_value k s) as [[v1 r1]|] eqn:Hv; [|discriminate].
    apply IHv in Hv as [Hlen1 ->].
    pose proof (skip_ws_length r1) as Hws.
    destruct (skip_ws r1) as [|c r']; [discriminate|].
    destruct (c =? 93).
    { split; [|exact H]. injection H as _ <-. cbn [length] in *. lia. }
    destruct (c =? 44); [|discriminate].
    pose proof (skip_ws_length r') as Hws'.
    apply IHa in H as [Hlen H]. split; [cbn [length] in *; lia|].
    apply (proj1 (proj2 (parse_fuel_mono _)) _ _ _ _ H).
    cbn [length] in *. lia.
  - intros s acc v r H. replace (2 * length s + 2)%nat with (S (2 * length s + 1)) by lia.
    cbn [parse_object] in H |- *.
    destruct s as [|q r0]; [discriminate|].
    destruct (negb (q =? 34)); [discriminate|].
    destruct (scan_string _ r0 []) as [[key r1]|] eqn:Hs; [|discriminate].
    apply scan_string_length in Hs.
    pose proof (skip_ws_length r1) as Hws1.
    destruct (skip_ws r1) as [|colon r2]; [discriminate|].
    destruct (negb (colon =? 58)); [discriminate|].
    pose proof (skip_ws_length r2) as Hws2.
    destruct (parse_value k (skip_ws r2)) as [[v1 r3]|] eqn:Hv; [|discriminate].
    apply IHv in Hv as [Hlen1 Hv].
    rewrite (proj1 (parse_fuel_mono _) _ _ (2 * length (q :: r0) + 1)%nat Hv)
      by (cbn [length] in *; lia).
    pose proof (skip_ws_length r3) as Hws3.
    destruct (skip_ws r3) as [|c r']; [discriminate|].
    destruct (c =? 125).
    { split; [|exact H]. injection H as _ <-. cbn [length] in *. lia. }
    destruct (c =? 44); [|discriminate].
    pose proof (skip_ws_length r') as Hws'.
    apply IHo in H as [Hlen H]. split; [cbn [length] in *; lia|].
    apply (proj2 (proj2 (parse_fuel_mono _)) _ _ _ _ H).
    cbn [length] in *. lia.
Qed.

(** The fuel of [json_loads] is enough: no larger fuel changes what the
    scanner answers, be it a value or a refusal. *)
Lemma json_loads_fuel_enough s f :
  (2 * length s + 2 <= f)%nat ->
  parse_value f (skip_ws s) = parse_value (2 * length s + 2) (skip_ws s).
Proof.
  intros Hf. pose proof (skip_ws_length s) as Hws.
  destruct (parse_value f (skip_ws s)) as [[v r]|] eqn:H.
  - apply (proj1 (parse_fuel_bound f)) in H as [_ H].
    symmetry. apply (proj1 (parse_fuel_mono _) _ _ _ H). lia.
  - destruct (parse_value (2 * length s + 2) (skip_ws s)) as [x|] eqn:H'; [|reflexivity].
    rewrite (proj1 (parse_fuel_mono _) _ _ f H') in H by exact Hf. discriminate.
Qed.

(** The fuel of a string literal is enough as well. *)
Lemma scan_string_fuel f : forall s acc f',
  (length s < f)%nat -> (length s < f')%nat ->
  scan_string f s acc = scan_string f' s acc.
Proof.
  induction f as [|k IH]; intros s acc f' Hf Hf'; [lia|].
  destruct f' as [|k']; [lia|]. cbn [scan_string].
  destruct s as [|c s']; [reflexivity|]. cbn [length] in *.
  destruct (c =? 34); [reflexivity|].
  destruct (c =? 92).
  - destruct s' as [|e r1]; [reflexivity|]. cbn [length] in *.
    destruct (e =? 117).
    + destruct (hex4 r1) as [[u r2]|] eqn:Hu; [|reflexivity].
      apply hex4_length in Hu.
      destruct (is_high_surrogate u && (6 <? length r2)%nat && startswith [92; 117] r2).
      * destruct (hex4 (drop 2 r2)) as [[u2 r3]|] eqn:Hu2; [|reflexivity].
        apply hex4_length in Hu2. rewrite length_drop in Hu2.
        destruct (is_low_surrogate u2); apply IH; lia.
      * apply IH; lia.
    + destruct (simple_escape e); [|reflexivity]. apply IH; lia.
  - destruct (c <? 32); [reflexivity|]. apply IH; lia.
Qed.

(** *** White space and prose *)

Lemma skip_ws_elem c s : c ∈ skip_ws s -> c ∈ s.
Proof.
  induction s as [|d s IH]; cbn [skip_ws]; [trivial|].
  destruct (is_json_ws d); [|trivial]. intros H. right. auto.
Qed.

Lemma skip_ws_prose p r r' :
  91 ∉ p -> skip_ws (p ++ 91 :: r) = 91 :: r' -> skip_ws (p ++ 91 :: r) = 91 :: r.
Proof.
  induction p as [|c p IH]; intros Hp H; [reflexivity|].
  cbn [app skip_ws] in H |- *.
  apply not_elem_of_cons in Hp as [Hc Hp].
  destruct (is_json_ws c); [auto|].
  injection H as -> _. congruence.
Qed.

Lemma json_loads_array_head t l :
  json_loads t = Some (JArray l) -> exists r, skip_ws t = 91 :: r.
Proof.
  unfold json_loads. destruct (startswith [65279] t); [discriminate|].
  destruct (parse_value _ (skip_ws t)) as [[v r]|] eqn:Hv; [|discriminate].
  destruct (skip_ws r); [|discriminate]. intros [= ->].
  eapply parse_value_array_head. exact Hv.
Qed.

Lemma json_loads_no_bracket t l : 91 ∉ t -> json_loads t <> Some (JArray l).
Proof.
  intros Hn H. apply json_loads_array_head in H as [r Hr].
  apply Hn, skip_ws_elem. rewrite Hr. left.
Qed.

(** Prose before an array does not change what the array is read as. *)
Lemma json_loads_prose p arr_tail l l' :
  91 ∉ p ->
  json_loads (91 :: arr_tail) = Some (JArray l) ->
  json_loads (p ++ 91 :: arr_tail) = Some (JArray l') ->
  l' = l.
Proof.
  intros Hp Ha Hb.
  pose proof (json_loads_array_head _ _ Hb) as [r Hr].
  apply (skip_ws_prose _ _ _ Hp) in Hr.
  revert Ha Hb. unfold json_loads. rewrite Hr.
  destruct (startswith [65279] (91 :: arr_tail)); [discriminate|].
  destruct (startswith [65279] (p ++ 91 :: arr_tail)); [discriminate|].
  change (skip_ws (91 :: arr_tail)) with (91 :: arr_tail).
  destruct (parse_value _ (91 :: arr_tail)) as [[v0 r0]|] eqn:H0; [|discriminate].
  destruct (skip_ws r0); [|discriminate]. intros [= ->].
  apply (proj1 (parse_fuel_mono _)) with (f' := (2 * length (p ++ 91%N :: arr_tail) + 2)%nat) in H0.
  2:{ rewrite length_app. lia. }
  rewrite H0. destruct (skip_ws r0); [|discriminate]. congruence.
Qed.

(** *** Strings *)

Lemma startswith_split q : forall p c r,
  startswith q (p ++ c :: r) = true -> c ∉ q -> exists p', p = q ++ p'.
Proof.
  induction q as [|a q IH]; intros p c r H Hc; [eexists; reflexivity|].
  apply not_elem_of_cons in Hc as [Hac Hc].
  destruct p as [|b p]; cbn [app startswith] in H.
  - apply andb_true_iff in H as [H _]. apply N.eqb_eq in H. congruence.
  - apply andb_true_iff in H as [Hab H]. apply N.eqb_eq in Hab as ->.
    destruct (IH _ _ _ H Hc) as [p' ->]. eexists; reflexivity.
Qed.

Lemma startswith_true q : forall s, startswith q s = true -> exists r, s = q ++ r.
Proof.
  induction q as [|a q IH]; intros s H; [eexists; reflexivity|].
  destruct s as [|b s]; [discriminate|]. cbn [startswith] in H.
  apply andb_true_iff in H as [Hab H]. apply N.eqb_eq in Hab as ->.
  destruct (IH _ H) as [r ->]. eexists; reflexivity.
Qed.

Lemma lstrip_elem c s : c ∈ lstrip s -> c ∈ s.
Proof.
  induction s as [|d s IH]; cbn [lstrip]; [trivial|].
  destruct (isspace d); [|trivial]. intros H. right. auto.
Qed.

Lemma elem_of_rev (c : N) (s : list N) : c ∈ rev s <-> c ∈ s.
Proof. rewrite !list_elem_of_In. symmetry. apply in_rev. Qed.

Lemma strip_elem c s : c ∈ strip s -> c ∈ s.
Proof.
  unfold strip, rstrip. intros H.
  apply elem_of_rev, lstrip_elem, elem_of_rev, lstrip_elem in H. exact H.
Qed.

Lemma lstrip_prose p : forall c r,
  isspace c = false -> exists p', lstrip (p ++ c :: r) = p' ++ c :: r /\ forall x, x ∈ p' -> x ∈ p.
Proof.
  induction p as [|d p IH]; intros c r Hc.
  - exists []. cbn [app lstrip]. rewrite Hc. split; [reflexivity | trivial].
  - cbn [app lstrip]. destruct (isspace d).
    + destruct (IH c r Hc) as (p' & -> & Hsub). exists p'. split; [reflexivity|].
      intros x Hx. right. auto.
    + exists (d :: p). split; [reflexivity | trivial].
Qed.

Lemma rstrip_keep s c : isspace c = false -> rstrip (s ++ [c]) = s ++ [c].
Proof.
  intros Hc. unfold rstrip. rewrite rev_unit.
  cbn [lstrip]. rewrite Hc. rewrite <- rev_unit.
  apply rev_involutive.
Qed.

Lemma drop_elem (c : N) n : forall l : list N, c ∈ drop n l -> c ∈ l.
Proof.
  induction n as [|n IH]; intros [|d l] H; cbn [drop] in H; try exact H.
  right. auto.
Qed.

(** *** The fences *)

Lemma close_fence_here_false s : 93 ∈ s -> close_fence_here s = false.
Proof.
  intros Hin. unfold close_fence_here.
  set (s' := match s with
             | [] => s
             | c :: r => if c =? 10 then r else s
             end).
  assert (Hin' : 93 ∈ s').
  { subst s'. destruct s as [|c r]; [exact Hin|].
    destruct (N.eqb_spec c 10) as [->|_]; [|exact Hin].
    apply elem_of_cons in Hin as [Hc|Hin]; [discriminate | exact Hin]. }
  destruct (startswith fence s') eqn:Hs; [|reflexivity].
  apply startswith_true in Hs as [rest ->].
  change (drop 3 (fence ++ rest)) with rest.
  destruct (forallb isspace rest) eqn:Hf; [|reflexivity].
  exfalso. apply elem_of_app in Hin' as [Hx|Hx].
  - unfold fence in Hx. repeat (apply elem_of_cons in Hx as [Hx|Hx]; [discriminate|]).
    inversion Hx.
  - rewrite forallb_forall in Hf. apply list_elem_of_In, Hf in Hx. discriminate.
Qed.

Lemma sub_close_fence_keep a : forall tail,
  sub_close_fence (a ++ 93 :: tail) = a ++ 93 :: sub_close_fence tail.
Proof.
  induction a as [|c a IH]; intros tail; cbn [app sub_close_fence].
  - rewrite close_fence_here_false by left. reflexivity.
  - rewrite close_fence_here_false by (right; apply elem_of_app; right; left).
    rewrite IH. reflexivity.
Qed.

Lemma sub_close_fence_elem c t : c ∈ sub_close_fence t -> c ∈ t.
Proof.
  induction t as [|d t IH]; cbn [sub_close_fence].
  - destruct (close_fence_here []); trivial.
  - destruct (close_fence_here (d :: t)); [intros H; inversion H|].
    intros H. apply elem_of_cons in H as [->|H]; [left | right; auto].
Qed.

Lemma sub_open_fence_elem c t : c ∈ sub_open_fence t -> c ∈ t.
Proof.
  unfold sub_open_fence. destruct (startswith fence t); [|trivial].
  intros H. apply lstrip_elem in H.
  destruct (startswith (lit "json") (drop 3 t)).
  - apply drop_elem, drop_elem in H. exact H.
  - apply drop_elem in H. exact H.
Qed.

Lemma sub_open_fence_prose p r :
  91 ∉ p ->
  exists p', sub_open_fence (p ++ 91 :: r) = p' ++ 91 :: r /\ 91 ∉ p'.
Proof.
  intros Hp. unfold sub_open_fence.
  destruct (startswith fence (p ++ 91 :: r)) eqn:Hf; [|exists p; auto].
  apply startswith_split in Hf as [p1 ->].
  2:{ unfold fence. intros Hx.
      repeat (apply elem_of_cons in Hx as [Hx|Hx]; [discriminate|]). inversion Hx. }
  change (drop 3 ((fence ++ p1) ++ 91 :: r)) with (p1 ++ 91 :: r). cbv zeta.
  assert (Hp1 : 91 ∉ p1) by (intros Hx; apply Hp, elem_of_app; right; exact Hx).
  match goal with
  | |- context [lstrip ?x] => assert (Hj : exists p2, x = p2 ++ 91 :: r /\ 91 ∉ p2)
  end.
  { destruct (startswith (lit "json") (p1 ++ 91 :: r)) eqn:Hjs; [|exists p1; auto].
    apply startswith_split in Hjs as [p2 ->].
    2:{ vm_compute. intros Hx.
        repeat (apply elem_of_cons in Hx as [Hx|Hx]; [discriminate|]). inversion Hx. }
    exists p2. split.
    - replace (lit "json") with [106; 115; 111; 110] by (vm_compute; reflexivity).
      reflexivity.
    - intros Hx. apply Hp1, elem_of_app. right. exact Hx. }
  destruct Hj as (p2 & -> & Hp2).
  destruct (lstrip_prose p2 91 r eq_refl) as (p3 & -> & Hsub).
  exists p3. split; [reflexivity|]. intros Hx. apply Hp2, Hsub, Hx.
Qed.

Lemma upto_last_close_all mid : upto_last_close (mid ++ [93]) = Some (mid ++ [93]).
Proof.
  induction mid as [|c mid IH]; [reflexivity|].
  cbn [app upto_last_close]. rewrite IH. reflexivity.
Qed.

Lemma search_brackets_prose p mid :
  91 ∉ p -> search_brackets (p ++ 91 :: mid ++ [93]) = Some (91 :: mid ++ [93]).
Proof.
  induction p as [|c p IH]; intros Hp; cbn [app search_brackets].
  - change (91 =? 91) with true. cbn iota. rewrite upto_last_close_all. reflexivity.
  - apply not_elem_of_cons in Hp as [Hc Hp].
    destruct (N.eqb_spec c 91) as [->|_]; [congruence | auto].
Qed.

Lemma search_brackets_none t : 91 ∉ t -> search_brackets t = None.
Proof.
  induction t as [|c t IH]; intros Hn; [reflexivity|].
  apply not_elem_of_cons in Hn as [Hc Hn]. cbn [search_brackets].
  destruct (N.eqb_spec c 91) as [->|_]; [congruence | auto].
Qed.

(** *** The parser *)

Lemma parse_script_json_prose prose mid l :
  91 ∉ prose ->
  json_loads (91 :: mid ++ [93]) = Some (JArray l) ->
  _parse_script_json (prose ++ 91 :: mid ++ [93]) = Ok (JArray l).
Proof.
  intros Hp Hl. unfold _parse_script_json.
  assert (Hs : exists p1, strip (prose ++ 91 :: mid ++ [93]) = p1 ++ 91 :: mid ++ [93]
                          /\ 91 ∉ p1).
  { unfold strip.
    destruct (lstrip_prose prose 91 (mid ++ [93]) eq_refl) as (p1 & -> & Hsub).
    exists p1. split.
    - change (p1 ++ 91 :: mid ++ [93]) with (p1 ++ (91 :: mid) ++ [93]).
      rewrite app_assoc. apply rstrip_keep. reflexivity.
    - intros Hx. apply Hp, Hsub, Hx. }
  destruct Hs as (p1 & -> & Hp1).
  assert (Ht : exists p2,
             (if startswith fence (p1 ++ 91 :: mid ++ [93])
              then sub_close_fence (sub_open_fence (p1 ++ 91 :: mid ++ [93]))
              else p1 ++ 91 :: mid ++ [93]) = p2 ++ 91 :: mid ++ [93] /\ 91 ∉ p2).
  { destruct (startswith fence (p1 ++ 91 :: mid ++ [93])); [|exists p1; auto].
    destruct (sub_open_fence_prose p1 (mid ++ [93]) Hp1) as (p2 & -> & Hp2).
    exists p2. split; [|exact Hp2].
    change (p2 ++ 91 :: mid ++ [93]) with (p2 ++ (91 :: mid) ++ 93 :: []).
    rewrite app_assoc, sub_close_fence_keep. reflexivity. }
  destruct Ht as (p2 & -> & Hp2).
  rewrite (search_brackets_prose p2 mid Hp2), Hl.
  destruct (json_loads (p2 ++ 91 :: mid ++ [93])) as [[| | | | |l'|]|] eqn:Hd;
    try reflexivity.
  rewrite (json_loads_prose p2 (mid ++ [93]) l l' Hp2 Hl Hd). reflexivity.
Qed.

Lemma parse_script_json_garbage text :
  91 ∉ text -> _parse_script_json text = Raise parse_error.
Proof.
  intros Hn. unfold _parse_script_json.
  set (t1 := strip text).
  set (t2 := if startswith fence t1 then sub_close_fence (sub_open_fence t1) else t1).
  assert (H2 : 91 ∉ t2).
  { intros Hx. apply Hn, strip_elem. fold t1. subst t2.
    destruct (startswith fence t1); [|exact Hx].
    apply sub_open_fence_elem, sub_close_fence_elem, Hx. }
  rewrite (search_brackets_none t2 H2).
  destruct (json_loads t2) as [[| | | | |l|]|] eqn:Hd; try reflexivity.
  exfalso. exact (json_loads_no_bracket t2 l H2 Hd).
Qed.

Lemma search_brackets_head t m : search_brackets t = Some m -> exists r, m = 91 :: r.
Proof.
  induction t as [|c t IH]; [discriminate|]. cbn [search_brackets].
  destruct (N.eqb_spec c 91) as [->|_]; [|exact IH].
  destruct (upto_last_close t); [|discriminate]. intros [= <-]. eauto.
Qed.

Lemma json_loads_bracket_is_array r v :
  json_loads (91 :: r) = Some v -> exists l, v = JArray l.
Proof.
  unfold json_loads. destruct (startswith [65279] (91 :: r)); [discriminate|].
  change (skip_ws (91 :: r)) with (91 :: r).
  destruct (parse_value _ (91 :: r)) as [[v0 r0]|] eqn:Hv; [|discriminate].
  destruct (skip_ws r0); [|discriminate]. intros [= <-].
  revert Hv. destruct (2 * length (91%N :: r) + 2)%nat as [|k]; [discriminate|].
  cbn [parse_value]. change (91 =? 34) with false. change (91 =? 123) with false.
  change (91 =? 91) with true. cbn iota.
  destruct (skip_ws r) as [|c' r']; [discriminate|].
  destruct (c' =? 93); [intros [= <- _]; eauto|].
  apply parse_array_is_array.
Qed.

Lemma parse_script_json_is_list text v :
  _parse_script_json text = Ok v -> exists l, v = JArray l.
Proof.
  unfold _parse_script_json.
  set (t2 := if startswith fence (strip text)
             then sub_close_fence (sub_open_fence (strip text)) else strip text).
  assert (Hfb : match search_brackets t2 with
                | Some m => match json_loads m with
                            | Some v0 => Ok v0
                            | None => Raise parse_error
                            end
                | None => Raise parse_error
                end = Ok v -> exists l, v = JArray l).
  { destruct (search_brackets t2) as [m|] eqn:Hm; [|discriminate].
    apply search_brackets_head in Hm as [r ->].
    destruct (json_loads (91 :: r)) as [v0|] eqn:Hj; [|discriminate].
    intros [= <-]. eapply json_loads_bracket_is_array. exact Hj. }
  destruct (json_loads t2) as [[| | | | |l|]|]; try exact Hfb.
  intros [= <-]. eauto.
Qed.

Lemma fenced_text mid :
  fence ++ lit "json" ++ nl ++ (91 :: mid ++ [93]) ++ nl ++ fence
  = [96; 96; 96; 106; 115; 111; 110; 10] ++ (91 :: mid) ++ 93 :: [10; 96; 96; 96].
Proof.
  replace (lit "json") with [106; 115; 111; 110] by (vm_compute; reflexivity).
  unfold fence, nl. cbn [app]. rewrite <- app_assoc. reflexivity.
Qed.

Lemma parse_script_json_fenced mid l :
  json_loads (91 :: mid ++ [93]) = Some (JArray l) ->
  _parse_script_json (fence ++ lit "json" ++ nl ++ (91 :: mid ++ [93]) ++ nl ++ fence)
    = Ok (JArray l).
Proof.
  intros Hl. rewrite fenced_text. unfold _parse_script_json.
  assert (Hs : strip ([96; 96; 96; 106; 115; 111; 110; 10] ++ (91 :: mid) ++
                      93 :: [10; 96; 96; 96])
               = [96; 96; 96; 106; 115; 111; 110; 10] ++ (91 :: mid) ++
                 93 :: [10; 96; 96; 96]).
  { unfold strip. cbn [app lstrip]. change (isspace 96) with false. cbn iota.
    replace (96 :: 96 :: 96 :: 106 :: 115 :: 111 :: 110 :: 10 :: 91
              :: mid ++ [93; 10; 96; 96; 96])
      with (([96; 96; 96; 106; 115; 111; 110; 10; 91] ++ mid ++ [93; 10; 96; 96]) ++ [96])
      by (cbn [app]; rewrite <- app_assoc; reflexivity).
    apply rstrip_keep. reflexivity. }
  rewrite Hs. clear Hs.
  change (startswith fence ([96; 96; 96; 106; 115; 111; 110; 10] ++ (91 :: mid) ++
                            93 :: [10; 96; 96; 96])) with true.
  cbn iota.
  assert (Ho : sub_open_fence ([96; 96; 96; 106; 115; 111; 110; 10] ++ (91 :: mid) ++
                               93 :: [10; 96; 96; 96])
               = (91 :: mid) ++ 93 :: [10; 96; 96; 96]).
  { unfold sub_open_fence.
    replace (lit "json") with [106; 115; 111; 110] by (vm_compute; reflexivity).
    reflexivity. }
  rewrite Ho, sub_close_fence_keep.
  change (sub_close_fence [10; 96; 96; 96]) with (@nil N).
  change ((91 :: mid) ++ [93]) with (91 :: mid ++ [93]).
  rewrite Hl. reflexivity.
Qed.

(** *** The search for the bracketed text *)

Lemma upto_last_close_none post : 93 ∉ post -> upto_last_close post = None.
Proof.
  induction post as [|c post IH]; intros Hn; [reflexivity|].
  apply not_elem_of_cons in Hn as [Hc Hn]. cbn [upto_last_close].
  rewrite (IH Hn). destruct (N.eqb_spec c 93) as [->|_]; [congruence | reflexivity].
Qed.

Lemma upto_last_close_span mid : forall post,
  93 ∉ post -> upto_last_close (mid ++ 93 :: post) = Some (mid ++ [93]).
Proof.
  induction mid as [|c mid IH]; intros post Hn; cbn [app upto_last_close].
  - rewrite (upto_last_close_none post Hn). reflexivity.
  - rewrite (IH post Hn). reflexivity.
Qed.

Lemma upto_last_close_inv r : forall m,
  upto_last_close r = Some m ->
  exists mid post, r = mid ++ 93 :: post /\ m = mid ++ [93] /\ 93 ∉ post.
Proof.
  induction r as [|c r IH]; intros m; [discriminate|]. cbn [upto_last_close].
  destruct (upto_last_close r) as [m'|] eqn:Hr.
  - intros [= <-]. destruct (IH m' eq_refl) as (mid & post & -> & -> & Hn).
    exists (c :: mid), post. repeat split; [exact Hn].
  - destruct (N.eqb_spec c 93) as [->|_]; [|discriminate]. intros [= <-].
    exists [], r. repeat split.
    intros Hin. clear IH. revert Hr Hin. induction r as [|d r IHr]; intros Hr Hin.
    + inversion Hin.
    + cbn [upto_last_close] in Hr.
      destruct (upto_last_close r) as [m'|]; [discriminate|].
      destruct (N.eqb_spec d 93) as [->|Hd]; [discriminate|].
      apply elem_of_cons in Hin as [Hin|Hin]; [congruence | auto].
Qed.

(** The search finds the text from the first opening bracket to the last
    closing one. *)
Lemma search_brackets_span pre mid post :
  91 ∉ pre -> 93 ∉ post ->
  search_brackets (pre ++ 91 :: mid ++ 93 :: post) = Some (91 :: mid ++ [93]).
Proof.
  induction pre as [|c pre IH]; intros Hp Hq; cbn [app search_brackets].
  - change (91 =? 91) with true. cbn iota.
    rewrite (upto_last_close_span mid post Hq). reflexivity.
  - apply not_elem_of_cons in Hp as [Hc Hp].
    destruct (N.eqb_spec c 91) as [->|_]; [congruence | auto].
Qed.

Lemma search_brackets_inv t : forall m,
  search_brackets t = Some m ->
  exists pre mid post,
    t = pre ++ 91 :: mid ++ 93 :: post /\ m = 91 :: mid ++ [93] /\
    (91 ∉ pre) /\ (93 ∉ post).
Proof.
  induction t as [|c t IH]; intros m; [discriminate|]. cbn [search_brackets].
  destruct (N.eqb_spec c 91) as [->|Hc].
  - destruct (upto_last_close t) as [m'|] eqn:Hu; [|discriminate]. intros [= <-].
    apply upto_last_close_inv in Hu as (mid & post & -> & -> & Hn).
    exists [], mid, post. repeat split; [|exact Hn]. intros Hin. inversion Hin.
  - intros Hs. destruct (IH m Hs) as (pre & mid & post & -> & -> & Hp & Hq).
    exists (c :: pre), mid, post. repeat split; [|exact Hq].
    intros Hin. apply elem_of_cons in Hin as [Hin|Hin]; [congruence | auto].
Qed.

(** It finds nothing when no closing bracket follows an opening one. *)
Lemma search_brackets_no_span t :
  (forall pre mid post, t <> pre ++ 91 :: mid ++ 93 :: post) ->
  search_brackets t = None.
Proof.
  intros Hno. destruct (search_brackets t) as [m|] eqn:Hs; [|reflexivity].
  apply search_brackets_inv in Hs as (pre & mid & post & Ht & _).
  exfalso. exact (Hno pre mid post Ht).
Qed.

Lemma parse_script_json_steps text :
  _parse_script_json text
  = match json_loads (unfenced text) with
    | Some (JArray l) => Ok (JArray l)
    | _ => match search_brackets (unfenced text) with
           | Some m => match json_loads m with
                       | Some v => Ok v
                       | None => Raise parse_error
                       end
           | None => Raise parse_error
           end
    end.
Proof. reflexivity. Qed.

Lemma parse_script_json_direct text l :
  json_loads (unfenced text) = Some (JArray l) -> _parse_script_json text = Ok (JArray l).
Proof. intros H. rewrite parse_script_json_steps, H. reflexivity. Qed.

Lemma parse_script_json_search text pre mid post :
  (forall l, json_loads (unfenced text) <> Some (JArray l)) ->
  unfenced text = pre ++ 91 :: mid ++ 93 :: post ->
  91 ∉ pre -> 93 ∉ post ->
  _parse_script_json text
  = match json_loads (91 :: mid ++ [93]) with
    | Some v => Ok v
    | None => Raise parse_error
    end.
Proof.
  intros Hd Ht Hp Hq. rewrite parse_script_json_steps.
  pose proof (search_brackets_span pre mid post Hp Hq) as Hs. rewrite <- Ht in Hs.
  rewrite Hs.
  destruct (json_loads (unfenced text)) as [[| | | | |l|]|] eqn:Hj; try reflexivity.
  exfalso. exact (Hd l eq_refl).
Qed.

Lemma parse_script_json_no_span text :
  (forall l, json_loads (unfenced text) <> Some (JArray l)) ->
  (forall pre mid post, unfenced text <> pre ++ 91 :: mid ++ 93 :: post) ->
  _parse_script_json text = Raise parse_error.
Proof.
  intros Hd Hno. rewrite parse_script_json_steps.
  rewrite (search_brackets_no_span _ Hno).
  destruct (json_loads (unfenced text)) as [[| | | | |l|]|] eqn:Hj; try reflexivity.
  exfalso. exact (Hd l eq_refl).
Qed.

Lemma unfenced_plain text :
  strip text = text -> startswith fence text = false -> unfenced text = text.
Proof. intros Hs Hf. unfold unfenced. rewrite Hs, Hf. reflexivity. Qed.

Lemma unfenced_fenced mid :
  unfenced (fence ++ lit "json" ++ nl ++ (91 :: mid ++ [93]) ++ nl ++ fence)
  = 91 :: mid ++ [93].
Proof.
  rewrite fenced_text. unfold unfenced.
  assert (Hs : strip ([96; 96; 96; 106; 115; 111; 110; 10] ++ (91 :: mid) ++
                      93 :: [10; 96; 96; 96])
               = [96; 96; 96; 106; 115; 111; 110; 10] ++ (91 :: mid) ++
                 93 :: [10; 96; 96; 96]).
  { unfold strip. cbn [app lstrip]. change (isspace 96) with false. cbn iota.
    replace (96 :: 96 :: 96 :: 106 :: 115 :: 111 :: 110 :: 10 :: 91
              :: mid ++ [93; 10; 96; 96; 96])
      with (([96; 96; 96; 106; 115; 111; 110; 10; 91] ++ mid ++ [93; 10; 96; 96]) ++ [96])
      by (cbn [app]; rewrite <- app_assoc; reflexivity).
    apply rstrip_keep. reflexivity. }
  cbv zeta. rewrite Hs. clear Hs.
  change (startswith fence ([96; 96; 96; 106; 115; 111; 110; 10] ++ (91 :: mid) ++
                            93 :: [10; 96; 96; 96])) with true.
  cbn iota.
  assert (Ho : sub_open_fence ([96; 96; 96; 106; 115; 111; 110; 10] ++ (91 :: mid) ++
                               93 :: [10; 96; 96; 96])
               = (91 :: mid) ++ 93 :: [10; 96; 96; 96]).
  { unfold sub_open_fence.
    replace (lit "json") with [106; 115; 111; 110] by (vm_compute; reflexivity).
    reflexivity. }
  rewrite Ho, sub_close_fence_keep. reflexivity.
Qed.

(** C8.  The parser of the completion.  The text is stripped and, when
    it opens with a fence, freed of its fences: a fenced one-object array
    is read as a list of one line, and what stands between a json fence
    and its closing fence is what is parsed.  When the text so obtained is
    a JSON list, that list is the result.  When it is not, the result is
    decided by the text from the first opening bracket to the last
    closing one: what that text parses to, or the parse error when it does
    not parse; and the parse error when no closing bracket follows an
    opening one.  So an array after prose that holds no opening bracket
    is recovered, also when a remark follows it; a bracketed text that is
    no JSON raises; a text without any opening bracket raises; and
    whatever is returned is a list.  The numbers 91 and 93 are the
    opening and the closing bracket. *)
Theorem parse_script_json_resilient :
  _parse_script_json
    (fence ++ lit "json" ++ nl ++ jlit "[{'speaker':'A','text':'x'}]" ++ nl ++ fence)
    = Ok (JArray [dialogue (lit "A") (lit "x")])
  /\ (forall mid,
      unfenced (fence ++ lit "json" ++ nl ++ (91 :: mid ++ [93]) ++ nl ++ fence)
      = 91 :: mid ++ [93])
  /\ (forall text, strip text = text -> startswith fence text = false ->
      unfenced text = text)
  /\ (forall mid l,
      json_loads (91 :: mid ++ [93]) = Some (JArray l) ->
      _parse_script_json (fence ++ lit "json" ++ nl ++ (91 :: mid ++ [93]) ++ nl ++ fence)
        = Ok (JArray l))
  /\ (forall text l,
      json_loads (unfenced text) = Some (JArray l) ->
      _parse_script_json text = Ok (JArray l))
  /\ (forall text pre mid post,
      (forall l, json_loads (unfenced text) <> Some (JArray l)) ->
      unfenced text = pre ++ 91 :: mid ++ 93 :: post ->
      91 ∉ pre -> 93 ∉ post ->
      _parse_script_json text
      = match json_loads (91 :: mid ++ [93]) with
        | Some v => Ok v
        | None => Raise parse_error
        end)
  /\ (forall text,
      (forall l, json_loads (unfenced text) <> Some (JArray l)) ->
      (forall pre mid post, unfenced text <> pre ++ 91 :: mid ++ 93 :: post) ->
      _parse_script_json text = Raise parse_error)
  /\ (forall prose mid l,
      91 ∉ prose ->
      json_loads (91 :: mid ++ [93]) = Some (JArray l) ->
      _parse_script_json (prose ++ 91 :: mid ++ [93]) = Ok (JArray l))
  /\ (forall text, 91 ∉ text -> _parse_script_json text = Raise parse_error)
  /\ (forall text v, _parse_script_json text = Ok v -> exists l, v = JArray l)
  /\ _parse_script_json
       (lit "Sure! " ++ jlit "[{'speaker':'A','text':'x'}]" ++ lit " Hope this helps.")
     = Ok (JArray [dialogue (lit "A") (lit "x")])
  /\ _parse_script_json (lit "[oops]") = Raise parse_error
  /\ _parse_script_json (jlit "{'lines': [1, 2]}") = Ok (JArray [JInt 1; JInt 2]).
Proof.
  split; [vm_compute; reflexivity|].
  split; [exact unfenced_fenced|].
  split; [exact unfenced_plain|].
  split; [exact parse_script_json_fenced|].
  split; [exact parse_script_json_direct|].
  split; [exact parse_script_json_search|].
  split; [exact parse_script_json_no_span|].
  split; [exact parse_script_json_prose|].
  split; [exact parse_script_json_garbage|].
  split; [exact parse_script_json_is_list|].
  split; [vm_compute; reflexivity|].
  split; vm_compute; reflexivity.
Qed.

Lemma parse_script_json_resilient_witness :
  _parse_script_json (lit "Here is your script: " ++ jlit "[{'speaker':'A','text':'x'}]")
    = Ok (JArray [dialogue (lit "A") (lit "x")])
  /\ _parse_script_json (lit "I cannot help with that.") = Raise parse_error
  /\ _parse_script_json (lit "Lines: " ++ jlit "[{'speaker':'A'}]" ++ lit " (draft)")
     = Ok (JArray [JObject [(lit "speaker", JString (lit "A"))]])
  /\ _parse_script_json (lit "Sorry [no script] today") = Raise parse_error
  /\ _parse_script_json (lit "nothing [ here") = Raise parse_error
  /\ _parse_script_json (jlit " [1] ") = Ok (JArray [JInt 1]).
Proof.
  destruct parse_script_json_resilient
    as (_ & _ & Hplain & _ & Hdirect & Hsearch & Hnone & Hprose & Hgarbage & _).
  split; [|split; [|split; [|split; [|split]]]].
  - apply (Hprose (lit "Here is your script: ")
             (removelast (drop 1 (jlit "[{'speaker':'A','text':'x'}]")))
             [dialogue (lit "A") (lit "x")]).
    + vm_compute. intros H.
      repeat (apply elem_of_cons in H as [H|H]; [discriminate|]). inversion H.
    + vm_compute. reflexivity.
  - apply Hgarbage. vm_compute. intros H.
    repeat (apply elem_of_cons in H as [H|H]; [discriminate|]). inversion H.
  - rewrite (Hsearch (lit "Lines: " ++ jlit "[{'speaker':'A'}]" ++ lit " (draft)")
               (lit "Lines: ") (removelast (drop 1 (jlit "[{'speaker':'A'}]")))
               (lit " (draft)")).
    + vm_compute. reflexivity.
    + intros l. vm_compute. discriminate.
    + rewrite Hplain; vm_compute; reflexivity.
    + vm_compute. intros H.
      repeat (apply elem_of_cons in H as [H|H]; [discriminate|]). inversion H.
    + vm_compute. intros H.
      repeat (apply elem_of_cons in H as [H|H]; [discriminate|]). inversion H.
  - rewrite (Hsearch (lit "Sorry [no script] today") (lit "Sorry ")
               (lit "no script") (lit " today")).
    + vm_compute. reflexivity.
    + intros l. vm_compute. discriminate.
    + rewrite Hplain; vm_compute; reflexivity.
    + vm_compute. intros H.
      repeat (apply elem_of_cons in H as [H|H]; [discriminate|]). inversion H.
    + vm_compute. intros H.
      repeat (apply elem_of_cons in H as [H|H]; [discriminate|]). inversion H.
  - apply Hnone.
    + intros l. vm_compute. discriminate.
    + intros pre mid post. rewrite Hplain by (vm_compute; reflexivity).
      intros H. assert (Hin : 93 ∈ lit "nothing [ here").
      { rewrite H. apply elem_of_app. right. right. apply elem_of_app. right. left. }
      vm_compute in Hin.
      repeat (apply elem_of_cons in Hin as [Hin|Hin]; [discriminate|]). inversion Hin.
  - apply Hdirect. vm_compute. reflexivity.
Defined.

(** Prose that holds a bracket of its own hides the array: the text from
    the first opening bracket to the last closing one is then no JSON, and
    the parser raises although an array follows the prose. *)
Lemma parse_script_json_counterexample :
  json_loads (jlit "[{'speaker':'A','text':'x'}]")
    = Some (JArray [dialogue (lit "A") (lit "x")])
  /\ _parse_script_json (lit "Here [is] it: " ++ jlit "[{'speaker':'A','text':'x'}]")
     = Raise parse_error
  /\ search_brackets (lit "Here [is] it: " ++ jlit "[{'speaker':'A','text':'x'}]")
     = Some (lit "[is] it: " ++ jlit "[{'speaker':'A','text':'x'}]").
Proof. repeat split; vm_compute; reflexivity. Qed.
(** ** Script generation (C7) *)

Lemma placeholder_lines topic :
  exists l, _placeholder_script topic = JArray l /\ length l = 10%nat /\ Forall role_line l.
Proof.
  eexists. split; [reflexivity|]. split; [reflexivity|].
  repeat (apply Forall_cons; split;
    [ eexists _, _; split; [reflexivity|]; split;
      [ lit_nonempty
      | first [ left; reflexivity | right; reflexivity ] ]
    | ]).
  apply Forall_nil_2.
Qed.

Lemma generate_script_total E topic research_brief tone w :
  exists s w', generate_script E topic research_brief tone w = (Ok s, w') /\
    (s = _placeholder_script topic \/
     script_service_answer E w topic research_brief tone s).
Proof.
  unfold generate_script.
  destruct (MINIMAX_API_KEY E) as [|k0 key] eqn:Hkey.
  { eexists _, _. split; [reflexivity|]. left. reflexivity. }
  unfold try_except.
  match goal with |- context [match ?b w with _ => _ end] =>
    destruct (b w) as [[a|e] w1] eqn:Hb end.
  2:{ eexists _, _. split; [reflexivity|]. left. reflexivity. }
  exists a, w1. split; [reflexivity|]. right.
  split; [rewrite Hkey; discriminate|].
  revert Hb. unfold bind, http_send.
  destruct (http E (sent w) _) as [|resp] eqn:Hh; [discriminate|].
  unfold raise_for_status.
  destruct (status_ok resp) eqn:Hok; [|discriminate].
  unfold ret at 1. unfold resp_json.
  destruct (body_json resp) as [data|] eqn:Hj; [|discriminate].
  unfold ret at 1. unfold lift at 1.
  destruct (completion_content data) as [content|] eqn:Hc; [|discriminate].
  destruct content as [| | | |content| |]; try discriminate.
  unfold lift at 1.
  destruct (_parse_script_json content) as [s|] eqn:Hp; [|discriminate].
  unfold lift. destruct (py_len s); [|discriminate].
  unfold ret. intros H. injection H as <- _.
  exists resp, data, content. repeat split; first [assumption | reflexivity].
Qed.

(** An answer of the service that parses is the script, as it is. *)
Lemma generate_script_answer E topic research_brief tone w s :
  script_service_answer E w topic research_brief tone s ->
  generate_script E topic research_brief tone w
  = (Ok s, mkWorld (files w) (dirs w)
             (sent w ++ [script_request E topic research_brief tone]) (slept w)).
Proof.
  intros (Hkey & resp & data & content & Hh & Hok & Hj & Hc & Hp).
  unfold generate_script.
  destruct (MINIMAX_API_KEY E) as [|k0 key]; [congruence|].
  unfold try_except, bind, http_send. rewrite Hh.
  unfold raise_for_status. rewrite Hok. unfold ret at 1.
  unfold resp_json. rewrite Hj. unfold ret at 1.
  unfold lift at 1. rewrite Hc. unfold lift at 1. rewrite Hp.
  destruct (parse_script_json_is_list content s Hp) as [l ->].
  reflexivity.
Qed.

(** C7.  Script generation never raises.  Its result is the script parsed
    from the answer of the text-generation service, or else exactly the
    placeholder script of its topic: so it is with no credentials, when
    the request fails or is answered with an error status, when the
    answer is not the expected JSON, when the completion is no text, and
    when the completion cannot be parsed.  The placeholder is a function
    of the topic alone; it has ten lines, spoken in turn by the two
    roles, none of them empty.  An answer that parses is returned as it
    is: the script is always a list, and it is empty only when the
    service sent an empty list. *)
Theorem generate_script_fallback (E : Env) (topic research_brief tone : str) (w : World) :
  (exists s w', generate_script E topic research_brief tone w = (Ok s, w') /\
     (s = _placeholder_script topic \/
      script_service_answer E w topic research_brief tone s))
  /\ (MINIMAX_API_KEY E = [] ->
      generate_script E topic research_brief tone w = (Ok (_placeholder_script topic), w))
  /\ (http E (sent w) (script_request E topic research_brief tone) = HttpFails ->
      fst (generate_script E topic research_brief tone w) = Ok (_placeholder_script topic))
  /\ (forall resp,
      http E (sent w) (script_request E topic research_brief tone) = HttpReturns resp ->
      status_ok resp = false \/ body_json resp = None \/
      (exists data e, body_json resp = Some data /\
                      completion_content data = Raise e) \/
      (exists data content, body_json resp = Some data /\
                      completion_content data = Ok content /\
                      forall text, content <> JString text) \/
      (exists data content e, body_json resp = Some data /\
                      completion_content data = Ok (JString content) /\
                      _parse_script_json content = Raise e) ->
      fst (generate_script E topic research_brief tone w) = Ok (_placeholder_script topic))
  /\ (exists l, _placeholder_script topic = JArray l /\ length l = 10%nat /\
                Forall role_line l)
  /\ (exists rest, _placeholder_script topic =
        JArray (dialogue (lit "Alex")
                  (lit "Hey Sam, today we're diving into " ++ topic ++
                   lit ". I've been really curious about this!") :: rest))
  /\ (forall s, script_service_answer E w topic research_brief tone s ->
      fst (generate_script E topic research_brief tone w) = Ok s)
  /\ (forall s, fst (generate_script E topic research_brief tone w) = Ok s ->
      exists l, s = JArray l /\
        (l = [] -> script_service_answer E w topic research_brief tone (JArray []))).
Proof.
  split; [apply generate_script_total|].
  split.
  { intros Hk. unfold generate_script. rewrite Hk. reflexivity. }
  split.
  { intros Hh. unfold generate_script.
    destruct (MINIMAX_API_KEY E); [reflexivity|].
    unfold try_except, bind, http_send. rewrite Hh. reflexivity. }
  split.
  { intros resp Hh Hcase. unfold generate_script.
    destruct (MINIMAX_API_KEY E); [reflexivity|].
    unfold try_except, bind, http_send. rewrite Hh.
    unfold raise_for_status.
    destruct (status_ok resp) eqn:Hok; [|reflexivity].
    unfold ret at 1. unfold resp_json.
    destruct Hcase as [Hc|[Hc|[(data & e & Hj & Hc)|[(data & content & Hj & Hc & Hn)
                        |(data & content & e & Hj & Hc & Hp)]]]].
    - discriminate.
    - rewrite Hc. reflexivity.
    - rewrite Hj. unfold ret at 1. unfold lift at 1. rewrite Hc. reflexivity.
    - rewrite Hj. unfold ret at 1. unfold lift at 1. rewrite Hc.
      destruct content as [| | | |text| |]; try reflexivity.
      exfalso. exact (Hn text eq_refl).
    - rewrite Hj. unfold ret at 1. unfold lift at 1. rewrite Hc.
      unfold lift at 1. rewrite Hp. reflexivity. }
  split; [apply placeholder_lines|].
  split; [eexists; reflexivity|].
  split.
  { intros s Hs. rewrite (generate_script_answer E topic research_brief tone w s Hs).
    reflexivity. }
  intros s Hs.
  destruct (generate_script_total E topic research_brief tone w)
    as (s' & w' & Hrun & Hcase).
  rewrite Hrun in Hs. cbn [fst] in Hs. injection Hs as ->.
  destruct Hcase as [->|Hans].
  - eexists. split; [reflexivity|]. discriminate.
  - destruct Hans as (Hkey & resp & data & content & Hh & Hok & Hj & Hc & Hp).
    destruct (parse_script_json_is_list content s Hp) as [l ->].
    exists l. split; [reflexivity|]. intros ->.
    split; [exact Hkey|]. exists resp, data, content. auto.
Qed.

Lemma generate_script_fallback_witness :
  generate_script Fixtures.env_offline (lit "black holes") [] (lit "casual") Fixtures.w0
    = (Ok (_placeholder_script (lit "black holes")), Fixtures.w0)
  /\ fst (generate_script (Fixtures.env_completion "I cannot help with that.")
            (lit "black holes") [] (lit "casual") Fixtures.w0)
     = Ok (_placeholder_script (lit "black holes")).
Proof.
  split.
  - apply (generate_script_fallback Fixtures.env_offline (lit "black holes") []
             (lit "casual") Fixtures.w0).
    reflexivity.
  - destruct (generate_script_fallback (Fixtures.env_completion "I cannot help with that.")
                (lit "black holes") [] (lit "casual") Fixtures.w0)
      as (_ & _ & _ & H & _).
    apply (H (Fixtures.completion_answer "I cannot help with that.")).
    + vm_compute. reflexivity.
    + right; right; right; right.
      exists (Fixtures.completion_data "I cannot help with that."),
             (lit "I cannot help with that."), parse_error.
      split; [reflexivity|]. split; vm_compute; reflexivity.
Defined.

(** An answer of the service that parses is the script even when it has
    no line: with the completion [[]] the script is the empty list, not
    the placeholder, and the pipeline goes on with an empty script. *)
Lemma generate_script_counterexample :
  fst (generate_script (Fixtures.env_completion "[]") (lit "black holes") []
         (lit "casual") Fixtures.w0) = Ok (JArray [])
  /\ _parse_script_json (jlit "[]") = Ok (JArray [])
  /\ JArray [] <> _placeholder_script (lit "black holes").
Proof.
  split; [vm_compute; reflexivity|]. split; [vm_compute; reflexivity|]. discriminate.
Qed.

(** ** Voice synthesis (C5, C10) *)

(** One round of the loop: the line is sent to the voice chosen from its
    speaker, and the round adds at most the clip of that line. *)
Lemma voice_loop_step E clips_dir line rest i acc w speaker said :
  line_fields line speaker said ->
  exists acc' w',
    voice_loop E clips_dir (line :: rest) i acc w
      = voice_loop E clips_dir rest (S i) acc' w'
    /\ sent w' = sent w ++ [tts_request E (select_voice E speaker) said]
    /\ dirs w' = dirs w /\ slept w' = slept w
    /\ (acc' = acc \/
        exists p, line_clip_path E clips_dir i line = Some p /\ acc' = acc ++ [p]).
Proof.
  intros H. unfold line_fields in H. destruct H as [Hs Ht]. cbn [voice_loop]. unfold bind at 1, lift at 1. rewrite Hs.
  unfold bind at 1, lift at 1. rewrite Ht.
  unfold bind at 1, try_except, bind at 1, http_send.
  destruct (http E (sent w) _) as [|resp].
  { eexists _, _. split; [reflexivity|]. cbn [sent dirs slept].
    repeat (split; [reflexivity|]). left. reflexivity. }
  unfold bind at 1, raise_for_status.
  destruct (status_ok resp).
  2:{ eexists _, _. split; [reflexivity|]. cbn [sent dirs slept].
      repeat (split; [reflexivity|]). left. reflexivity. }
  unfold ret at 1. unfold bind at 1, lift at 1, py_lower.
  destruct speaker as [| | | |s| |];
    try (eexists _, _; split; [reflexivity|]; cbn [sent dirs slept];
         repeat (split; [reflexivity|]); left; reflexivity).
  unfold bind at 1.
  match goal with |- context [write_bytes E ?p ?d ?w0] =>
    destruct (write_bytes E p d w0) as [[[]|e] w1] eqn:Hw;
    apply write_bytes_inv in Hw as (Hsent & Hdirs & Hslept & Hw)
  end.
  - eexists _, _. split; [reflexivity|].
    cbn [sent dirs slept] in Hsent, Hdirs, Hslept.
    split; [exact Hsent|]. split; [exact Hdirs|]. split; [exact Hslept|].
    right. unfold line_clip_path. rewrite Hs. eexists. split; reflexivity.
  - eexists _, _. split; [reflexivity|].
    cbn [sent dirs slept] in Hsent, Hdirs, Hslept.
    split; [exact Hsent|]. split; [exact Hdirs|]. split; [exact Hslept|].
    left. reflexivity.
Qed.

(** A round that is answered and whose file can be written adds the clip
    of its line, whatever the speaker label is. *)
Lemma voice_loop_step_success E clips_dir line rest i acc w s said resp :
  line_fields line (JString s) said ->
  http E (sent w) (tts_request E (select_voice E (JString s)) said) = HttpReturns resp ->
  status_ok resp = true ->
  writable E w (path_div clips_dir (clip_name i (str_lower E s))) ->
  voice_loop E clips_dir (line :: rest) i acc w
  = voice_loop E clips_dir rest (S i)
      (acc ++ [path_div clips_dir (clip_name i (str_lower E s))])
      (mkWorld (<[path_div clips_dir (clip_name i (str_lower E s)) := content resp]> (files w))
               (dirs w)
               (sent w ++ [tts_request E (select_voice E (JString s)) said])
               (slept w)).
Proof.
  intros H Hh Hok Hw. unfold line_fields in H. destruct H as [Hs Ht].
  cbn [voice_loop]. unfold bind at 1, lift at 1. rewrite Hs.
  unfold bind at 1, lift at 1. rewrite Ht.
  unfold bind at 1, try_except, bind at 1, http_send. rewrite Hh.
  unfold bind at 1, raise_for_status. rewrite Hok.
  unfold ret at 1. unfold bind at 1, lift at 1, py_lower.
  unfold bind at 1. rewrite write_bytes_ok by exact Hw.
  reflexivity.
Qed.

Lemma line_request_fields E line speaker said :
  line_fields line speaker said ->
  line_request E line = Some (tts_request E (select_voice E speaker) said).
Proof.
  intros H. unfold line_fields in H. destruct H as [Hs Ht].
  unfold line_request. rewrite Hs, Ht. reflexivity.
Qed.

Lemma voice_loop_total E clips_dir lines : forall i acc w,
  Forall well_formed_line lines ->
  exists survivors clips w',
    voice_loop E clips_dir lines i acc w = (Ok clips, w')
    /\ sent w' = sent w ++ omap (line_request E) lines
    /\ dirs w' = dirs w /\ slept w' = slept w
    /\ clips = acc ++ map snd survivors
    /\ survivors_of E clips_dir lines i survivors.
Proof.
  induction lines as [|line rest IH]; intros i acc w Hwf.
  { exists [], acc, w. cbn [voice_loop omap map]. unfold ret.
    rewrite !app_nil_r. repeat (split; [reflexivity|]).
    split; [constructor | constructor]. }
  apply Forall_cons in Hwf as [(speaker & said & Hf) Hwf].
  destruct (voice_loop_step E clips_dir line rest i acc w speaker said Hf)
    as (acc' & w1 & Hstep & Hsent & Hdirs & Hslept & Hacc).
  destruct (IH (S i) acc' w1 Hwf)
    as (sv & clips & w' & Hrun & Hsent' & Hdirs' & Hslept' & Hclips & Hsorted & Hall).
  assert (Hshift : Forall (fun jp => (i <= fst jp)%nat /\
            exists l0, (line :: rest) !! (fst jp - i)%nat = Some l0 /\
                       line_clip_path E clips_dir (fst jp) l0 = Some (snd jp)) sv).
  { eapply Forall_impl; [exact Hall|]. intros [j p] (Hle & l0 & Hl & Hp).
    cbn [fst snd] in *. split; [lia|]. exists l0. split; [|exact Hp].
    replace (j - i)%nat with (S (j - S i)) by lia. exact Hl. }
  assert (Hrequests : sent w' = sent w ++ omap (line_request E) (line :: rest)).
  { rewrite Hsent', Hsent.
    rewrite (omap_cons_Some _ _ _ _ (line_request_fields E line speaker said Hf)).
    rewrite <- app_assoc. reflexivity. }
  destruct Hacc as [->|(p & Hp & ->)].
  - exists sv, clips, w'. rewrite Hstep.
    split; [exact Hrun|]. split; [exact Hrequests|].
    split; [congruence|]. split; [congruence|]. split; [exact Hclips|].
    split; [exact Hsorted | exact Hshift].
  - exists ((i, p) :: sv), clips, w'. rewrite Hstep.
    split; [exact Hrun|]. split; [exact Hrequests|].
    split; [congruence|]. split; [congruence|].
    split; [rewrite Hclips, <- app_assoc; reflexivity|].
    split.
    + cbn [map fst]. constructor; [exact Hsorted|].
      apply Forall_fmap || apply Forall_map.
      eapply Forall_impl; [exact Hall|]. intros [j q] (Hle & _). cbn in *. lia.
    + constructor; [|exact Hshift]. cbn [fst snd]. split; [lia|].
      exists line. rewrite Nat.sub_diag. split; [reflexivity | exact Hp].
Qed.

(** *** Clip names and their order *)

Lemma ascending_lookup l : forall i j a b,
  ascending l = true -> l !! i = Some a -> l !! j = Some b -> (i < j)%nat ->
  str_ltb a b = true.
Proof.
  induction l as [|x l IH]; intros i j a b Hasc Hi Hj Hij; [discriminate|].
  cbn [ascending] in Hasc. apply andb_true_iff in Hasc as [Hx Hasc].
  destruct j as [|j]; [lia|]. cbn in Hj.
  destruct i as [|i].
  - injection Hi as <-. rewrite forallb_forall in Hx. apply Hx.
    apply list_elem_of_In. eapply list_elem_of_lookup_2. exact Hj.
  - cbn in Hi. apply (IH i j a b Hasc Hi Hj). lia.
Qed.

Lemma fmt_03d_table :
  ascending (map fmt_03d (seq 0 1000)) = true /\
  forallb (fun f => (length f =? 3)%nat && forallb is_digit f)
          (map fmt_03d (seq 0 1000)) = true.
Proof. vm_compute. split; reflexivity. Qed.

Lemma fmt_03d_lookup i :
  (i < 1000)%nat -> map fmt_03d (seq 0 1000) !! i = Some (fmt_03d i).
Proof.
  intros Hi. change (map fmt_03d (seq 0 1000)) with (fmt_03d <$> seq 0 1000).
  rewrite list_lookup_fmap, lookup_seq_lt by exact Hi. reflexivity.
Qed.

Lemma fmt_03d_small i :
  (i < 1000)%nat ->
  length (fmt_03d i) = 3%nat /\ forallb is_digit (fmt_03d i) = true.
Proof.
  intros Hi. destruct fmt_03d_table as [_ H]. rewrite forallb_forall in H.
  specialize (H (fmt_03d i)).
  destruct (andb_prop _ _ (H ltac:(apply list_elem_of_In;
    eapply list_elem_of_lookup_2; apply fmt_03d_lookup; exact Hi))) as [Hl Hd].
  apply Nat.eqb_eq in Hl. auto.
Qed.

Lemma fmt_03d_lt i j :
  (i < j)%nat -> (j < 1000)%nat -> str_ltb (fmt_03d i) (fmt_03d j) = true.
Proof.
  intros Hij Hj. destruct fmt_03d_table as [H _].
  apply (ascending_lookup _ i j _ _ H); [apply fmt_03d_lookup; lia | | exact Hij].
  apply fmt_03d_lookup. exact Hj.
Qed.

Lemma str_ltb_prefix f1 : forall f2 x y,
  length f1 = length f2 -> str_ltb f1 f2 = true ->
  str_ltb (f1 ++ x) (f2 ++ y) = true /\ str_ltb (f2 ++ y) (f1 ++ x) = false
  /\ f1 ++ x <> f2 ++ y.
Proof.
  induction f1 as [|a f1 IH]; intros [|b f2] x y Hlen Hlt; try discriminate.
  cbn [length] in Hlen. injection Hlen as Hlen.
  cbn [str_ltb app] in Hlt |- *.
  destruct (N.ltb_spec a b) as [Hab|Hab].
  - cbn [orb]. split; [reflexivity|]. split.
    + destruct (N.ltb_spec b a); [lia|]. cbn [orb].
      destruct (N.eqb_spec b a); [lia | reflexivity].
    + intros [= -> _]. lia.
  - cbn [orb] in Hlt |- *. apply andb_true_iff in Hlt as [Heq Hlt].
    apply N.eqb_eq in Heq as ->. rewrite N.eqb_refl. cbn [andb].
    destruct (IH f2 x y Hlen Hlt) as (H1 & H2 & H3).
    split; [exact H1|]. split.
    + rewrite N.ltb_irrefl. exact H2.
    + intros [= Heq]. contradiction.
Qed.

Lemma split_slash_prefix a : forall t cur,
  47 ∉ a -> exists x rest, split_slash (a ++ t) cur = (rev cur ++ a ++ x) :: rest.
Proof.
  induction a as [|c a IH]; intros t cur Ha.
  - cbn [app]. revert cur. induction t as [|d t IHt]; intros cur; cbn [split_slash].
    + exists [], []. rewrite app_nil_r. reflexivity.
    + destruct (d =? 47).
      * exists [], (split_slash t []). rewrite app_nil_r. reflexivity.
      * destruct (IHt (d :: cur)) as (x & rest & ->). exists (d :: x), rest.
        cbn [rev]. rewrite <- app_assoc. reflexivity.
  - apply not_elem_of_cons in Ha as [Hc Ha]. cbn [app split_slash].
    destruct (N.eqb_spec c 47) as [->|_]; [congruence|].
    destruct (IH t (c :: cur) Ha) as (x & rest & ->). exists x, rest.
    cbn [rev]. rewrite <- !app_assoc. reflexivity.
Qed.

Lemma clip_path_indexed clips_dir i lowered :
  (i < 1000)%nat -> indexed clips_dir i (path_div clips_dir (clip_name i lowered)).
Proof.
  intros Hi. destruct (fmt_03d_small i Hi) as [Hlen Hdig].
  unfold path_div, clip_name, is_absolute, indexed.
  replace (lit "_") with [95] by (vm_compute; reflexivity).
  destruct (fmt_03d i) as [|d1 [|d2 [|d3 [|]]]] eqn:Hf; try discriminate.
  cbn [forallb] in Hdig.
  apply andb_true_iff in Hdig as [Hd1 Hdig].
  apply andb_true_iff in Hdig as [Hd2 Hdig].
  apply andb_true_iff in Hdig as [Hd3 _].
  assert (Hns : forall d, is_digit d = true -> d <> 47).
  { intros d Hd ->. vm_compute in Hd. discriminate. }
  cbn [app startswith].
  destruct (N.eqb_spec 47 d1) as [<-|_]; [discriminate|]. cbn [andb].
  unfold parse_parts.
  destruct (split_slash_prefix [d1; d2; d3; 95]
              (lowered ++ lit ".mp3") []) as (x & rest & Hsplit).
  { intros Hx.
    apply elem_of_cons in Hx as [Hx|Hx]; [exact (Hns _ Hd1 (eq_sym Hx))|].
    apply elem_of_cons in Hx as [Hx|Hx]; [exact (Hns _ Hd2 (eq_sym Hx))|].
    apply elem_of_cons in Hx as [Hx|Hx]; [exact (Hns _ Hd3 (eq_sym Hx))|].
    apply elem_of_cons in Hx as [Hx|Hx]; [discriminate|].
    inversion Hx. }
  cbn [app rev] in Hsplit. rewrite Hsplit.
  rewrite filter_cons_True.
  2:{ unfold keep_part, str_eqb. rewrite !bool_decide_eq_false_2 by discriminate.
      reflexivity. }
  eexists _, _. reflexivity.
Qed.

Lemma path_ltb_common cd : forall h1 r1 h2 r2,
  str_ltb h1 h2 = true -> str_ltb h2 h1 = false -> h1 <> h2 ->
  path_ltb (cd ++ h1 :: r1) (cd ++ h2 :: r2) = true /\
  path_ltb (cd ++ h2 :: r2) (cd ++ h1 :: r1) = false.
Proof.
  assert (Hirr : forall s, str_ltb s s = false).
  { induction s as [|c s IH]; [reflexivity|]. cbn [str_ltb].
    rewrite N.ltb_irrefl, N.eqb_refl, IH. reflexivity. }
  induction cd as [|c cd IH]; intros h1 r1 h2 r2 H12 H21 Hne; cbn [app path_ltb].
  - rewrite H12, H21. cbn [orb]. split; [reflexivity|].
    unfold str_eqb. rewrite bool_decide_eq_false_2 by congruence. reflexivity.
  - rewrite Hirr. unfold str_eqb. rewrite bool_decide_eq_true_2 by reflexivity.
    cbn [orb andb]. apply IH; assumption.
Qed.

Lemma indexed_lt clips_dir i j p q :
  (i < j)%nat -> (j < 1000)%nat -> indexed clips_dir i p -> indexed clips_dir j q ->
  path_ltb p q = true /\ path_ltb q p = false.
Proof.
  intros Hij Hj (x & r1 & ->) (y & r2 & ->).
  destruct (fmt_03d_small i ltac:(lia)) as [Hli _].
  destruct (fmt_03d_small j Hj) as [Hlj _].
  destruct (str_ltb_prefix (fmt_03d i) (fmt_03d j) (95 :: x) (95 :: y)
              ltac:(congruence) (fmt_03d_lt i j Hij Hj)) as (H1 & H2 & H3).
  apply path_ltb_common; assumption.
Qed.

(** Sorting an ascending list leaves it as it is. *)
Lemma sorted_ascending l :
  StronglySorted (fun a b => path_ltb b a = false) l -> sorted l = l.
Proof.
  induction 1 as [|x l Hl IH Hx]; [reflexivity|].
  unfold sorted in *. cbn [foldr]. rewrite IH.
  destruct l as [|y r]; [reflexivity|]. cbn [insert_sorted].
  apply Forall_cons in Hx as [Hy _]. rewrite Hy. reflexivity.
Qed.

Lemma survivors_sorted E clips_dir lines survivors :
  (length lines <= 1000)%nat ->
  survivors_of E clips_dir lines 0 survivors ->
  sorted (map snd survivors) = map snd survivors.
Proof.
  intros Hlen [Hsorted Hall]. apply sorted_ascending.
  assert (Hidx : Forall (fun jp => (fst jp < 1000)%nat /\
                                   indexed clips_dir (fst jp) (snd jp)) survivors).
  { eapply Forall_impl; [exact Hall|]. intros [j p] (_ & line & Hl & Hp).
    cbn [fst snd] in *. apply lookup_lt_Some in Hl.
    split; [lia|]. unfold line_clip_path in Hp.
    destruct (py_getitem_str line _) as [[| | | |s| |]|]; try discriminate.
    injection Hp as <-. apply clip_path_indexed. lia. }
  clear Hall. induction survivors as [|[j p] sv IH]; [constructor|].
  cbn [map fst snd] in *.
  apply StronglySorted_inv in Hsorted as [Hsv Hj].
  apply Forall_cons in Hidx as [[Hj1000 Hp] Hidx].
  constructor; [apply IH; assumption|].
  clear IH Hsv. induction sv as [|[k q] sv IH]; [constructor|].
  cbn [map fst snd] in *.
  apply Forall_cons in Hj as [Hjk Hj].
  apply Forall_cons in Hidx as [[Hk Hq] Hidx].
  constructor; [|apply IH; assumption].
  apply (indexed_lt clips_dir j k p q Hjk Hk Hp Hq).
Qed.

(** *** The clips, line by line *)

Lemma can_write_dirs E w w' p : dirs w' = dirs w -> can_write E w' p = can_write E w p.
Proof. unfold can_write, is_dir. intros ->. reflexivity. Qed.

Lemma can_write_writable E w p : can_write E w p = true <-> writable E w p.
Proof.
  unfold can_write, writable.
  destruct (os_fault E p), (is_dir w (parent p)), (is_dir w p); cbn;
    split; try discriminate; try tauto; intros (? & ? & ?); discriminate.
Qed.

Lemma saved_clip_dirs E w w' clips_dir history i line :
  dirs w' = dirs w ->
  saved_clip E w' clips_dir history i line = saved_clip E w clips_dir history i line.
Proof.
  intros Hd. unfold saved_clip.
  destruct (py_getitem_str line (lit "speaker")) as [[| | | |s| |]|]; try reflexivity.
  destruct (py_getitem_str line (lit "text")); [|reflexivity].
  destruct (http E history _); [reflexivity|].
  cbv zeta. rewrite (can_write_dirs E w w' _ Hd). reflexivity.
Qed.

(** The world after the round of a line. *)
Definition after_round (w : World) (req : Request) (c : option Clip) : World :=
  mkWorld (match c with
           | Some c => <[clip_file c := clip_data c]> (files w)
           | None => files w
           end)
          (dirs w) (sent w ++ [req]) (slept w).

(** One round, exactly: the request is sent, and the clip list and the
    files grow by the clip of the line, if it has one. *)
Lemma voice_loop_round_exact E clips_dir line rest i acc w speaker said :
  line_fields line speaker said ->
  voice_loop E clips_dir (line :: rest) i acc w
  = voice_loop E clips_dir rest (S i)
      (match saved_clip E w clips_dir (sent w) i line with
       | Some c => acc ++ [clip_file c]
       | None => acc
       end)
      (after_round w (tts_request E (select_voice E speaker) said)
         (saved_clip E w clips_dir (sent w) i line)).
Proof.
  intros H. unfold line_fields in H. destruct H as [Hs Ht].
  unfold saved_clip. rewrite Hs, Ht.
  cbn [voice_loop]. unfold bind at 1, lift at 1. rewrite Hs.
  unfold bind at 1, lift at 1. rewrite Ht.
  unfold bind at 1, try_except, bind at 1, http_send.
  destruct speaker as [| | | |s| |].
  1-4,6-7:
    (destruct (http E (sent w) _) as [|resp]; [reflexivity|];
     unfold bind at 1, raise_for_status;
     destruct (status_ok resp); reflexivity).
  destruct (http E (sent w) _) as [|resp]; [reflexivity|].
  unfold bind at 1, raise_for_status.
  destruct (status_ok resp); [|reflexivity].
  unfold ret at 1. unfold bind at 1, lift at 1, py_lower.
  unfold bind at 1, write_bytes. cbv zeta.
  change (is_dir (mkWorld (files w) (dirs w) _ (slept w)))
    with (is_dir w).
  unfold can_write. cbn [andb].
  destruct (os_fault E _); cbn [orb negb andb]; [reflexivity|].
  destruct (is_dir w (parent _)); cbn [orb negb andb]; [|reflexivity].
  destruct (is_dir w _); reflexivity.
Qed.

(** The clips of the lines from position [i] on, the requests of
    [history] sent before. *)
Fixpoint saved_from (E : Env) (w : World) (clips_dir : Path)
    (history : list Request) (i : nat) (lines : list json) : list Clip :=
  match lines with
  | [] => []
  | line :: rest =>
    match saved_clip E w clips_dir history i line with
    | Some c => [c]
    | None => []
    end ++
    saved_from E w clips_dir
      (history ++ match line_request E line with Some q => [q] | None => [] end)
      (S i) rest
  end.

Lemma saved_from_dirs E w w' clips_dir lines : forall history i,
  dirs w' = dirs w ->
  saved_from E w' clips_dir history i lines = saved_from E w clips_dir history i lines.
Proof.
  induction lines as [|line rest IH]; intros history i Hd; [reflexivity|].
  cbn [saved_from]. rewrite (saved_clip_dirs E w w' _ _ _ _ Hd), (IH _ _ Hd).
  reflexivity.
Qed.

Lemma voice_loop_exact E clips_dir lines : forall i acc w,
  Forall well_formed_line lines ->
  voice_loop E clips_dir lines i acc w
  = (Ok (acc ++ map clip_file (saved_from E w clips_dir (sent w) i lines)),
     mkWorld (with_clips (files w) (saved_from E w clips_dir (sent w) i lines))
       (dirs w) (sent w ++ omap (line_request E) lines) (slept w)).
Proof.
  induction lines as [|line rest IH]; intros i acc w Hwf.
  { cbn [voice_loop saved_from map omap with_clips fold_left]. unfold ret.
    rewrite !app_nil_r. destruct w; reflexivity. }
  apply Forall_cons in Hwf as [(speaker & said & Hf) Hwf].
  rewrite (voice_loop_round_exact E clips_dir line rest i acc w speaker said Hf).
  rewrite (IH _ _ _ Hwf).
  rewrite (omap_cons_Some _ _ _ _ (line_request_fields E line speaker said Hf)).
  cbn [saved_from]. rewrite (line_request_fields E line speaker said Hf).
  rewrite (saved_from_dirs E w (after_round w _ _)) by reflexivity.
  unfold after_round. cbn [sent dirs slept files].
  rewrite <- (app_assoc (sent w)). cbn [app].
  destruct (saved_clip E w clips_dir (sent w) i line) as [c|].
  - cbn [app map with_clips fold_left]. rewrite <- app_assoc. reflexivity.
  - reflexivity.
Qed.

(** Position by position, the clips are those of [saved_clips]. *)
Lemma saved_from_positions E w clips_dir rest : forall pre,
  Forall well_formed_line pre -> Forall well_formed_line rest ->
  saved_from E w clips_dir (sent w ++ omap (line_request E) pre) (length pre) rest
  = omap (fun i =>
            match (pre ++ rest) !! i with
            | Some line =>
              saved_clip E w clips_dir
                (sent w ++ omap (line_request E) (take i (pre ++ rest))) i line
            | None => None
            end)
         (seq (length pre) (length rest)).
Proof.
  induction rest as [|line rest IH]; intros pre Hpre Hrest; [reflexivity|].
  apply Forall_cons in Hrest as [(speaker & said & Hf) Hrest].
  cbn [saved_from length seq omap list_omap].
  rewrite (lookup_app_r pre), Nat.sub_diag by lia. cbn [lookup list_lookup].
  rewrite take_app_length.
  rewrite (line_request_fields E line speaker said Hf).
  specialize (IH (pre ++ [line])).
  rewrite length_app, Nat.add_1_r in IH. rewrite <- (app_assoc pre) in IH.
  cbn [app] in IH. rewrite <- IH; [|clear IH|exact Hrest].
  - rewrite omap_app. cbn [omap list_omap].
    rewrite (line_request_fields E line speaker said Hf).
    rewrite app_assoc.
    destruct (saved_clip E w clips_dir _ (length pre) line); reflexivity.
  - apply Forall_app. split; [exact Hpre|]. apply Forall_cons.
    split; [eexists _, _; exact Hf | apply Forall_nil_2].
Qed.

Lemma saved_from_clips E w clips_dir lines :
  Forall well_formed_line lines ->
  saved_from E w clips_dir (sent w) 0 lines = saved_clips E w clips_dir lines.
Proof.
  intros Hwf. unfold saved_clips.
  pose proof (saved_from_positions E w clips_dir lines [] (Forall_nil_2 _) Hwf) as H.
  cbn [omap list_omap length app] in H. rewrite app_nil_r in H. exact H.
Qed.

(** The positions of the clips ascend, and each clip is the one of the
    line at its position. *)
Lemma saved_from_survivors E w clips_dir lines : forall history i,
  survivors_of E clips_dir lines i
    (map (fun c => (position c, clip_file c))
         (saved_from E w clips_dir history i lines)).
Proof.
  induction lines as [|line rest IH]; intros history i.
  { split; constructor. }
  cbn [saved_from].
  destruct (IH (history ++ match line_request E line with
                           | Some q => [q]
                           | None => []
                           end) (S i)) as [Hsorted Hall].
  assert (Hshift : Forall (fun jp => (i <= fst jp)%nat /\
            exists l0, (line :: rest) !! (fst jp - i)%nat = Some l0 /\
                       line_clip_path E clips_dir (fst jp) l0 = Some (snd jp))
            (map (fun c => (position c, clip_file c))
                 (saved_from E w clips_dir
                    (history ++ match line_request E line with
                                | Some q => [q]
                                | None => []
                                end) (S i) rest))).
  { eapply Forall_impl; [exact Hall|]. intros [j p] (Hle & l0 & Hl & Hp).
    cbn [fst snd] in *. split; [lia|]. exists l0. split; [|exact Hp].
    replace (j - i)%nat with (S (j - S i)) by lia. exact Hl. }
  destruct (saved_clip E w clips_dir history i line) as [c|] eqn:Hc.
  2:{ cbn [app]. split; [exact Hsorted | exact Hshift]. }
  cbn [app map].
  assert (Hci : position c = i /\ line_clip_path E clips_dir i line = Some (clip_file c)).
  { revert Hc. unfold saved_clip, line_clip_path.
    destruct (py_getitem_str line (lit "speaker")) as [[| | | |s| |]|]; try discriminate.
    destruct (py_getitem_str line (lit "text")); [|discriminate].
    destruct (http E history _) as [|resp]; [discriminate|]. cbv zeta.
    destruct (status_ok resp && can_write E w _); [|discriminate].
    intros [= <-]. split; reflexivity. }
  destruct Hci as [Hpos Hpath]. split.
  - cbn [map fst]. constructor; [exact Hsorted|].
    rewrite Hpos. apply Forall_map.
    eapply Forall_impl; [exact Hall|]. intros [j q] (Hle & _). cbn in *. lia.
  - constructor; [|exact Hshift]. cbn [fst snd]. rewrite Hpos. split; [lia|].
    exists line. rewrite Nat.sub_diag. split; [reflexivity | exact Hpath].
Qed.

(** Clips named after ascending positions below 1000 have strictly
    ascending names. *)
Lemma indexed_ascending clips_dir (tagged : list (nat * Path)) :
  Forall (fun jp => (fst jp < 1000)%nat /\ indexed clips_dir (fst jp) (snd jp)) tagged ->
  StronglySorted lt (map fst tagged) ->
  StronglySorted (fun a b => path_ltb a b = true /\ path_ltb b a = false)
    (map snd tagged).
Proof.
  intros Hidx Hsorted. induction tagged as [|[j p] sv IH]; [constructor|].
  cbn [map fst snd] in *.
  apply StronglySorted_inv in Hsorted as [Hsv Hj].
  apply Forall_cons in Hidx as [[Hj1000 Hp] Hidx].
  constructor; [apply IH; assumption|].
  clear IH Hsv. induction sv as [|[k q] sv IH]; [constructor|].
  cbn [map fst snd] in *.
  apply Forall_cons in Hj as [Hjk Hj].
  apply Forall_cons in Hidx as [[Hk Hq] Hidx].
  constructor; [|apply IH; assumption].
  apply (indexed_lt clips_dir j k p q Hjk Hk Hp Hq).
Qed.

(** Up to 1000 lines the names of the surviving clips ascend strictly. *)
Lemma survivors_ascending E clips_dir lines survivors :
  (length lines <= 1000)%nat ->
  survivors_of E clips_dir lines 0 survivors ->
  StronglySorted (fun a b => path_ltb a b = true /\ path_ltb b a = false)
    (map snd survivors).
Proof.
  intros Hlen [Hsorted Hall]. apply (indexed_ascending clips_dir); [|exact Hsorted].
  eapply Forall_impl; [exact Hall|]. intros [j p] (_ & line & Hl & Hp).
  cbn [fst snd] in *. apply lookup_lt_Some in Hl.
  split; [lia|]. unfold line_clip_path in Hp.
  destruct (py_getitem_str line _) as [[| | | |s| |]|]; try discriminate.
  injection Hp as <-. apply clip_path_indexed. lia.
Qed.

Lemma saved_clip_position E w clips_dir history i line c :
  saved_clip E w clips_dir history i line = Some c -> position c = i.
Proof.
  unfold saved_clip.
  destruct (py_getitem_str line (lit "speaker")) as [[| | | |s| |]|]; try discriminate.
  destruct (py_getitem_str line (lit "text")); [|discriminate].
  destruct (http E history _) as [|resp]; [discriminate|]. cbv zeta.
  destruct (status_ok resp && can_write E w _); [|discriminate].
  intros [= <-]. reflexivity.
Qed.

(** A clip is saved exactly when the round of its own line saves it. *)
Lemma saved_clips_elem E w clips_dir lines c :
  c ∈ saved_clips E w clips_dir lines <->
  exists line, lines !! position c = Some line /\
    saved_clip E w clips_dir
      (sent w ++ omap (line_request E) (take (position c) lines)) (position c) line
    = Some c.
Proof.
  unfold saved_clips. rewrite list_elem_of_omap. split.
  - intros (i & _ & Hi). destruct (lines !! i) as [line|] eqn:Hl; [|discriminate].
    pose proof (saved_clip_position _ _ _ _ _ _ _ Hi) as Hp. rewrite Hp.
    exists line. split; assumption.
  - intros (line & Hl & Hc). exists (position c). split.
    + apply elem_of_seq. apply lookup_lt_Some in Hl. lia.
    + rewrite Hl. exact Hc.
Qed.

Lemma StronglySorted_weaken {A} (R S : A -> A -> Prop) (l : list A) :
  (forall a b, R a b -> S a b) -> StronglySorted R l -> StronglySorted S l.
Proof.
  intros HRS. induction 1 as [|x l Hl IH Hx]; constructor; [exact IH|].
  eapply Forall_impl; [exact Hx|]. intros b. apply HRS.
Qed.

(** C5.  Once the clips directory is in place: without synthesis
    credentials the result is empty; otherwise, for a script of
    well-formed lines, every line is sent for synthesis in script order
    whether or not earlier lines failed, the call returns, and the clips
    returned are exactly those of [saved_clips]: the line at a position
    has its clip in the result, under the name of that position and with
    the data of the answer on disk, exactly when its own request is
    answered without error status and its file can be written, whatever
    became of the other lines.  The positions of the clips ascend.  For
    scripts of at most 1000 lines the names ascend strictly, so that
    sorting the clips by name leaves them in speaking order.  With five
    lines of which the third fails, the clips are those of positions 0,
    1, 3 and 4. *)
Theorem voice_clips_keep_positions (E : Env) (lines : list json) (job : str)
    (w w1 : World) :
  mkdir_p E (clips_dir_of job) w = (Ok tt, w1) ->
  (ELEVENLABS_API_KEY E = [] ->
     generate_voice_clips E (JArray lines) job w = (Ok [], w1))
  /\ (ELEVENLABS_API_KEY E <> [] -> Forall well_formed_line lines ->
      generate_voice_clips E (JArray lines) job w
      = (Ok (map clip_file (saved_clips E w1 (clips_dir_of job) lines)),
         mkWorld (with_clips (files w) (saved_clips E w1 (clips_dir_of job) lines))
           (dirs w1) (sent w ++ omap (line_request E) lines) (slept w))
      /\ (forall c, c ∈ saved_clips E w1 (clips_dir_of job) lines <->
            exists line, lines !! position c = Some line /\
              saved_clip E w1 (clips_dir_of job)
                (sent w ++ omap (line_request E) (take (position c) lines))
                (position c) line = Some c)
      /\ survivors_of E (clips_dir_of job) lines 0
           (map (fun c => (position c, clip_file c))
                (saved_clips E w1 (clips_dir_of job) lines))
      /\ ((length lines <= 1000)%nat ->
          StronglySorted (fun a b => path_ltb a b = true /\ path_ltb b a = false)
            (map clip_file (saved_clips E w1 (clips_dir_of job) lines))
          /\ sorted (map clip_file (saved_clips E w1 (clips_dir_of job) lines))
             = map clip_file (saved_clips E w1 (clips_dir_of job) lines)))
  /\ fst (generate_voice_clips Fixtures.env_voice_third_fails
            (JArray Fixtures.five_lines) Fixtures.job0 Fixtures.w0)
     = Ok [path_div (clips_dir_of Fixtures.job0) (lit "000_alex.mp3");
           path_div (clips_dir_of Fixtures.job0) (lit "001_sam.mp3");
           path_div (clips_dir_of Fixtures.job0) (lit "003_sam.mp3");
           path_div (clips_dir_of Fixtures.job0) (lit "004_alex.mp3")]
  /\ map position
       (saved_clips Fixtures.env_voice_third_fails Fixtures.w_clips
          (clips_dir_of Fixtures.job0) Fixtures.five_lines)
     = [0; 1; 3; 4]%nat.
Proof.
  intros Hmk.
  assert (Hw1 : files w1 = files w /\ sent w1 = sent w /\ slept w1 = slept w).
  { unfold mkdir_p in Hmk.
    destruct (os_fault E (clips_dir_of job)); [discriminate|].
    destruct (existsb _ _); [discriminate|].
    injection Hmk as <-. repeat split. }
  destruct Hw1 as (Hfiles & Hsent & Hslept).
  split; [|split; [|split]].
  - intros Hkey. unfold generate_voice_clips, bind. rewrite Hmk, Hkey. reflexivity.
  - intros Hkey Hwf.
    assert (Hsv : survivors_of E (clips_dir_of job) lines 0
                    (map (fun c => (position c, clip_file c))
                         (saved_clips E w1 (clips_dir_of job) lines))).
    { rewrite <- (saved_from_clips E w1 (clips_dir_of job) lines Hwf).
      apply saved_from_survivors. }
    split; [|split; [|split]].
    + unfold generate_voice_clips, bind at 1. rewrite Hmk.
      destruct (ELEVENLABS_API_KEY E) as [|k0 key]; [congruence|].
      unfold bind, lift, py_iter.
      rewrite (voice_loop_exact E (clips_dir_of job) lines 0 [] w1 Hwf).
      rewrite (saved_from_clips E w1 (clips_dir_of job) lines Hwf).
      rewrite Hfiles, Hsent, Hslept. reflexivity.
    + intros c. rewrite <- Hsent. apply saved_clips_elem.
    + exact Hsv.
    + intros Hlen.
      pose proof (survivors_ascending E (clips_dir_of job) lines _ Hlen Hsv) as Hasc.
      rewrite map_map in Hasc. cbn [snd] in Hasc. split; [exact Hasc|].
      apply sorted_ascending.
      eapply StronglySorted_weaken; [|exact Hasc]. intros a b [_ Hba]. exact Hba.
  - vm_compute. reflexivity.
  - vm_compute. reflexivity.
Qed.

Lemma voice_clips_keep_positions_witness :
  generate_voice_clips Fixtures.env_offline (JArray Fixtures.five_lines)
    Fixtures.job0 Fixtures.w0 = (Ok [], Fixtures.w_clips)
  /\ fst (generate_voice_clips Fixtures.env_voice (JArray Fixtures.five_lines)
            Fixtures.job0 Fixtures.w0)
     = Ok (map clip_file
             (saved_clips Fixtures.env_voice Fixtures.w_clips
                (clips_dir_of Fixtures.job0) Fixtures.five_lines))
  /\ sorted (map clip_file
               (saved_clips Fixtures.env_voice Fixtures.w_clips
                  (clips_dir_of Fixtures.job0) Fixtures.five_lines))
     = map clip_file
         (saved_clips Fixtures.env_voice Fixtures.w_clips
            (clips_dir_of Fixtures.job0) Fixtures.five_lines).
Proof.
  assert (Hoff : mkdir_p Fixtures.env_offline (clips_dir_of Fixtures.job0) Fixtures.w0
                 = (Ok tt, Fixtures.w_clips)) by (vm_compute; reflexivity).
  assert (Hon : mkdir_p Fixtures.env_voice (clips_dir_of Fixtures.job0) Fixtures.w0
                = (Ok tt, Fixtures.w_clips)) by (vm_compute; reflexivity).
  split.
  - apply (voice_clips_keep_positions Fixtures.env_offline Fixtures.five_lines
             Fixtures.job0 Fixtures.w0 Fixtures.w_clips Hoff). reflexivity.
  - destruct (voice_clips_keep_positions Fixtures.env_voice Fixtures.five_lines
                Fixtures.job0 Fixtures.w0 Fixtures.w_clips Hon) as (_ & H & _).
    assert (Hkey : ELEVENLABS_API_KEY Fixtures.env_voice <> [])
      by (vm_compute; discriminate).
    assert (Hwf : Forall well_formed_line Fixtures.five_lines).
    { repeat (apply Forall_cons; split;
              [eexists _, _; split; vm_compute; reflexivity|]).
      apply Forall_nil_2. }
    destruct (H Hkey Hwf) as (Hrun & _ & _ & Hsorted).
    split; [rewrite Hrun; reflexivity|].
    apply Hsorted. vm_compute. lia.
Defined.

(** Beyond 1000 lines the names no longer sort in speaking order: a
    script of 1001 lines whose lines are all synthesized yields 1001
    clips, and sorting them by name does not give the speaking order (the
    name of position 1000 sorts before that of position 999). *)
Lemma voice_clips_order_counterexample :
  fst (generate_voice_clips Fixtures.env_voice (JArray Fixtures.long_script)
         Fixtures.job0 Fixtures.w0) = Ok Fixtures.long_clips
  /\ length Fixtures.long_clips = 1001%nat
  /\ sorted Fixtures.long_clips <> Fixtures.long_clips.
Proof.
  split; [vm_compute; reflexivity|]. split; [vm_compute; reflexivity|].
  intros H. apply (bool_decide_eq_true_2 _) in H. vm_compute in H. discriminate.
Qed.

(** ** Voice selection (C10) *)

Lemma select_voice_other E speaker :
  speaker <> JString (lit "Alex") -> select_voice E speaker = ELEVENLABS_VOICE_SAM E.
Proof.
  intros Hne. unfold select_voice, py_eq_str.
  destruct speaker as [| | | |s| |]; try reflexivity.
  unfold str_eqb. rewrite bool_decide_eq_false_2; [reflexivity|].
  intros ->. contradiction.
Qed.

(** C10.  Any speaker other than the string Alex is given the Sam voice:
    the request of such a line goes to the Sam voice, and when the request
    is answered and the clip file can be written the line yields its clip
    like any other (no label is refused). *)
Theorem unknown_speaker_gets_sam_voice (E : Env) :
  (forall speaker, speaker <> JString (lit "Alex") ->
     select_voice E speaker = ELEVENLABS_VOICE_SAM E)
  /\ select_voice E (JString (lit "Alex")) = ELEVENLABS_VOICE_ALEX E
  /\ (forall clips_dir line rest i acc w speaker said,
      line_fields line speaker said -> speaker <> JString (lit "Alex") ->
      exists acc' w',
        voice_loop E clips_dir (line :: rest) i acc w
          = voice_loop E clips_dir rest (S i) acc' w'
        /\ sent w' = sent w ++ [tts_request E (ELEVENLABS_VOICE_SAM E) said])
  /\ (forall clips_dir line rest i acc w s said resp,
      line_fields line (JString s) said -> s <> lit "Alex" ->
      http E (sent w) (tts_request E (ELEVENLABS_VOICE_SAM E) said) = HttpReturns resp ->
      status_ok resp = true ->
      writable E w (path_div clips_dir (clip_name i (str_lower E s))) ->
      voice_loop E clips_dir (line :: rest) i acc w
      = voice_loop E clips_dir rest (S i)
          (acc ++ [path_div clips_dir (clip_name i (str_lower E s))])
          (mkWorld (<[path_div clips_dir (clip_name i (str_lower E s)) := content resp]>
                      (files w))
                   (dirs w)
                   (sent w ++ [tts_request E (ELEVENLABS_VOICE_SAM E) said])
                   (slept w))).
Proof.
  split; [apply select_voice_other|]. split; [reflexivity|]. split.
  - intros clips_dir line rest i acc w speaker said Hf Hne.
    destruct (voice_loop_step E clips_dir line rest i acc w speaker said Hf)
      as (acc' & w' & Hstep & Hsent & _).
    exists acc', w'. split; [exact Hstep|].
    rewrite Hsent, (select_voice_other E speaker Hne). reflexivity.
  - intros clips_dir line rest i acc w s said resp Hf Hne Hh Hok Hw.
    assert (Hv : select_voice E (JString s) = ELEVENLABS_VOICE_SAM E).
    { apply select_voice_other. intros [= ->]. contradiction. }
    rewrite <- Hv in Hh |- *.
    apply voice_loop_step_success; assumption.
Qed.

Lemma unknown_speaker_gets_sam_voice_witness :
  fst (voice_loop Fixtures.env_voice (clips_dir_of Fixtures.job0)
         [Fixtures.narrator_line] 0 [] Fixtures.w_clips)
  = Ok [path_div (clips_dir_of Fixtures.job0) (lit "000_narrator.mp3")]
  /\ select_voice Fixtures.env_voice (JString (lit "Narrator")) = lit "AZnzlk1XvdvUeBnXmlld".
Proof.
  destruct (unknown_speaker_gets_sam_voice Fixtures.env_voice) as (Hsel & _ & _ & Hstep).
  split.
  - rewrite (Hstep (clips_dir_of Fixtures.job0) Fixtures.narrator_line [] 0%nat []
               Fixtures.w_clips (lit "Narrator") (JString (lit "Meanwhile..."))
               Fixtures.audio_response).
    + vm_compute. reflexivity.
    + split; vm_compute; reflexivity.
    + vm_compute. discriminate.
    + vm_compute. reflexivity.
    + reflexivity.
    + repeat split; vm_compute; reflexivity.
  - rewrite Hsel; [vm_compute; reflexivity|]. vm_compute. discriminate.
Defined.

(** ** Jingle generation (C6) *)

Ltac poll_facts :=
  cbn [sent slept dirs repeat app length]; rewrite <- ?app_assoc;
  repeat (split; [first [reflexivity | lia]|]).

Ltac poll_done :=
  eexists _, _, 1%nat, []; split; [reflexivity|];
  poll_facts; intros ? ?; discriminate.

Ltac download_done :=
  eexists _, _, 1%nat, [_]; split; [reflexivity|];
  poll_facts; intros ? ?; discriminate.

(** Every run of the polling loop makes at most [n] polls, waits two
    seconds before each of them, and sends nothing else but one download
    at most. *)
Lemma poll_jingle_bound E task_id job : forall n w,
  exists r w' k extra,
    poll_jingle E n task_id job w = (r, w')
    /\ (k <= n)%nat
    /\ slept w' = (slept w + 2 * k)%nat
    /\ sent w' = sent w ++ repeat (query_request E task_id) k ++ extra
    /\ (length extra <= 1)%nat
    /\ dirs w' = dirs w
    /\ (forall p, r = Ok (Some p) ->
          p = jingle_path_of job /\ extra <> [] /\ is_Some (files w' !! p)).
Proof.
  induction n as [|n IH]; intros w.
  { exists (Ok None), w, 0%nat, []. cbn [poll_jingle repeat app length].
    rewrite app_nil_r, Nat.add_0_r.
    repeat (split; [first [reflexivity | lia]|]). intros ? ?; discriminate. }
  cbn [poll_jingle]. unfold bind at 1, sleep.
  unfold bind at 1, http_send. cbn [sent files dirs slept].
  destruct (http E (sent w) (query_request E task_id)) as [|resp]; [poll_done|].
  unfold bind at 1, raise_for_status.
  destruct (status_ok resp); [|poll_done].
  unfold ret at 1. unfold bind at 1, resp_json.
  destruct (body_json resp) as [status_data|]; [|poll_done].
  unfold ret at 1. unfold bind at 1, lift at 1.
  destruct (py_get status_data _ JNull) as [status|]; [|poll_done].
  destruct (py_eq_str status _).
  - unfold bind at 1, lift at 1.
    destruct (py_get status_data _ _) as [file|]; [|poll_done].
    unfold bind at 1, lift at 1.
    destruct (py_get file _ JNull) as [audio_url|]; [|poll_done].
    destruct (truthy audio_url); cbn [negb]; [|poll_done].
    unfold bind at 1.
    destruct audio_url as [| | | |u| |]; try poll_done.
    unfold http_send. cbn [sent files dirs slept].
    match goal with |- context [http E ?h ?q] => destruct (http E h q) as [|dl] end.
    { download_done. }
    unfold bind at 1, raise_for_status.
    destruct (status_ok dl).
    2:{ download_done. }
    unfold ret at 1. unfold bind at 1.
    match goal with |- context [write_bytes E ?p ?d ?w0] =>
      destruct (write_bytes E p d w0) as [[[]|e] w1] eqn:Hw;
      apply write_bytes_inv in Hw as (Hsent & Hdirs & Hslept & Hw)
    end.
    + cbn [sent slept dirs] in Hsent, Hdirs, Hslept.
      eexists _, _, 1%nat, [_]. split; [reflexivity|].
      rewrite Hsent, Hdirs, Hslept. poll_facts.
      intros p Hp. injection Hp as <-. split; [reflexivity|]. split; [discriminate|].
      destruct Hw as [[Hr _]|(_ & _ & ->)]; [discriminate|].
      rewrite lookup_insert_eq. eauto.
    + cbn [sent slept dirs] in Hsent, Hdirs, Hslept.
      eexists _, _, 1%nat, [_]. split; [reflexivity|].
      rewrite Hsent, Hdirs, Hslept. poll_facts.
      intros ? ?; discriminate.
  - destruct (py_eq_str status _); [poll_done|].
    destruct (IH (mkWorld (files w) (dirs w) (sent w ++ [query_request E task_id])
                          (slept w + 2)))
      as (r & w' & k & extra & Hrun & Hk & Hslept & Hsent & Hextra & Hdirs & Hsome).
    exists r, w', (S k), extra. split; [exact Hrun|].
    cbn [sent slept dirs] in Hslept, Hsent, Hdirs.
    split; [lia|]. split; [lia|]. split.
    { rewrite Hsent. cbn [repeat app]. rewrite <- app_assoc. reflexivity. }
    split; [exact Hextra|]. split; [exact Hdirs | exact Hsome].
Qed.

Lemma poll_pending_step E task_id job n w resp :
  http E (sent w) (query_request E task_id) = HttpReturns resp ->
  pending_answer resp ->
  poll_jingle E (S n) task_id job w = poll_jingle E n task_id job (polled E task_id w).
Proof.
  intros Hh (data & st & (Hok & Hj & Hst) & Hs & Hf).
  cbn [poll_jingle]. unfold bind at 1, sleep.
  unfold bind at 1, http_send. cbn [sent files dirs slept]. rewrite Hh.
  unfold bind at 1, raise_for_status. rewrite Hok.
  unfold ret at 1. unfold bind at 1, resp_json. rewrite Hj.
  unfold ret at 1. unfold bind at 1, lift at 1. rewrite Hst, Hs, Hf.
  reflexivity.
Qed.

Lemma poll_failed_step E task_id job n w resp :
  http E (sent w) (query_request E task_id) = HttpReturns resp ->
  failed_answer resp ->
  poll_jingle E (S n) task_id job w = (Ok None, polled E task_id w).
Proof.
  intros Hh (data & st & (Hok & Hj & Hst) & Hs & Hf).
  cbn [poll_jingle]. unfold bind at 1, sleep.
  unfold bind at 1, http_send. cbn [sent files dirs slept]. rewrite Hh.
  unfold bind at 1, raise_for_status. rewrite Hok.
  unfold ret at 1. unfold bind at 1, resp_json. rewrite Hj.
  unfold ret at 1. unfold bind at 1, lift at 1. rewrite Hst, Hs, Hf.
  reflexivity.
Qed.

Lemma poll_success_step E task_id job n w resp u dl :
  http E (sent w) (query_request E task_id) = HttpReturns resp ->
  success_answer resp u ->
  http E (sent w ++ [query_request E task_id]) (download_request u) = HttpReturns dl ->
  status_ok dl = true ->
  writable E w (jingle_path_of job) ->
  poll_jingle E (S n) task_id job w
  = (Ok (Some (jingle_path_of job)),
     mkWorld (<[jingle_path_of job := content dl]> (files w)) (dirs w)
             (sent w ++ [query_request E task_id] ++ [download_request u])
             (slept w + 2)).
Proof.
  intros Hh (data & st & file & (Hok & Hj & Hst) & Hs & Hfile & Hurl & Hu) Hd Hdok Hw.
  cbn [poll_jingle]. unfold bind at 1, sleep.
  unfold bind at 1, http_send. cbn [sent files dirs slept]. rewrite Hh.
  unfold bind at 1, raise_for_status. rewrite Hok.
  unfold ret at 1. unfold bind at 1, resp_json. rewrite Hj.
  unfold ret at 1. unfold bind at 1, lift at 1. rewrite Hst, Hs.
  unfold bind at 1, lift at 1. rewrite Hfile.
  unfold bind at 1, lift at 1. rewrite Hurl.
  destruct u as [|c u]; [congruence|]. cbn [truthy negb].
  unfold bind at 1. cbn [sent files dirs slept]. rewrite Hd.
  unfold bind at 1. rewrite Hdok. unfold ret at 1.
  unfold bind at 1. rewrite write_bytes_ok.
  2:{ destruct Hw as (H1 & H2 & H3). repeat split; assumption. }
  unfold ret, set_files. cbn [sent files dirs slept].
  rewrite <- app_assoc. reflexivity.
Qed.

Lemma world_eq f d s1 s2 t1 t2 :
  s1 = s2 -> t1 = t2 -> mkWorld f d s1 t1 = mkWorld f d s2 t2.
Proof. intros -> ->. reflexivity. Qed.

(** After [m] pending polls the loop stands [m] rounds further. *)
Lemma poll_after_pending E task_id job n : forall m w,
  (forall i, (i < m)%nat -> exists resp,
      http E (sent w ++ repeat (query_request E task_id) i) (query_request E task_id)
        = HttpReturns resp /\ pending_answer resp) ->
  poll_jingle E (m + n) task_id job w
  = poll_jingle E n task_id job
      (mkWorld (files w) (dirs w) (sent w ++ repeat (query_request E task_id) m)
               (slept w + 2 * m)).
Proof.
  induction m as [|m IH]; intros w Hpend.
  - cbn [Nat.add repeat]. f_equal. destruct w as [f d s t]. cbn [files dirs sent slept].
    apply world_eq; [rewrite app_nil_r; reflexivity | lia].
  - destruct (Hpend 0%nat ltac:(lia)) as (resp & Hh & Hp).
    cbn [repeat] in Hh. rewrite app_nil_r in Hh.
    cbn [Nat.add]. rewrite (poll_pending_step E task_id job (m + n) w resp Hh Hp).
    rewrite IH.
    + f_equal. unfold polled. cbn [files dirs sent slept].
      apply world_eq; [rewrite <- app_assoc; reflexivity | lia].
    + intros i Hi. destruct (Hpend (S i) ltac:(lia)) as (r & Hr & Hpr).
      exists r. split; [|exact Hpr]. unfold polled. cbn [sent].
      rewrite <- app_assoc. exact Hr.
Qed.

(** With the task submitted, the stage is the polling loop of thirty
    rounds, its exceptions turned into an absent jingle. *)
Lemma generate_jingle_submitted E topic job w task_id :
  task_submitted E w task_id ->
  generate_jingle E topic job w
  = try_except (poll_jingle E 30 task_id job) (fun _ => ret None)
      (mkWorld (files w) (dirs w) (sent w ++ [submit_request E]) (slept w)).
Proof.
  intros (Hk & Hg & resp & data & Hh & Hok & Hj & Hin & Htid).
  unfold generate_jingle.
  destruct (MINIMAX_API_KEY E); [congruence|].
  destruct (MINIMAX_GROUP_ID E); [congruence|].
  unfold try_except at 1. unfold bind at 1, http_send. rewrite Hh.
  unfold bind at 1, raise_for_status. rewrite Hok.
  unfold ret at 1. unfold bind at 1, resp_json. rewrite Hj.
  unfold ret at 1. unfold bind at 1, lift at 1. rewrite Hin. cbn [negb].
  unfold bind at 1, lift at 1. rewrite Htid.
  unfold try_except. reflexivity.
Qed.

Lemma generate_jingle_total E topic job w :
  exists r w' k,
    generate_jingle E topic job w = (Ok r, w')
    /\ (k <= 30)%nat
    /\ slept w' = (slept w + 2 * k)%nat
    /\ (length (sent w') <= length (sent w) + k + 2)%nat
    /\ dirs w' = dirs w
    /\ (forall p, r = Some p -> p = jingle_path_of job /\ is_Some (files w' !! p)).
Proof.
  assert (Hnone : forall w1 : World,
             slept w1 = slept w -> dirs w1 = dirs w ->
             (length (sent w1) <= length (sent w) + 1)%nat ->
             exists r w' k,
               (Ok (@None Path), w1) = (Ok r, w')
               /\ (k <= 30)%nat
               /\ slept w' = (slept w + 2 * k)%nat
               /\ (length (sent w') <= length (sent w) + k + 2)%nat
               /\ dirs w' = dirs w
               /\ (forall p, r = Some p ->
                     p = jingle_path_of job /\ is_Some (files w' !! p))).
  { intros w1 Hs Hd Hl. exists None, w1, 0%nat.
    split; [reflexivity|]. split; [lia|]. split; [lia|]. split; [lia|].
    split; [exact Hd|]. intros ? ?; discriminate. }
  unfold generate_jingle.
  destruct (MINIMAX_API_KEY E) as [|k0 key]; [apply Hnone; [reflexivity..|lia]|].
  destruct (MINIMAX_GROUP_ID E) as [|g0 grp]; [apply Hnone; [reflexivity..|lia]|].
  unfold try_except at 1. unfold bind at 1, http_send.
  destruct (http E (sent w) _) as [|resp].
  { apply Hnone; cbn [sent slept dirs]; [reflexivity..|]. rewrite length_app. cbn. lia. }
  unfold bind at 1, raise_for_status. destruct (status_ok resp).
  2:{ apply Hnone; cbn [sent slept dirs]; [reflexivity..|]. rewrite length_app. cbn. lia. }
  unfold ret at 1. unfold bind at 1, resp_json.
  destruct (body_json resp) as [data|].
  2:{ apply Hnone; cbn [sent slept dirs]; [reflexivity..|]. rewrite length_app. cbn. lia. }
  unfold ret at 1. unfold bind at 1, lift at 1.
  destruct (py_contains_str _ data) as [has|].
  2:{ apply Hnone; cbn [sent slept dirs]; [reflexivity..|]. rewrite length_app. cbn. lia. }
  destruct has; cbn [negb].
  2:{ apply Hnone; cbn [sent slept dirs]; [reflexivity..|]. rewrite length_app. cbn. lia. }
  unfold bind at 1, lift at 1.
  destruct (py_getitem_str data _) as [task_id|].
  2:{ apply Hnone; cbn [sent slept dirs]; [reflexivity..|]. rewrite length_app. cbn. lia. }
  destruct (poll_jingle_bound E task_id job 30
              (mkWorld (files w) (dirs w) (sent w ++ [submit_request E]) (slept w)))
    as (r & w' & k & extra & Hrun & Hk & Hslept & Hsent & Hextra & Hdirs & Hsome).
  cbn [sent slept dirs] in Hslept, Hsent, Hdirs. rewrite Hrun.
  assert (Hlen : (length (sent w') <= length (sent w) + k + 2)%nat).
  { rewrite Hsent, !length_app, repeat_length. cbn [length]. lia. }
  destruct r as [[p|]|e].
  - exists (Some p), w', k. repeat (split; [first [reflexivity | assumption]|]).
    intros q [= <-]. destruct (Hsome p eq_refl) as (Hp & _ & Hfile). auto.
  - exists None, w', k. repeat (split; [first [reflexivity | assumption]|]).
    intros ? ?; discriminate.
  - exists None, w', k. unfold ret.
    repeat (split; [first [reflexivity | assumption]|]).
    intros ? ?; discriminate.
Qed.

Lemma poll_transport_step E task_id job n w :
  http E (sent w) (query_request E task_id) = HttpFails ->
  poll_jingle E (S n) task_id job w = (Raise TransportError, polled E task_id w).
Proof.
  intros Hh. cbn [poll_jingle]. unfold bind at 1, sleep.
  unfold bind at 1, http_send. cbn [sent files dirs slept]. rewrite Hh.
  reflexivity.
Qed.

Lemma poll_download_step E task_id job n w resp u :
  http E (sent w) (query_request E task_id) = HttpReturns resp ->
  success_answer resp u ->
  http E (sent w ++ [query_request E task_id]) (download_request u) = HttpFails ->
  poll_jingle E (S n) task_id job w
  = (Raise TransportError,
     mkWorld (files w) (dirs w)
             (sent w ++ [query_request E task_id] ++ [download_request u])
             (slept w + 2)).
Proof.
  intros Hh (data & st & file & (Hok & Hj & Hst) & Hs & Hfile & Hurl & Hu) Hd.
  cbn [poll_jingle]. unfold bind at 1, sleep.
  unfold bind at 1, http_send. cbn [sent files dirs slept]. rewrite Hh.
  unfold bind at 1, raise_for_status. rewrite Hok.
  unfold ret at 1. unfold bind at 1, resp_json. rewrite Hj.
  unfold ret at 1. unfold bind at 1, lift at 1. rewrite Hst, Hs.
  unfold bind at 1, lift at 1. rewrite Hfile.
  unfold bind at 1, lift at 1. rewrite Hurl.
  destruct u as [|c u]; [congruence|]. cbn [truthy negb].
  unfold bind at 1. cbn [sent files dirs slept]. rewrite Hd.
  rewrite <- app_assoc. reflexivity.
Qed.

Lemma poll_history_app E w task_id i :
  poll_history E w task_id i
  = (sent w ++ [submit_request E]) ++ repeat (query_request E task_id) i.
Proof. unfold poll_history. rewrite <- app_assoc. reflexivity. Qed.

(** The stage after [m] pending polls, with [n] more rounds to go after
    the next one. *)
Lemma generate_jingle_after_pending E topic job w task_id m :
  task_submitted E w task_id ->
  (m < 30)%nat ->
  (forall i, (i < m)%nat -> exists resp,
      http E (poll_history E w task_id i) (query_request E task_id) = HttpReturns resp /\
      pending_answer resp) ->
  generate_jingle E topic job w
  = try_except (poll_jingle E (S (29 - m)) task_id job) (fun _ => ret None)
      (mkWorld (files w) (dirs w) (poll_history E w task_id m) (slept w + 2 * m)).
Proof.
  intros Hsub Hm Hpend. rewrite (generate_jingle_submitted E topic job w task_id Hsub).
  unfold try_except. replace 30%nat with (m + S (29 - m))%nat by lia.
  rewrite poll_after_pending.
  - cbn [files dirs sent slept]. rewrite <- poll_history_app. reflexivity.
  - intros i Hi. cbn [sent]. rewrite <- poll_history_app. apply Hpend. exact Hi.
Qed.

(** C6.  The jingle stage never raises.  It makes at most 30 polls, each
    after a wait of 2 seconds (60 seconds at most), and whatever it
    returns is absent or the job's jingle file, then in place.  Without
    credentials, and when the submission fails, the jingle is absent.
    Once the task is submitted: 30 pending polls exhaust the budget and
    give an absent jingle after exactly 30 polls and 60 seconds; after
    [m < 30] pending polls, a poll that reports success gives the
    downloaded jingle, and a poll that reports failure or that raises a
    transport exception gives an absent jingle, as does a download that
    raises one. *)
Theorem jingle_polling_bounded (E : Env) (topic job : str) (w : World) :
  (exists r w' k,
      generate_jingle E topic job w = (Ok r, w')
      /\ (k <= 30)%nat
      /\ slept w' = (slept w + 2 * k)%nat
      /\ (length (sent w') <= length (sent w) + k + 2)%nat
      /\ dirs w' = dirs w
      /\ (forall p, r = Some p -> p = jingle_path_of job /\ is_Some (files w' !! p)))
  /\ (MINIMAX_API_KEY E = [] \/ MINIMAX_GROUP_ID E = [] ->
      generate_jingle E topic job w = (Ok None, w))
  /\ (http E (sent w) (submit_request E) = HttpFails ->
      fst (generate_jingle E topic job w) = Ok None)
  /\ (forall task_id,
      task_submitted E w task_id ->
      (forall i, (i < 30)%nat -> exists resp,
          http E (poll_history E w task_id i) (query_request E task_id) = HttpReturns resp /\
          pending_answer resp) ->
      generate_jingle E topic job w
      = (Ok None, mkWorld (files w) (dirs w) (poll_history E w task_id 30) (slept w + 60)))
  /\ (forall task_id m,
      task_submitted E w task_id ->
      (m < 30)%nat ->
      (forall i, (i < m)%nat -> exists resp,
          http E (poll_history E w task_id i) (query_request E task_id) = HttpReturns resp /\
          pending_answer resp) ->
      (forall resp u dl,
          http E (poll_history E w task_id m) (query_request E task_id) = HttpReturns resp ->
          success_answer resp u ->
          http E (poll_history E w task_id (S m)) (download_request u) = HttpReturns dl ->
          status_ok dl = true ->
          writable E w (jingle_path_of job) ->
          generate_jingle E topic job w
          = (Ok (Some (jingle_path_of job)),
             mkWorld (<[jingle_path_of job := content dl]> (files w)) (dirs w)
                     (poll_history E w task_id (S m) ++ [download_request u])
                     (slept w + 2 * S m)))
      /\ (forall resp,
          http E (poll_history E w task_id m) (query_request E task_id) = HttpReturns resp ->
          failed_answer resp ->
          generate_jingle E topic job w
          = (Ok None, mkWorld (files w) (dirs w) (poll_history E w task_id (S m))
                              (slept w + 2 * S m)))
      /\ (http E (poll_history E w task_id m) (query_request E task_id) = HttpFails ->
          generate_jingle E topic job w
          = (Ok None, mkWorld (files w) (dirs w) (poll_history E w task_id (S m))
                              (slept w + 2 * S m)))
      /\ (forall resp u,
          http E (poll_history E w task_id m) (query_request E task_id) = HttpReturns resp ->
          success_answer resp u ->
          http E (poll_history E w task_id (S m)) (download_request u) = HttpFails ->
          generate_jingle E topic job w
          = (Ok None, mkWorld (files w) (dirs w)
                              (poll_history E w task_id (S m) ++ [download_request u])
                              (slept w + 2 * S m)))).
Proof.
  split; [apply generate_jingle_total|].
  split.
  { intros Hc. unfold generate_jingle.
    destruct (MINIMAX_API_KEY E); [reflexivity|].
    destruct (MINIMAX_GROUP_ID E); [reflexivity|].
    destruct Hc; discriminate. }
  split.
  { intros Hh. unfold generate_jingle.
    destruct (MINIMAX_API_KEY E); [reflexivity|].
    destruct (MINIMAX_GROUP_ID E); [reflexivity|].
    unfold try_except, bind at 1, http_send. rewrite Hh. reflexivity. }
  assert (Hnext : forall task_id m,
             poll_history E w task_id (S m)
             = poll_history E w task_id m ++ [query_request E task_id]).
  { intros task_id m. unfold poll_history.
    replace (S m) with (m + 1)%nat by lia.
    rewrite repeat_app. cbn [repeat]. rewrite <- app_assoc. reflexivity. }
  split.
  { intros task_id Hsub Hpend.
    rewrite (generate_jingle_submitted E topic job w task_id Hsub).
    unfold try_except. change 30%nat with (30 + 0)%nat at 1.
    rewrite poll_after_pending.
    - cbn [poll_jingle files dirs sent slept]. unfold ret.
      rewrite <- poll_history_app. reflexivity.
    - intros i Hi. cbn [sent]. rewrite <- poll_history_app. apply Hpend. exact Hi. }
  intros task_id m Hsub Hm Hpend.
  pose proof (generate_jingle_after_pending E topic job w task_id m Hsub Hm Hpend) as Hgen.
  split; [|split; [|split]].
  - intros resp u dl Hh Hs Hd Hdok Hw. rewrite Hgen. unfold try_except.
    rewrite (poll_success_step E task_id job (29 - m) _ resp u dl).
    + cbn [files dirs sent slept]. f_equal.
      apply world_eq; [|lia]. rewrite Hnext, <- app_assoc. reflexivity.
    + exact Hh.
    + exact Hs.
    + cbn [sent]. rewrite <- Hnext. exact Hd.
    + exact Hdok.
    + exact Hw.
  - intros resp Hh Hf. rewrite Hgen. unfold try_except.
    rewrite (poll_failed_step E task_id job (29 - m) _ resp); [|exact Hh|exact Hf].
    unfold polled. cbn [files dirs sent slept]. f_equal.
    apply world_eq; [|lia]. rewrite Hnext. reflexivity.
  - intros Hh. rewrite Hgen. unfold try_except.
    rewrite (poll_transport_step E task_id job (29 - m)); [|exact Hh].
    unfold polled, ret. cbn [files dirs sent slept]. f_equal.
    apply world_eq; [|lia]. rewrite Hnext. reflexivity.
  - intros resp u Hh Hs Hd. rewrite Hgen. unfold try_except.
    rewrite (poll_download_step E task_id job (29 - m) _ resp u).
    + unfold ret. cbn [files dirs sent slept]. f_equal.
      apply world_eq; [|lia]. rewrite Hnext, <- app_assoc. reflexivity.
    + exact Hh.
    + exact Hs.
    + cbn [sent]. rewrite <- Hnext. exact Hd.
Qed.

Lemma jingle_polling_bounded_witness :
  generate_jingle Fixtures.env_jingle_pending (lit "black holes") Fixtures.job0 Fixtures.w_job
  = (Ok None,
     mkWorld (files Fixtures.w_job) (dirs Fixtures.w_job)
       (poll_history Fixtures.env_jingle_pending Fixtures.w_job (JString (lit "t-1")) 30)
       (slept Fixtures.w_job + 60))
  /\ fst (generate_jingle Fixtures.env_jingle_success (lit "black holes") Fixtures.job0
            Fixtures.w_job)
     = Ok (Some (jingle_path_of Fixtures.job0)).
Proof.
  split.
  - destruct (jingle_polling_bounded Fixtures.env_jingle_pending (lit "black holes")
                Fixtures.job0 Fixtures.w_job) as (_ & _ & _ & H & _).
    apply (H (JString (lit "t-1"))).
    + split; [vm_compute; discriminate|]. split; [vm_compute; discriminate|].
      eexists _, _. repeat split; vm_compute; reflexivity.
    + intros i _. eexists. split; [reflexivity|].
      eexists _, _. repeat split; vm_compute; reflexivity.
  - destruct (jingle_polling_bounded Fixtures.env_jingle_success (lit "black holes")
                Fixtures.job0 Fixtures.w_job) as (_ & _ & _ & _ & H).
    destruct (H (JString (lit "t-1")) 0%nat) as (Hs & _).
    + split; [vm_compute; discriminate|]. split; [vm_compute; discriminate|].
      eexists _, _. repeat split; vm_compute; reflexivity.
    + lia.
    + intros i Hi. lia.
    + rewrite (Hs (Fixtures.json_answer
         "{'status': 'Success', 'file': {'download_url': 'https://cdn.example.com/jingle.mp3'}}")
         Fixtures.jingle_url Fixtures.audio_response).
      * reflexivity.
      * vm_compute. reflexivity.
      * eexists _, _, _. repeat split; try (vm_compute; reflexivity).
        vm_compute. discriminate.
      * vm_compute. reflexivity.
      * reflexivity.
      * repeat split; vm_compute; reflexivity.
Defined.

(** ** Assembly (C1, C3, C4) *)

Lemma writable_dirs E w w' p : dirs w' = dirs w -> writable E w p -> writable E w' p.
Proof.
  unfold writable, is_dir. intros ->. trivial.
Qed.

Lemma export_ok E a p w b :
  writable E w p -> mp3_encode E a = Some b ->
  export E a p w = (Ok tt, set_files w (<[p := b]> (files w))).
Proof.
  intros Hw Hb. unfold export, bind. rewrite write_bytes_ok by exact Hw.
  rewrite Hb. rewrite write_bytes_ok by (eapply writable_dirs; [|exact Hw]; reflexivity).
  unfold set_files. cbn [files dirs sent slept]. rewrite insert_insert_eq. reflexivity.
Qed.

Lemma export_inv E a p w w' :
  export E a p w = (Ok tt, w') ->
  is_Some (files w' !! p) /\ dirs w' = dirs w /\ sent w' = sent w /\ slept w' = slept w
  /\ writable E w p
  /\ exists b, mp3_encode E a = Some b /\ files w' = <[p := b]> (files w).
Proof.
  unfold export, bind.
  destruct (write_bytes E p [] w) as [[[]|e] w1] eqn:H1; [|discriminate].
  apply write_bytes_inv in H1 as (Hs1 & Hd1 & Ht1 & [[? _]|(_ & Hw & Hf1)]); [discriminate|].
  destruct (mp3_encode E a) as [b|]; [|discriminate].
  intros H2.
  apply write_bytes_inv in H2 as (Hs2 & Hd2 & Ht2 & [[? _]|(_ & _ & Hf2)]); [discriminate|].
  split; [rewrite Hf2, lookup_insert_eq; eauto|].
  split; [congruence|]. split; [congruence|]. split; [congruence|].
  split; [exact Hw|]. exists b. split; [reflexivity|].
  rewrite Hf2, Hf1, insert_insert_eq. reflexivity.
Qed.

Lemma from_mp3_decode E p w :
  from_mp3 E p w = match decode_clip E w p with
                   | Some clip => (Ok clip, w)
                   | None => (Raise (match files w !! p with
                                     | Some _ => CouldntDecodeError
                                     | None => OSError
                                     end), w)
                   end.
Proof.
  unfold from_mp3, decode_clip. destruct (files w !! p) as [d|]; [|reflexivity].
  destruct (mp3_length E d); reflexivity.
Qed.

Lemma from_mp3_world E p w r w' : from_mp3 E p w = (r, w') -> w' = w.
Proof.
  rewrite from_mp3_decode. destruct (decode_clip E w p); intros [= _ <-]; reflexivity.
Qed.

Lemma conversation_loop_world E silence paths : forall podcast w r w',
  conversation_loop E paths silence podcast w = (r, w') -> w' = w.
Proof.
  induction paths as [|p paths IH]; intros podcast w r w'; cbn [conversation_loop].
  - intros [= _ <-]. reflexivity.
  - unfold bind. destruct (from_mp3 E p w) as [[clip|e] w1] eqn:Hp;
      apply from_mp3_world in Hp as ->.
    + apply IH.
    + intros [= _ <-]. reflexivity.
Qed.

Lemma conversation_loop_decoded E w paths : forall podcast,
  Forall (fun p => is_Some (decode_clip E w p)) paths ->
  conversation_loop E paths (Silent 400) podcast w
  = (Ok (fold_left (fun podcast clip => Append podcast (Append clip (Silent 400)))
           (omap (decode_clip E w) paths) podcast), w).
Proof.
  induction paths as [|p paths IH]; intros podcast Hall; [reflexivity|].
  apply Forall_cons in Hall as [[clip Hclip] Hall].
  cbn [conversation_loop]. unfold bind. rewrite from_mp3_decode, Hclip.
  rewrite IH by exact Hall.
  rewrite (omap_cons_Some _ _ _ _ Hclip). reflexivity.
Qed.

Lemma create_bell_chime_world E w r w' : create_bell_chime E w = (r, w') -> w' = w.
Proof.
  unfold create_bell_chime. destruct (files w !! bell_file) as [d|].
  - destruct (100 <? length d)%nat.
    + unfold try_except. destruct (from_mp3 E bell_file w) as [[a|e] w1] eqn:Hb;
        apply from_mp3_world in Hb as ->; intros [= _ <-]; reflexivity.
    + intros [= _ <-]. reflexivity.
  - intros [= _ <-]. reflexivity.
Qed.

Lemma create_bell_chime_total E w :
  exists chime, create_bell_chime E w = (Ok chime, w) /\
    (chime = synthetic_bell \/
     exists d ms, files w !! bell_file = Some d /\ (100 < length d)%nat /\
                  mp3_length E d = Some ms /\ chime = Mp3 d ms).
Proof.
  unfold create_bell_chime. destruct (files w !! bell_file) as [d|] eqn:Hf.
  - destruct (100 <? length d)%nat eqn:Hlen.
    + unfold try_except, from_mp3. rewrite Hf.
      destruct (mp3_length E d) as [ms|] eqn:Hms.
      * eexists. split; [reflexivity|]. right. exists d, ms.
        apply Nat.ltb_lt in Hlen. auto.
      * eexists. split; [reflexivity|]. left. reflexivity.
    + eexists. split; [reflexivity|]. left. reflexivity.
  - eexists. split; [reflexivity|]. left. reflexivity.
Qed.

(** C4.  When the bell file is absent, too
    small or cannot be decoded, the chime is the synthetic bell; the
    synthetic bell is the three tones played one after the other, 2400 ms
    in all with only the last 600 ms faded, and no two tones are mixed;
    the mix of the three tones that the design document describes is 800
    ms long. *)
Theorem bell_chime_is_a_sequence (E : Env) (w : World) :
  (files w !! bell_file = None \/
   exists d, files w !! bell_file = Some d /\
             ((length d <= 100)%nat \/ mp3_length E d = None)) ->
  create_bell_chime E w = (Ok synthetic_bell, w)
  /\ synthetic_bell
     = FadeOut 600
         (Append (Append (ApplyGain (-6) (SineTone 659 800))
                         (ApplyGain (-12) (SineTone 1318 800)))
                 (ApplyGain (-15) (SineTone 1977 800)))
  /\ len synthetic_bell = 2400
  /\ has_overlay synthetic_bell = false
  /\ len mixed_bell = 800
  /\ synthetic_bell <> mixed_bell.
Proof.
  intros H. split.
  { unfold create_bell_chime. destruct H as [Hn|(d & Hd & Hcase)].
    - rewrite Hn. reflexivity.
    - rewrite Hd. destruct Hcase as [Hlen|Hms].
      + apply Nat.ltb_ge in Hlen. rewrite Hlen. reflexivity.
      + destruct (100 <? length d)%nat; [|reflexivity].
        unfold try_except, from_mp3. rewrite Hd, Hms. reflexivity. }
  split; [reflexivity|]. split; [reflexivity|]. split; [reflexivity|].
  split; [reflexivity | discriminate].
Qed.

Lemma bell_chime_is_a_sequence_witness :
  create_bell_chime Fixtures.env_offline Fixtures.w0 = (Ok synthetic_bell, Fixtures.w0)
  /\ len synthetic_bell = 2400.
Proof.
  destruct (bell_chime_is_a_sequence Fixtures.env_offline Fixtures.w0) as (H1 & _ & H2 & _).
  - left. reflexivity.
  - split; [exact H1 | exact H2].
Defined.

(** *** The master without jingle *)

Lemma insert_sorted_perm x l : insert_sorted x l ≡ₚ x :: l.
Proof.
  induction l as [|y l IH]; cbn [insert_sorted]; [reflexivity|].
  destruct (path_ltb y x); [|reflexivity].
  rewrite IH. apply Permutation_swap.
Qed.

Lemma sorted_perm l : sorted l ≡ₚ l.
Proof.
  unfold sorted. induction l as [|x l IH]; cbn [foldr]; [reflexivity|].
  rewrite insert_sorted_perm, IH. reflexivity.
Qed.

Lemma sum_N_perm l l' : l ≡ₚ l' -> sum_N l = sum_N l'.
Proof.
  unfold sum_N. induction 1; cbn [foldr]; lia.
Qed.

Lemma len_conversation_from clips : forall podcast,
  len (fold_left (fun podcast clip => Append podcast (Append clip (Silent 400)))
         clips podcast)
  = len podcast + sum_N (map (fun clip => len clip + 400) clips).
Proof.
  unfold sum_N. induction clips as [|c clips IH]; intros podcast; cbn [fold_left map foldr].
  - lia.
  - rewrite IH. cbn [len]. lia.
Qed.

Lemma decoded_durations E w paths :
  Forall (fun p => is_Some (decode_clip E w p)) paths ->
  map (fun clip => len clip + 400) (omap (decode_clip E w) paths)
  = map (fun p => duration E w p + 400) paths.
Proof.
  induction 1 as [|p paths [clip Hclip] _ IH]; [reflexivity|].
  rewrite (omap_cons_Some _ _ _ _ Hclip). cbn [map]. rewrite IH.
  unfold duration at 2. rewrite Hclip. reflexivity.
Qed.

Lemma len_master_without_jingle E w chime paths :
  Forall (fun p => is_Some (decode_clip E w p)) paths ->
  len (master_without_jingle chime (omap (decode_clip E w) (sorted paths)))
  = len chime + 1000 + sum_N (map (fun p => duration E w p + 400) paths) + 800 + len chime.
Proof.
  intros Hall. unfold master_without_jingle, conversation. cbn [len].
  rewrite len_conversation_from. cbn [len].
  rewrite decoded_durations.
  2:{ rewrite Forall_forall in Hall |- *. intros p Hp. apply Hall.
      rewrite <- (sorted_perm paths). exact Hp. }
  rewrite (sum_N_perm _ (map (fun p => duration E w p + 400) paths)).
  - lia.
  - apply Permutation_map, sorted_perm.
Qed.

(** *** The order of the clips *)

Lemma str_ltb_irrefl a : str_ltb a a = false.
Proof.
  induction a as [|x a IH]; [reflexivity|]. cbn [str_ltb].
  rewrite N.ltb_irrefl, N.eqb_refl, IH. reflexivity.
Qed.

Lemma str_ltb_trans a : forall b c,
  str_ltb a b = true -> str_ltb b c = true -> str_ltb a c = true.
Proof.
  induction a as [|x a IH]; intros [|y b] [|z c]; cbn [str_ltb]; try discriminate;
    try reflexivity.
  intros H1 H2.
  apply orb_true_iff in H1 as [H1|H1]; apply orb_true_iff in H2 as [H2|H2];
    apply orb_true_iff.
  - left. apply N.ltb_lt in H1, H2. apply N.ltb_lt. lia.
  - apply andb_true_iff in H2 as [H2 _]. apply N.eqb_eq in H2 as <-. auto.
  - apply andb_true_iff in H1 as [H1 _]. apply N.eqb_eq in H1 as ->. auto.
  - apply andb_true_iff in H1 as [Hxy H1]. apply andb_true_iff in H2 as [Hyz H2].
    right. apply N.eqb_eq in Hxy as ->. rewrite Hyz. cbn [andb]. eauto.
Qed.

Lemma str_ltb_total a : forall b,
  str_ltb a b = false -> str_ltb b a = false -> a = b.
Proof.
  induction a as [|x a IH]; intros [|y b]; cbn [str_ltb]; try discriminate;
    try reflexivity.
  intros H1 H2.
  apply orb_false_iff in H1 as [H1 H1']. apply orb_false_iff in H2 as [H2 H2'].
  apply N.ltb_ge in H1, H2. assert (x = y) as -> by lia.
  rewrite N.eqb_refl in H1', H2'. cbn [andb] in H1', H2'.
  f_equal. auto.
Qed.

Lemma path_ltb_irrefl a : path_ltb a a = false.
Proof.
  induction a as [|x a IH]; [reflexivity|]. cbn [path_ltb].
  rewrite str_ltb_irrefl, IH. unfold str_eqb. rewrite bool_decide_eq_true_2 by reflexivity.
  reflexivity.
Qed.

Lemma path_ltb_trans a : forall b c,
  path_ltb a b = true -> path_ltb b c = true -> path_ltb a c = true.
Proof.
  induction a as [|x a IH]; intros [|y b] [|z c]; cbn [path_ltb]; try discriminate;
    try reflexivity.
  unfold str_eqb. intros H1 H2.
  apply orb_true_iff in H1 as [H1|H1]; apply orb_true_iff in H2 as [H2|H2];
    apply orb_true_iff.
  - left. eapply str_ltb_trans; eassumption.
  - apply andb_true_iff in H2 as [H2 _]. apply bool_decide_eq_true in H2 as <-. auto.
  - apply andb_true_iff in H1 as [H1 _]. apply bool_decide_eq_true in H1 as ->. auto.
  - apply andb_true_iff in H1 as [Hxy H1]. apply andb_true_iff in H2 as [Hyz H2].
    right. apply bool_decide_eq_true in Hxy as ->. rewrite Hyz. cbn [andb]. eauto.
Qed.

Lemma path_ltb_total a : forall b,
  path_ltb a b = false -> path_ltb b a = false -> a = b.
Proof.
  induction a as [|x a IH]; intros [|y b]; cbn [path_ltb]; try discriminate;
    try reflexivity.
  unfold str_eqb. intros H1 H2.
  apply orb_false_iff in H1 as [H1 H1']. apply orb_false_iff in H2 as [H2 H2'].
  assert (x = y) as -> by (apply str_ltb_total; assumption).
  rewrite bool_decide_eq_true_2 in H1', H2' by reflexivity. cbn [andb] in H1', H2'.
  f_equal. auto.
Qed.

Lemma path_ltb_asym a b : path_ltb a b = true -> path_ltb b a = false.
Proof.
  intros H. destruct (path_ltb b a) eqn:H'; [|reflexivity].
  rewrite <- (path_ltb_irrefl a). symmetry. eapply path_ltb_trans; eassumption.
Qed.

(** Inserting two paths gives the same list in either order. *)
Lemma insert_sorted_comm x y l :
  insert_sorted x (insert_sorted y l) = insert_sorted y (insert_sorted x l).
Proof.
  induction l as [|z l IH]; cbn [insert_sorted].
  - destruct (path_ltb y x) eqn:Hyx, (path_ltb x y) eqn:Hxy; try reflexivity.
    + rewrite (path_ltb_asym _ _ Hyx) in Hxy. discriminate.
    + rewrite (path_ltb_total _ _ Hxy Hyx). reflexivity.
  - destruct (path_ltb z y) eqn:Hzy, (path_ltb z x) eqn:Hzx; cbn [insert_sorted];
      rewrite ?Hzy, ?Hzx.
    + rewrite IH. reflexivity.
    + assert (Hxy : path_ltb x y = true).
      { destruct (path_ltb x z) eqn:Hxz.
        - eapply path_ltb_trans; eassumption.
        - rewrite (path_ltb_total _ _ Hxz Hzx). exact Hzy. }
      rewrite Hxy. cbn [insert_sorted]. rewrite ?Hzy. reflexivity.
    + assert (Hyx : path_ltb y x = true).
      { destruct (path_ltb y z) eqn:Hyz.
        - eapply path_ltb_trans; eassumption.
        - rewrite (path_ltb_total _ _ Hyz Hzy). exact Hzx. }
      rewrite Hyx. cbn [insert_sorted]. rewrite ?Hzx. reflexivity.
    + destruct (path_ltb y x) eqn:Hyx, (path_ltb x y) eqn:Hxy; cbn [insert_sorted];
        rewrite ?Hzy, ?Hzx; try reflexivity.
      * rewrite (path_ltb_asym _ _ Hyx) in Hxy. discriminate.
      * rewrite (path_ltb_total _ _ Hxy Hyx). reflexivity.
Qed.

Lemma sorted_permutation l l' : l ≡ₚ l' -> sorted l = sorted l'.
Proof.
  unfold sorted. induction 1 as [|x l l' _ IH|x y l|l l' l'' _ IH1 _ IH2];
    cbn [foldr].
  - reflexivity.
  - rewrite IH. reflexivity.
  - apply insert_sorted_comm.
  - congruence.
Qed.

(** Sorting gives an ascending list. *)
Lemma insert_sorted_ascending x l :
  StronglySorted (fun a b => path_ltb b a = false) l ->
  StronglySorted (fun a b => path_ltb b a = false) (insert_sorted x l).
Proof.
  induction 1 as [|y l Hl IH Hy]; cbn [insert_sorted].
  { constructor; constructor. }
  destruct (path_ltb y x) eqn:Hyx.
  - constructor; [exact IH|].
    rewrite Forall_forall in Hy |- *. intros b Hb.
    rewrite insert_sorted_perm in Hb. apply elem_of_cons in Hb as [->|Hb].
    + apply path_ltb_asym. exact Hyx.
    + apply Hy. exact Hb.
  - constructor; [constructor; assumption|].
    constructor; [exact Hyx|].
    rewrite Forall_forall in Hy |- *. intros b Hb. specialize (Hy b Hb).
    destruct (path_ltb b x) eqn:Hbx; [|reflexivity].
    destruct (path_ltb x y) eqn:Hxy.
    + rewrite (path_ltb_trans _ _ _ Hbx Hxy) in Hy. discriminate.
    + rewrite (path_ltb_total _ _ Hxy Hyx) in Hbx. congruence.
Qed.

Lemma sorted_is_ascending l : StronglySorted (fun a b => path_ltb b a = false) (sorted l).
Proof.
  unfold sorted. induction l as [|x l IH]; cbn [foldr]; [constructor|].
  apply insert_sorted_ascending. exact IH.
Qed.

(** There is one ascending arrangement of the clips, the sorted one. *)
Lemma ascending_order_unique order l :
  order ≡ₚ l -> StronglySorted (fun a b => path_ltb b a = false) order ->
  order = sorted l.
Proof.
  intros Hperm Hasc. rewrite <- (sorted_ascending order Hasc).
  apply sorted_permutation. exact Hperm.
Qed.

(** C3.  For a non-empty list of clips that decode and no jingle, the
    assembly returns, and the master it exports is the chime and 1000 ms
    of silence, then the clips in ascending order of their names, each
    followed by 400 ms of silence (the last one too), then 800 ms of
    silence and the chime, normalized; its length is the length of the
    chime, 1000 ms, each clip's length plus 400 ms, 800 ms, and the length
    of the chime.  The order is the one arrangement of the clips in
    which no name comes before an earlier one, whatever the order they
    are handed over in; when the clips are named after positions below
    1000 it is the order of the positions. *)
Theorem stitch_without_jingle (E : Env) (clip_paths order : list Path)
    (jingle_path : option Path) (job : str) (w : World) (chime : AudioSegment)
    (b : bytes) :
  clip_paths <> [] ->
  Forall (fun p => is_Some (decode_clip E w p)) clip_paths ->
  (jingle_path = None \/
   exists jp, jingle_path = Some jp /\ path_exists w jp = false) ->
  create_bell_chime E w = (Ok chime, w) ->
  writable E w (final_path_of job) ->
  order ≡ₚ clip_paths ->
  StronglySorted (fun p q => path_ltb q p = false) order ->
  mp3_encode E (master_without_jingle chime (omap (decode_clip E w) order)) = Some b ->
  stitch_podcast E clip_paths jingle_path job w
  = (Ok (final_path_of job), set_files w (<[final_path_of job := b]> (files w)))
  /\ master_without_jingle chime (omap (decode_clip E w) order)
     = Normalize
         (Append (Append (Append chime (Silent 1000))
                         (conversation (omap (decode_clip E w) order)))
                 (Append (Silent 800) chime))
  /\ length (omap (decode_clip E w) order) = length clip_paths
  /\ len (master_without_jingle chime (omap (decode_clip E w) order))
     = len chime + 1000 + sum_N (map (fun p => duration E w p + 400) clip_paths)
       + 800 + len chime
  /\ order = sorted clip_paths
  /\ (forall clips_dir (tagged : list (nat * Path)),
      map snd tagged ≡ₚ clip_paths ->
      Forall (fun jp => (fst jp < 1000)%nat /\ indexed clips_dir (fst jp) (snd jp))
             tagged ->
      StronglySorted lt (map fst tagged) ->
      order = map snd tagged).
Proof.
  intros Hne Hall Hj Hbell Hw Hperm Hasc Hb.
  pose proof (ascending_order_unique order clip_paths Hperm Hasc) as Horder.
  assert (Hdec : Forall (fun p => is_Some (decode_clip E w p)) (sorted clip_paths)).
  { rewrite Forall_forall in Hall |- *. intros p Hp. apply Hall.
    rewrite <- (sorted_perm clip_paths). exact Hp. }
  split; [|split; [reflexivity|split; [|split; [|split; [exact Horder|]]]]].
  - rewrite Horder in Hb.
    unfold stitch_podcast. destruct clip_paths as [|p0 rest]; [congruence|].
    unfold bind at 1. rewrite conversation_loop_decoded by exact Hdec.
    unfold bind at 1. rewrite Hbell.
    unfold bind at 1.
    assert (Hsec : match jingle_path with
                   | Some jp =>
                     if path_exists w jp then
                       (let* jingle := from_mp3 E jp in
                        ret (Append (Append (Append
                                  (FadeOut 2000 (SliceTo 12000 (FadeIn 2000 jingle)))
                                  (Silent 300)) chime) (Silent 800),
                             Append (Append (Append (Silent 500) chime) (Silent 300))
                                  (FadeOut 3000 (SliceTo 8000 (FadeIn 1000 jingle))))) w
                     else (Ok (Append chime (Silent 1000), Append (Silent 800) chime), w)
                   | None => (Ok (Append chime (Silent 1000), Append (Silent 800) chime), w)
                   end = (Ok (Append chime (Silent 1000), Append (Silent 800) chime), w)).
    { destruct Hj as [->|(jp & -> & ->)]; reflexivity. }
    rewrite Hsec. cbn [fst snd]. unfold bind.
    unfold master_without_jingle, conversation in Hb.
    rewrite (export_ok E _ _ w b Hw Hb). reflexivity.
  - rewrite Horder. rewrite <- (length_map (fun clip => len clip + 400)).
    rewrite (decoded_durations E w _ Hdec), length_map.
    apply Permutation_length, sorted_perm.
  - rewrite Horder. apply len_master_without_jingle. exact Hall.
  - intros clips_dir tagged Htag Hidx Hpos.
    rewrite Horder. symmetry. apply ascending_order_unique; [exact Htag|].
    eapply StronglySorted_weaken; [|exact (indexed_ascending clips_dir tagged Hidx Hpos)].
    intros p q [_ Hqp]. exact Hqp.
Qed.

Lemma stitch_without_jingle_witness :
  fst (stitch_podcast Fixtures.env_voice (rev Fixtures.two_clips) None Fixtures.job0
         Fixtures.w_two_clips) = Ok (final_path_of Fixtures.job0)
  /\ len (master_without_jingle synthetic_bell
            (omap (decode_clip Fixtures.env_voice Fixtures.w_two_clips)
                  Fixtures.two_clips)) = 10400.
Proof.
  destruct (stitch_without_jingle Fixtures.env_voice (rev Fixtures.two_clips)
              Fixtures.two_clips None
              Fixtures.job0 Fixtures.w_two_clips synthetic_bell Fixtures.id3)
    as (Hrun & _ & _ & Hlen & _).
  - discriminate.
  - repeat (apply Forall_cons; split; [eexists; vm_compute; reflexivity|]).
    apply Forall_nil_2.
  - left. reflexivity.
  - vm_compute. reflexivity.
  - repeat split; vm_compute; reflexivity.
  - apply Permutation_swap.
  - repeat (constructor; [|repeat (apply Forall_cons; split; [vm_compute; reflexivity|]);
                           apply Forall_nil_2]).
    constructor.
  - reflexivity.
  - split; [rewrite Hrun; reflexivity|]. rewrite Hlen. vm_compute. reflexivity.
Defined.

(** The names do not follow the positions beyond 999: of two clips at
    the positions 999 and 1000, the one of position 1000 is played first.
    The encoder of this environment keeps the data of the clips it is
    given, in playing order, so that the master shows the order. *)
Lemma stitch_order_counterexample :
  indexed (clips_dir_of Fixtures.job0) 999 Fixtures.clip_999
  /\ indexed (clips_dir_of Fixtures.job0) 1000 Fixtures.clip_1000
  /\ files Fixtures.w_late_clips !! Fixtures.clip_999 = Some ["a"%byte]
  /\ files Fixtures.w_late_clips !! Fixtures.clip_1000 = Some ["b"%byte]
  /\ sorted [Fixtures.clip_999; Fixtures.clip_1000]
     = [Fixtures.clip_1000; Fixtures.clip_999]
  /\ fst (stitch_podcast Fixtures.env_keep_order [Fixtures.clip_999; Fixtures.clip_1000]
            None Fixtures.job0 Fixtures.w_late_clips)
     = Ok (final_path_of Fixtures.job0)
  /\ files (snd (stitch_podcast Fixtures.env_keep_order
                   [Fixtures.clip_999; Fixtures.clip_1000]
                   None Fixtures.job0 Fixtures.w_late_clips))
       !! final_path_of Fixtures.job0
     = Some ["b"%byte; "a"%byte].
Proof.
  split; [exists (lit "sam.mp3"), []; vm_compute; reflexivity|].
  split; [exists (lit "sam.mp3"), []; vm_compute; reflexivity|].
  split; [vm_compute; reflexivity|]. split; [vm_compute; reflexivity|].
  split; [vm_compute; reflexivity|].
  split; vm_compute; reflexivity.
Qed.

(** ** The pipeline (C1, C2) *)

Lemma stitch_podcast_ok E clip_paths jingle_path job w p w' :
  stitch_podcast E clip_paths jingle_path job w = (Ok p, w') ->
  p = final_path_of job /\ is_Some (files w' !! p) /\ dirs w' = dirs w.
Proof.
  unfold stitch_podcast. destruct clip_paths as [|p0 rest].
  - unfold bind, ret.
    destruct (export E (Silent 1000) (final_path_of job) w) as [[[]|e] w1] eqn:Hx;
      [|discriminate].
    intros [= <- <-]. apply export_inv in Hx as (Hf & Hd & _). auto.
  - unfold bind at 1.
    destruct (conversation_loop E _ _ _ w) as [[podcast|e] w1] eqn:Hc; [|discriminate].
    apply conversation_loop_world in Hc as ->.
    unfold bind at 1.
    destruct (create_bell_chime E w) as [[bell|e] w1] eqn:Hb; [|discriminate].
    apply create_bell_chime_world in Hb as ->.
    assert (Hexp : forall a r w2,
               (export E a (final_path_of job);; ret (final_path_of job)) w = (r, w2) ->
               r = Ok p -> w2 = w' ->
               p = final_path_of job /\ is_Some (files w' !! p) /\ dirs w' = dirs w).
    { intros a r w2. unfold bind, ret.
      destruct (export E a (final_path_of job) w) as [[[]|e] w1] eqn:Hx.
      - intros [= <- <-] [= <-] <-. apply export_inv in Hx as (Hf & Hd & _). auto.
      - intros [= <- _]. discriminate. }
    unfold bind at 1.
    destruct jingle_path as [jp|]; [destruct (path_exists w jp)|].
    + unfold bind at 1.
      destruct (from_mp3 E jp w) as [[j|e] w3] eqn:Hj;
        apply from_mp3_world in Hj as ->; [|discriminate].
      unfold ret at 1. cbn [fst snd]. intros H. eapply Hexp; [exact H|reflexivity..].
    + cbn [fst snd]. intros H. eapply Hexp; [exact H|reflexivity..].
    + cbn [fst snd]. intros H. eapply Hexp; [exact H|reflexivity..].
Qed.

(** The response is the payload when it can be rendered, and an error
    that leaves the world as it is when not. *)
Lemma JSONResponse_ok p w payload w' :
  JSONResponse p w = (Ok payload, w') -> payload = p /\ w' = w.
Proof.
  unfold JSONResponse.
  destruct (json_nonfinite (payload_content p)); [discriminate|].
  destruct (json_surrogate (payload_content p)); [discriminate|].
  intros [= <- <-]. split; reflexivity.
Qed.

Lemma JSONResponse_cases p w :
  (json_nonfinite (payload_content p) = true ->
   JSONResponse p w = (Raise out_of_range, w))
  /\ (json_nonfinite (payload_content p) = false ->
      json_surrogate (payload_content p) = true ->
      JSONResponse p w = (Raise UnicodeEncodeError, w))
  /\ (json_nonfinite (payload_content p) = false ->
      json_surrogate (payload_content p) = false ->
      JSONResponse p w = (Ok p, w)).
Proof.
  unfold JSONResponse. repeat apply conj.
  - intros ->. reflexivity.
  - intros -> ->. reflexivity.
  - intros -> ->. reflexivity.
Qed.

Lemma no_http_JSONResponse p : no_http (JSONResponse p).
Proof.
  intros w e w'. unfold JSONResponse.
  destruct (json_nonfinite (payload_content p)); [intros [= <- _]; discriminate|].
  destruct (json_surrogate (payload_content p)); [intros [= <- _]; discriminate|].
  discriminate.
Qed.

Lemma generate_podcast_rejects E body w t u n :
  submitted body t u n -> t = [] -> u = [] ->
  generate_podcast E body w = (Raise rejection, w).
Proof.
  intros (t0 & u0 & n0 & Ht & Hu & Hn & -> & -> & ->) Het Heu.
  unfold generate_podcast, field.
  unfold bind at 1. unfold bind at 1, lift at 1. rewrite Ht.
  unfold lift at 1, py_strip. rewrite Het.
  unfold bind at 1. unfold bind at 1, lift at 1. rewrite Hu.
  unfold lift at 1, py_strip. rewrite Heu.
  unfold bind at 1. unfold bind at 1, lift at 1. rewrite Hn.
  reflexivity.
Qed.

Lemma generate_podcast_stages E body w t u n :
  submitted body t u n -> (t <> [] \/ u <> []) ->
  generate_podcast E body w = pipeline E t u n w.
Proof.
  intros (t0 & u0 & n0 & Ht & Hu & Hn & -> & -> & ->) Hne.
  unfold generate_podcast, field, pipeline.
  unfold bind at 1. unfold bind at 1, lift at 1. rewrite Ht.
  unfold lift at 1, py_strip.
  unfold bind at 1. unfold bind at 1, lift at 1. rewrite Hu.
  unfold lift at 1.
  unfold bind at 1. unfold bind at 1, lift at 1. rewrite Hn.
  unfold lift at 1. unfold research, resolved_topic, job_of, audio_reference.
  destruct (strip t0) as [|tc tt]; destruct (strip u0) as [|uc ut].
  - destruct Hne; congruence.
  - unfold bind. destruct (mkdir_p E _ w) as [[[]|e] w1]; [|reflexivity].
    destruct (research_url E (uc :: ut) w1) as [[brief|e] w2]; reflexivity.
  - unfold bind. destruct (mkdir_p E _ w) as [[[]|e] w1]; [|reflexivity].
    destruct (research_topic E (tc :: tt) w1) as [[brief|e] w2]; reflexivity.
  - unfold bind. destruct (mkdir_p E _ w) as [[[]|e] w1]; [|reflexivity].
    destruct (research_url E (uc :: ut) w1) as [[brief|e] w2]; reflexivity.
Qed.

Lemma field_ok body key d w x w' :
  field body key d w = (Ok x, w') ->
  w' = w /\ exists s, py_get body key (JString d) = Ok (JString s) /\ x = strip s.
Proof.
  unfold field, bind, lift.
  destruct (py_get body key (JString d)) as [v|e]; [|discriminate].
  destruct v; try discriminate. cbn [py_strip]. intros [= <- <-]. eauto.
Qed.

(** The route returns a payload only for a submission whose three fields
    are strings. *)
Lemma generate_podcast_fields E body w payload w' :
  generate_podcast E body w = (Ok payload, w') -> exists t u n, submitted body t u n.
Proof.
  unfold generate_podcast. intros H.
  apply bind_ok_inv in H as (t & w1 & Ht & H).
  apply bind_ok_inv in H as (u & w2 & Hu & H).
  apply bind_ok_inv in H as (n & w3 & Hn & _).
  apply field_ok in Ht as (_ & t0 & Ht & ->).
  apply field_ok in Hu as (_ & u0 & Hu & ->).
  apply field_ok in Hn as (_ & n0 & Hn & ->).
  exists (strip t0), (strip u0), (strip n0), t0, u0, n0.
  repeat split; assumption || reflexivity.
Qed.

(** *** No stage raises the rejection *)

Lemma no_http_ret {A} (a : A) : no_http (ret a).
Proof. intros w e w' H. discriminate. Qed.

Lemma no_http_total {A} (c : M A) :
  (forall w, exists a w', c w = (Ok a, w')) -> no_http c.
Proof. intros Ht w e w' H. destruct (Ht w) as (a & w1 & Ha). congruence. Qed.

Lemma no_http_bind {A B} (c : M A) (k : A -> M B) :
  no_http c -> (forall a, no_http (k a)) -> no_http (bind c k).
Proof.
  intros Hc Hk w e w'. unfold bind.
  destruct (c w) as [[a|e1] w1] eqn:Hcw.
  - apply Hk.
  - intros [= <- <-]. eapply Hc. exact Hcw.
Qed.

Lemma no_http_lift {A} (r : result A) :
  (forall e, r = Raise e -> forall status detail, e <> HTTPException status detail) ->
  no_http (lift r).
Proof. intros Hr w e w'. unfold lift. intros [= -> _]. apply Hr. reflexivity. Qed.

Lemma no_http_getitem_str v k : no_http (lift (py_getitem_str v k)).
Proof.
  apply no_http_lift. intros e He status detail ->. unfold py_getitem_str in He.
  destruct v as [| | | | | |fs]; try discriminate.
  destruct (dict_get k fs); discriminate.
Qed.

Lemma no_http_iter v : no_http (lift (py_iter v)).
Proof.
  apply no_http_lift. intros e He status detail ->.
  destruct v; discriminate.
Qed.

Lemma no_http_mkdir_p E p : no_http (mkdir_p E p).
Proof.
  intros w e w'. unfold mkdir_p.
  destruct (os_fault E p); [intros [= <- _]; discriminate|].
  destruct (existsb _ _); [intros [= <- _]; discriminate | discriminate].
Qed.

Lemma no_http_write_bytes E p d : no_http (write_bytes E p d).
Proof.
  intros w e w' H. apply write_bytes_inv in H as (_ & _ & _ & [[[= ->] _]|[? _]]);
    discriminate.
Qed.

Lemma no_http_export E a p : no_http (export E a p).
Proof.
  unfold export. apply no_http_bind; [apply no_http_write_bytes|]. intros _.
  destruct (mp3_encode E a); [apply no_http_write_bytes|].
  intros w e w' [= <- _]. discriminate.
Qed.

Lemma no_http_from_mp3 E p : no_http (from_mp3 E p).
Proof.
  intros w e w'. rewrite from_mp3_decode.
  destruct (decode_clip E w p); [discriminate|].
  intros [= <- _]. destruct (files w !! p); discriminate.
Qed.

Lemma voice_round_total E clips_dir i speaker said acc w :
  exists a w',
    try_except
      (let* resp := http_send E (tts_request E (select_voice E speaker) said) in
       raise_for_status resp;;
       let* lowered := lift (py_lower (str_lower E) speaker) in
       write_bytes E (path_div clips_dir (clip_name i lowered)) (content resp);;
       ret (acc ++ [path_div clips_dir (clip_name i lowered)]))
      (fun _ => ret acc) w = (Ok a, w').
Proof. apply try_except_ok. intros e w1. eexists _, _. reflexivity. Qed.

Lemma no_http_voice_loop E clips_dir lines : forall i acc,
  no_http (voice_loop E clips_dir lines i acc).
Proof.
  induction lines as [|line rest IH]; intros i acc; cbn [voice_loop].
  - apply no_http_ret.
  - apply no_http_bind; [apply no_http_getitem_str|]. intros speaker.
    apply no_http_bind; [apply no_http_getitem_str|]. intros said.
    apply no_http_bind; [|intros acc'; apply IH].
    apply no_http_total. intros w. apply voice_round_total.
Qed.

Lemma no_http_generate_voice_clips E script job :
  no_http (generate_voice_clips E script job).
Proof.
  unfold generate_voice_clips. apply no_http_bind; [apply no_http_mkdir_p|]. intros _.
  destruct (ELEVENLABS_API_KEY E); [apply no_http_ret|].
  apply no_http_bind; [apply no_http_iter|]. intros lines. apply no_http_voice_loop.
Qed.

Lemma no_http_conversation_loop E silence paths : forall podcast,
  no_http (conversation_loop E paths silence podcast).
Proof.
  induction paths as [|p paths IH]; intros podcast; cbn [conversation_loop].
  - apply no_http_ret.
  - apply no_http_bind; [apply no_http_from_mp3|]. intros clip. apply IH.
Qed.

Lemma no_http_stitch_podcast E clip_paths jingle_path job :
  no_http (stitch_podcast E clip_paths jingle_path job).
Proof.
  unfold stitch_podcast. destruct clip_paths as [|p0 rest].
  - apply no_http_bind; [apply no_http_export|]. intros _. apply no_http_ret.
  - apply no_http_bind; [apply no_http_conversation_loop|]. intros podcast.
    apply no_http_bind.
    { apply no_http_total. intros w.
      destruct (create_bell_chime_total E w) as (c & Hc & _). eauto. }
    intros bell. apply no_http_bind.
    + intros w e w'. destruct jingle_path as [jp|]; [|discriminate].
      destruct (path_exists w jp); [|discriminate].
      revert w e w'. apply no_http_bind; [apply no_http_from_mp3|].
      intros j. apply no_http_ret.
    + intros sections. apply no_http_bind; [apply no_http_export|].
      intros _. apply no_http_ret.
Qed.

Lemma research_total E t u w :
  exists brief w', research E t u w = (Ok brief, w') /\ brief <> [].
Proof.
  unfold research. destruct u as [|uc ut].
  - destruct (research_topic_shape E t w) as (b & w' & Hr & Hs).
    exists b, w'. split; [exact Hr|].
    destruct Hs as [->|[->|[->|(title & ex & Hne & ->)]]].
    + apply no_article_brief_nonempty.
    + apply empty_extract_brief_nonempty.
    + apply lookup_failed_brief_nonempty.
    + lit_nonempty.
  - destruct (research_url_shape E (uc :: ut) w) as (b & w' & Hr & Hs).
    exists b, w'. split; [exact Hr|].
    destruct Hs as [->|[->|(ex & Hne & ->)]].
    + apply empty_page_brief_nonempty.
    + apply scrape_failed_brief_nonempty.
    + lit_nonempty.
Qed.

Lemma no_http_pipeline E t u n : no_http (pipeline E t u n).
Proof.
  unfold pipeline. apply no_http_bind; [apply no_http_mkdir_p|]. intros _.
  apply no_http_bind.
  { apply no_http_total. intros w. destruct (research_total E t u w) as (b & w' & H & _).
    eauto. }
  intros brief. apply no_http_bind.
  { apply no_http_total. intros w.
    destruct (generate_script_total E (resolved_topic t u) brief n w) as (s & w' & H & _).
    eauto. }
  intros script. apply no_http_bind; [apply no_http_generate_voice_clips|].
  intros clips. apply no_http_bind.
  { apply no_http_total. intros w.
    destruct (generate_jingle_total E (resolved_topic t u) (job_of E) w)
      as (r & w' & k & H & _). eauto. }
  intros jingle. apply no_http_bind; [apply no_http_stitch_podcast|].
  intros final. apply no_http_bind; [intros w e w'; discriminate|].
  intros url. apply no_http_JSONResponse.
Qed.

(** Only the script can bring a float into the payload, and the keys of
    the payload hold no surrogate. *)
Lemma payload_content_nonfinite p :
  json_nonfinite (payload_content p) = json_nonfinite (script p).
Proof.
  unfold json_nonfinite, payload_content. cbn [json_exists existsb orb].
  destruct (audio_url p); cbn [json_exists orb];
    destruct (json_exists float_nonfinite (fun _ => false) (script p)); reflexivity.
Qed.

Lemma payload_content_surrogate p :
  json_surrogate (payload_content p) = payload_surrogate p.
Proof.
  unfold payload_surrogate, payload_content, json_surrogate.
  cbn [json_exists existsb].
  replace (has_surrogate (lit "job_id")) with false by (vm_compute; reflexivity).
  replace (has_surrogate (lit "topic")) with false by (vm_compute; reflexivity).
  replace (has_surrogate (lit "tone")) with false by (vm_compute; reflexivity).
  replace (has_surrogate (lit "script")) with false by (vm_compute; reflexivity).
  replace (has_surrogate (lit "research_brief")) with false by (vm_compute; reflexivity).
  replace (has_surrogate (lit "audio_url")) with false by (vm_compute; reflexivity).
  replace (has_surrogate (lit "has_audio")) with false by (vm_compute; reflexivity).
  replace (has_surrogate (lit "clip_count")) with false by (vm_compute; reflexivity).
  cbn [orb].
  destruct (has_surrogate (job_id p)), (has_surrogate (topic p)),
    (has_surrogate (tone p)), (json_exists (fun _ => false) has_surrogate (script p)),
    (has_surrogate (research_brief p)); cbn [orb]; try reflexivity.
  destruct (audio_url p) as [url|]; cbn [json_exists orb]; [|reflexivity].
  destruct (has_surrogate url); reflexivity.
Qed.

(** The response of a job whose stages returned. *)
Lemma JSONResponse_payload p w :
  (json_nonfinite (script p) = true -> JSONResponse p w = (Raise out_of_range, w))
  /\ (json_nonfinite (script p) = false -> payload_surrogate p = true ->
      JSONResponse p w = (Raise UnicodeEncodeError, w))
  /\ (json_nonfinite (script p) = false -> payload_surrogate p = false ->
      JSONResponse p w = (Ok p, w)).
Proof.
  rewrite <- payload_content_nonfinite, <- payload_content_surrogate.
  apply JSONResponse_cases.
Qed.

Lemma pipeline_returns E t u n w w1 :
  mkdir_p E (path_div OUTPUT_DIR (job_of E)) w = (Ok tt, w1) ->
  exists brief w2 script w3,
    research E t u w1 = (Ok brief, w2) /\ brief <> [] /\
    generate_script E (resolved_topic t u) brief n w2 = (Ok script, w3) /\
    (forall e w4,
      generate_voice_clips E script (job_of E) w3 = (Raise e, w4) ->
      pipeline E t u n w = (Raise e, w4)) /\
    forall clip_paths w4,
      generate_voice_clips E script (job_of E) w3 = (Ok clip_paths, w4) ->
      exists jingle_path w5,
        generate_jingle E (resolved_topic t u) (job_of E) w4 = (Ok jingle_path, w5) /\
        (forall e w6,
          stitch_podcast E clip_paths jingle_path (job_of E) w5 = (Raise e, w6) ->
          pipeline E t u n w = (Raise e, w6)) /\
        forall final_path w6,
          stitch_podcast E clip_paths jingle_path (job_of E) w5 = (Ok final_path, w6) ->
          pipeline E t u n w
          = JSONResponse
              (mkPayload (job_of E) (resolved_topic t u) n script (brief_preview brief)
                 (Some (audio_reference (job_of E)))
                 (match clip_paths with [] => false | _ => true end)
                 (length clip_paths)) w6.
Proof.
  intros Hmk.
  destruct (research_total E t u w1) as (brief & w2 & Hres & Hne).
  destruct (generate_script_total E (resolved_topic t u) brief n w2)
    as (script & w3 & Hscr & _).
  exists brief, w2, script, w3. repeat (split; [assumption|]).
  split.
  { intros e w4 Hvoice. unfold pipeline, bind. rewrite Hmk, Hres, Hscr, Hvoice.
    reflexivity. }
  intros clip_paths w4 Hvoice.
  destruct (generate_jingle_total E (resolved_topic t u) (job_of E) w4)
    as (jingle & w5 & k & Hjin & _).
  exists jingle, w5. split; [exact Hjin|].
  split.
  { intros e w6 Hst. unfold pipeline, bind. rewrite Hmk, Hres, Hscr, Hvoice, Hjin, Hst.
    reflexivity. }
  intros final_path w6 Hst.
  unfold pipeline, bind. rewrite Hmk, Hres, Hscr, Hvoice, Hjin, Hst.
  destruct (stitch_podcast_ok _ _ _ _ _ _ _ Hst) as (-> & Hfile & _).
  unfold path_exists, is_file. rewrite bool_decide_eq_true_2 by exact Hfile.
  reflexivity.
Qed.

Lemma pipeline_mkdir_fails E t u n w e w1 :
  mkdir_p E (path_div OUTPUT_DIR (job_of E)) w = (Raise e, w1) ->
  pipeline E t u n w = (Raise e, w1).
Proof. intros Hmk. unfold pipeline, bind. rewrite Hmk. reflexivity. Qed.

Lemma pipeline_ok_file E t u n w payload w' :
  pipeline E t u n w = (Ok payload, w') ->
  is_Some (files w' !! final_path_of (job_id payload)) /\
  audio_url payload = Some (audio_reference (job_id payload)) /\
  (has_audio payload = true <-> (0 < clip_count payload)%nat).
Proof.
  unfold pipeline. intros H.
  apply bind_ok_inv in H as ([] & w1 & _ & H).
  apply bind_ok_inv in H as (brief & w2 & _ & H).
  apply bind_ok_inv in H as (script & w3 & _ & H).
  apply bind_ok_inv in H as (clips & w4 & _ & H).
  apply bind_ok_inv in H as (jingle & w5 & _ & H).
  apply bind_ok_inv in H as (final & w6 & Hst & H).
  apply bind_ok_inv in H as (url & w7 & Hurl & H).
  injection Hurl as <- <-.
  apply JSONResponse_ok in H as [-> ->]. cbn [job_id audio_url has_audio clip_count].
  destruct (stitch_podcast_ok _ _ _ _ _ _ _ Hst) as (-> & Hfile & _).
  split; [exact Hfile|]. split.
  - unfold path_exists, is_file. rewrite bool_decide_eq_true_2 by exact Hfile.
    reflexivity.
  - destruct clips; cbn [length]; split; intros; first [discriminate | lia | reflexivity].
Qed.

(** C1.  With no clip, the assembly exports exactly 1000 ms of silence to
    the job's master path and returns it: nothing else is read, written
    or built.  Whenever the assembly returns, and whenever the route
    returns a payload, the master file is in place and the payload refers
    to it.  With every service unreachable and no credential at all, the
    route returns, reports no audio and no clip, and the master holds
    the encoded 1000 ms silence. *)
Theorem master_always_written (E : Env) :
  (forall jingle_path job w b,
      writable E w (final_path_of job) ->
      mp3_encode E (Silent 1000) = Some b ->
      stitch_podcast E [] jingle_path job w
      = (Ok (final_path_of job), set_files w (<[final_path_of job := b]> (files w)))
      /\ len (Silent 1000) = 1000)
  /\ (forall clip_paths jingle_path job w p w',
      stitch_podcast E clip_paths jingle_path job w = (Ok p, w') ->
      p = final_path_of job /\ is_Some (files w' !! p))
  /\ (forall body w payload w',
      generate_podcast E body w = (Ok payload, w') ->
      is_Some (files w' !! final_path_of (job_id payload)) /\
      audio_url payload = Some (audio_reference (job_id payload)))
  /\ (exists payload w',
      generate_podcast Fixtures.env_offline Fixtures.body_black_holes Fixtures.w0
        = (Ok payload, w') /\
      has_audio payload = false /\ clip_count payload = 0%nat /\
      script payload = _placeholder_script (lit "black holes") /\
      mp3_encode Fixtures.env_offline (Silent 1000) = Some Fixtures.id3 /\
      files w' !! final_path_of (job_id payload) = Some Fixtures.id3).
Proof.
  split; [|split; [|split]].
  - intros jingle_path job w b Hw Hb. split; [|reflexivity].
    unfold stitch_podcast, bind. rewrite (export_ok E _ _ w b Hw Hb). reflexivity.
  - intros clip_paths jingle_path job w p w' H.
    destruct (stitch_podcast_ok _ _ _ _ _ _ _ H) as (Hp & Hf & _). auto.
  - intros body w payload w' H.
    destruct (generate_podcast_fields E body w payload w' H) as (t & u & n & Hsub).
    destruct t as [|tc tt] eqn:Et; destruct u as [|uc ut] eqn:Eu.
    + rewrite (generate_podcast_rejects E body w _ _ _ Hsub eq_refl eq_refl) in H.
      discriminate.
    + rewrite (generate_podcast_stages E body w _ _ _ Hsub) in H by (right; discriminate).
      apply pipeline_ok_file in H as (H1 & H2 & _). auto.
    + rewrite (generate_podcast_stages E body w _ _ _ Hsub) in H by (left; discriminate).
      apply pipeline_ok_file in H as (H1 & H2 & _). auto.
    + rewrite (generate_podcast_stages E body w _ _ _ Hsub) in H by (left; discriminate).
      apply pipeline_ok_file in H as (H1 & H2 & _). auto.
  - eexists _, _. split; [vm_compute; reflexivity|].
    repeat split; vm_compute; reflexivity.
Qed.

Lemma master_always_written_witness :
  stitch_podcast Fixtures.env_offline [] None Fixtures.job0 Fixtures.w_job
  = (Ok (final_path_of Fixtures.job0),
     set_files Fixtures.w_job
       (<[final_path_of Fixtures.job0 := Fixtures.id3]> (files Fixtures.w_job))).
Proof.
  apply (master_always_written Fixtures.env_offline).
  - repeat split; vm_compute; reflexivity.
  - reflexivity.
Defined.

(** C2.  A submission whose topic and url are both empty once stripped
    is rejected with status 400 before anything runs.  Any other
    submission is never rejected.  When its directory cannot be made the
    route raises that error.  Once the directory is made, the research,
    script and jingle stages return whatever the services do; an error
    of voice synthesis or of the assembly is the outcome of the route;
    and when both return, the route answers with the payload (job id,
    resolved topic, tone, script, preview of the brief, reference to the
    master, whether any clip was produced and how many) provided it can
    be rendered: a float of the script that is not finite makes the
    route raise the error of the JSON encoder, and otherwise a surrogate
    code point in a string of the payload makes it raise the encoding
    error. *)
Theorem generate_podcast_completes (E : Env) (body : json) (w : World) (t u n : str) :
  submitted body t u n ->
  (t = [] -> u = [] -> generate_podcast E body w = (Raise rejection, w))
  /\ (t <> [] \/ u <> [] ->
      fst (generate_podcast E body w) <> Raise rejection
      /\ (forall e w1,
          mkdir_p E (path_div OUTPUT_DIR (job_of E)) w = (Raise e, w1) ->
          generate_podcast E body w = (Raise e, w1))
      /\ forall w1,
        mkdir_p E (path_div OUTPUT_DIR (job_of E)) w = (Ok tt, w1) ->
        exists brief w2 script w3,
          research E t u w1 = (Ok brief, w2) /\ brief <> [] /\
          generate_script E (resolved_topic t u) brief n w2 = (Ok script, w3) /\
          (forall e w4,
            generate_voice_clips E script (job_of E) w3 = (Raise e, w4) ->
            generate_podcast E body w = (Raise e, w4)) /\
          forall clip_paths w4,
            generate_voice_clips E script (job_of E) w3 = (Ok clip_paths, w4) ->
            exists jingle_path w5,
              generate_jingle E (resolved_topic t u) (job_of E) w4 = (Ok jingle_path, w5) /\
              (forall e w6,
                stitch_podcast E clip_paths jingle_path (job_of E) w5 = (Raise e, w6) ->
                generate_podcast E body w = (Raise e, w6)) /\
              forall final_path w6,
                stitch_podcast E clip_paths jingle_path (job_of E) w5 = (Ok final_path, w6) ->
                let payload :=
                  mkPayload (job_of E) (resolved_topic t u) n script
                    (brief_preview brief)
                    (Some (audio_reference (job_of E)))
                    (match clip_paths with [] => false | _ => true end)
                    (length clip_paths) in
                (json_nonfinite script = false -> payload_surrogate payload = false ->
                 generate_podcast E body w = (Ok payload, w6))
                /\ (json_nonfinite script = true ->
                    generate_podcast E body w = (Raise out_of_range, w6))
                /\ (json_nonfinite script = false -> payload_surrogate payload = true ->
                    generate_podcast E body w = (Raise UnicodeEncodeError, w6))).
Proof.
  intros Hsub. split.
  - intros Ht Hu. apply (generate_podcast_rejects E body w t u n Hsub Ht Hu).
  - intros Hne. rewrite (generate_podcast_stages E body w t u n Hsub Hne).
    split; [|split].
    + destruct (pipeline E t u n w) as [[payload|e] w'] eqn:Hp; [discriminate|].
      cbn [fst]. intros [= ->].
      eapply (no_http_pipeline E t u n). exact Hp. reflexivity.
    + intros e w1. apply pipeline_mkdir_fails.
    + intros w1 Hmk.
      destruct (pipeline_returns E t u n w w1 Hmk)
        as (brief & w2 & script & w3 & Hres & Hbrief & Hscr & Hvfail & Hrest).
      exists brief, w2, script, w3.
      split; [exact Hres|]. split; [exact Hbrief|]. split; [exact Hscr|].
      split; [exact Hvfail|].
      intros clip_paths w4 Hvoice.
      destruct (Hrest clip_paths w4 Hvoice) as (jingle & w5 & Hjin & Hsfail & Hdone).
      exists jingle, w5. split; [exact Hjin|]. split; [exact Hsfail|].
      intros final_path w6 Hst payload. rewrite (Hdone final_path w6 Hst).
      destruct (JSONResponse_payload payload w6) as (Hfloat & Hsur & Hok).
      split; [|split].
      * intros H1 H2. apply Hok; assumption.
      * exact Hfloat.
      * exact Hsur.
Qed.

Lemma generate_podcast_completes_witness :
  fst (generate_podcast Fixtures.env_offline Fixtures.body_black_holes Fixtures.w0)
  <> Raise rejection
  /\ generate_podcast Fixtures.env_offline Fixtures.body_blank_topic Fixtures.w0
     = (Raise rejection, Fixtures.w0)
  /\ generate_podcast Fixtures.env_read_only Fixtures.body_black_holes Fixtures.w0
     = (Raise OSError, Fixtures.w0).
Proof.
  split; [|split].
  - destruct (generate_podcast_completes Fixtures.env_offline Fixtures.body_black_holes
                Fixtures.w0 (lit "black holes") [] (lit "casual")) as (_ & H).
    + exists (lit "black holes"), [], (lit "casual").
      repeat split; vm_compute; reflexivity.
    + apply H. left. vm_compute. discriminate.
  - destruct (generate_podcast_completes Fixtures.env_offline Fixtures.body_blank_topic
                Fixtures.w0 [] [] (lit "casual")) as (H & _).
    + exists (lit " "), [], (lit "casual").
      repeat split; vm_compute; reflexivity.
    + apply H; reflexivity.
  - destruct (generate_podcast_completes Fixtures.env_read_only
                Fixtures.body_black_holes Fixtures.w0 (lit "black holes") []
                (lit "casual")) as (_ & H).
    + exists (lit "black holes"), [], (lit "casual").
      repeat split; vm_compute; reflexivity.
    + destruct H as (_ & Hmk & _); [left; vm_compute; discriminate|].
      apply Hmk. vm_compute. reflexivity.
Defined.

(** Submissions with a non-empty topic that get no payload.  A topic of
    white space only (the one-character string of a space) is rejected,
    not run.  A url that is null, not a string, makes the route raise
    before any stage runs.  A job directory that cannot be made makes
    the route raise.  Clips that are no MP3 data make the assembly raise,
    and the route with it.  A topic with a lone surrogate goes through
    every stage and cannot be rendered; neither can a script in which
    the service wrote NaN. *)
Lemma generate_podcast_counterexample :
  (py_get Fixtures.body_blank_topic (lit "topic") (JString []) = Ok (JString (lit " "))
   /\ lit " " <> []
   /\ generate_podcast Fixtures.env_offline Fixtures.body_blank_topic Fixtures.w0
      = (Raise rejection, Fixtures.w0))
  /\ (py_get Fixtures.body_null_url (lit "topic") (JString [])
        = Ok (JString (lit "black holes"))
      /\ generate_podcast Fixtures.env_offline Fixtures.body_null_url Fixtures.w0
         = (Raise AttributeError, Fixtures.w0))
  /\ generate_podcast Fixtures.env_read_only Fixtures.body_black_holes Fixtures.w0
     = (Raise OSError, Fixtures.w0)
  /\ fst (generate_podcast Fixtures.env_voice_not_mp3 Fixtures.body_black_holes
            Fixtures.w0)
     = Raise CouldntDecodeError
  /\ (py_get Fixtures.body_surrogate_topic (lit "topic") (JString [])
        = Ok (JString [55357])
      /\ fst (generate_podcast Fixtures.env_offline Fixtures.body_surrogate_topic
                Fixtures.w0)
         = Raise UnicodeEncodeError)
  /\ (fst (generate_script (Fixtures.env_completion "[NaN]") (lit "black holes")
             (lookup_failed_brief (lit "black holes")) (lit "casual") Fixtures.w_job)
      = Ok (JArray [JFloat FNaN])
      /\ fst (generate_podcast (Fixtures.env_completion "[NaN]")
                Fixtures.body_black_holes Fixtures.w0)
         = Raise out_of_range).
Proof.
  split; [|split; [|split; [|split; [|split]]]].
  - split; [vm_compute; reflexivity|]. split; [vm_compute; discriminate|].
    vm_compute. reflexivity.
  - split; vm_compute; reflexivity.
  - vm_compute. reflexivity.
  - vm_compute. reflexivity.
  - split; vm_compute; reflexivity.
  - split; vm_compute; reflexivity.
Qed.

(** The fields of a line are read before the try block of the synthesis
    loop: a script whose line has no speaker makes the route raise. *)
Lemma line_without_speaker_aborts :
  fst (generate_script Fixtures.env_line_without_speaker (lit "black holes")
         (lookup_failed_brief (lit "black holes")) (lit "casual") Fixtures.w_job)
  = Ok (JArray [JObject [(lit "text", JString (lit "Hello"))]])
  /\ fst (generate_podcast Fixtures.env_line_without_speaker Fixtures.body_black_holes
            Fixtures.w0) = Raise KeyError.
Proof. split; vm_compute; reflexivity. Qed.
